(** * Mythographer: the job lifecycle of the design server

    A shallow embedding of [server.ts] (the WebSocket session, the job
    orchestrator and the validate/repair loop) and of [mythographer.ts]
    (the translator that turns a model completion into a [Result]).

    Conventions.
    - A JavaScript string is the list of its UTF-16 code units.
    - A [Promise] is represented by the way it settles ([Settled]); the code
      that runs between two [await]s is one monadic segment, and the event
      loop is the scheduler [step] that resumes suspended activations.
    - Every segment writes a log: the events really handed to [ws.send],
      and two kinds of ghost entries (staleness checks, collaborator calls)
      that let statements speak about what the code did. *)

From Stdlib Require Import List NArith ZArith Bool Arith Lia String Ascii.
Import ListNotations.

Set Implicit Arguments.

(* ================================================================== *)
(** ** JavaScript strings *)
(* ================================================================== *)

Module JS.

Definition jsstring := list N.

(** A source literal, code unit by code unit. *)
Fixpoint lit (s : string) : jsstring :=
  match s with
  | EmptyString => []
  | String c s' => N_of_ascii c :: lit s'
  end.

Definition jsstring_eqb (a b : jsstring) : bool :=
  if list_eq_dec N.eq_dec a b then true else false.

(** [WhiteSpace] and [LineTerminator] of ECMAScript, the code units that
    [String.prototype.trim] removes. *)
Definition isWhiteSpace (c : N) : bool :=
  ((c =? 9) || (c =? 10) || (c =? 11) || (c =? 12) || (c =? 13) || (c =? 32)
   || (c =? 160) || (c =? 5760) || ((8192 <=? c) && (c <=? 8202))
   || (c =? 8232) || (c =? 8233) || (c =? 8239) || (c =? 8287)
   || (c =? 12288) || (c =? 65279))%N.

Fixpoint trimStart (s : jsstring) : jsstring :=
  match s with
  | [] => []
  | c :: s' => if isWhiteSpace c then trimStart s' else s
  end.

Definition trimEnd (s : jsstring) : jsstring := rev (trimStart (rev s)).

Definition trim (s : jsstring) : jsstring := trimEnd (trimStart s).

(** [s.indexOf(c)] for a one-unit needle: first position, or -1. *)
Fixpoint indexOf (c : N) (s : jsstring) : Z :=
  match s with
  | [] => (-1)%Z
  | d :: s' =>
      if (d =? c)%N then 0%Z
      else match indexOf c s' with
           | Zneg _ => (-1)%Z
           | i => (i + 1)%Z
           end
  end.

(** [s.lastIndexOf(c)]: last position, or -1. *)
Fixpoint lastIndexOf (c : N) (s : jsstring) : Z :=
  match s with
  | [] => (-1)%Z
  | d :: s' =>
      match lastIndexOf c s' with
      | Zneg _ => if (d =? c)%N then 0%Z else (-1)%Z
      | i => (i + 1)%Z
      end
  end.

(** [s.slice(from, to)] with the relative-index rule of the language. *)
Definition relativeIndex (len i : Z) : Z :=
  if (i <? 0)%Z then Z.max (len + i) 0 else Z.min i len.

Definition slice (s : jsstring) (from to : Z) : jsstring :=
  let len := Z.of_nat (List.length s) in
  let a := relativeIndex len from in
  let b := relativeIndex len to in
  firstn (Z.to_nat (b - a)) (skipn (Z.to_nat a) s).

(** [String(n)] for a non-negative integer. *)
Fixpoint digits (d : Decimal.uint) : jsstring :=
  match d with
  | Decimal.Nil => []
  | Decimal.D0 d => 48%N :: digits d
  | Decimal.D1 d => 49%N :: digits d
  | Decimal.D2 d => 50%N :: digits d
  | Decimal.D3 d => 51%N :: digits d
  | Decimal.D4 d => 52%N :: digits d
  | Decimal.D5 d => 53%N :: digits d
  | Decimal.D6 d => 54%N :: digits d
  | Decimal.D7 d => 55%N :: digits d
  | Decimal.D8 d => 56%N :: digits d
  | Decimal.D9 d => 57%N :: digits d
  end.

Definition ofNat (n : nat) : jsstring := digits (Nat.to_uint n).

End JS.

Import JS.

Notation "'js' s" := (lit s%string) (at level 9, s at level 0, only parsing).

(* ================================================================== *)
(** ** JSON values and [Result] *)
(* ================================================================== *)

(** What [JSON.parse] produces.  A number is kept as the literal that was
    read: no code of the server does arithmetic on the payload. *)
#[warnings="-register-all"] Inductive json : Type :=
| JNull
| JBool (b : bool)
| JNumber (literal : jsstring)
| JString (s : jsstring)
| JArray (items : list json)
| JObject (members : list (jsstring * json)).

(** typechat's [Result<T>]: [{success: true, data}] or
    [{success: false, message}]. *)
Inductive Result (T : Type) : Type :=
| Success (data : T)
| Error (message : jsstring).

Arguments Success {T} data.
Arguments Error {T} message.

Definition succeeded {T} (r : Result T) : bool :=
  match r with Success _ => true | Error _ => false end.

(** How a promise settles: fulfilled with a value, or rejected with an
    error of which the code only ever reads [message]. *)
Inductive Settled (T : Type) : Type :=
| Returned (value : T)
| Threw (message : jsstring).

Arguments Returned {T} value.
Arguments Threw {T} message.

(** Outcome of [JSON.parse]: a value, a [SyntaxError] with its message, or
    any other exception. *)
Inductive Parse : Type :=
| Parsed (value : json)
| SyntaxError (message : jsstring)
| OtherError.

(** *** Truthiness of a parsed value *)

Definition isDigit (c : N) : bool := ((48 <=? c) && (c <=? 57))%N.

Definition isExponentMark (c : N) : bool := ((c =? 101) || (c =? 69))%N.

(** The number the digits of [s] spell, the other units skipped. *)
Fixpoint digitsValue (s : jsstring) (acc : N) : N :=
  match s with
  | [] => acc
  | c :: s' =>
      if isDigit c then digitsValue s' (10 * acc + (c - 48))%N
      else digitsValue s' acc
  end.

Fixpoint beforeExponent (s : jsstring) : jsstring :=
  match s with
  | [] => []
  | c :: s' => if isExponentMark c then [] else c :: beforeExponent s'
  end.

Fixpoint afterExponent (s : jsstring) : jsstring :=
  match s with
  | [] => []
  | c :: s' => if isExponentMark c then s' else afterExponent s'
  end.

Fixpoint afterPoint (s : jsstring) : jsstring :=
  match s with
  | [] => []
  | c :: s' => if (c =? 46)%N then s' else afterPoint s'
  end.

(** Is the Number that [JSON.parse] makes of a number literal [+0] or
    [-0]?  The literal is read to the nearest double, ties to even, so it
    is when the significand is zero or the value is at most 2^-1075, half
    the least positive double.  (All other values, the infinities of an
    overflow included, are not zero; a literal is never [NaN].) *)
Definition numberIsZero (literal : jsstring) : bool :=
  let significand := beforeExponent literal in
  let m := digitsValue significand 0 in
  let fractionDigits := Z.of_nat (List.length (afterPoint significand)) in
  let exponentText := afterExponent literal in
  let e := Z.of_N (digitsValue exponentText 0) in
  let exponent := match exponentText with
                  | 45%N :: _ => (- e)%Z
                  | _ => e
                  end in
  let scale := (exponent - fractionDigits)%Z in
  (m =? 0)%N
  || ((scale <? 0)%Z && (Z.of_N m * 2 ^ 1075 <=? 10 ^ (- scale))%Z).

(** ECMAScript's [ToBoolean], which [!x] and [if (x)] apply. *)
Definition toBoolean (x : json) : bool :=
  match x with
  | JNull => false
  | JBool b => b
  | JNumber literal => negb (numberIsZero literal)
  | JString s => match s with [] => false | _ => true end
  | JArray _ => true
  | JObject _ => true
  end.

(* ================================================================== *)
(** ** mythographer.ts *)
(* ================================================================== *)

Module Mythographer.

Section Translator.

(** The built-in [JSON.parse]. *)
Variable JSON_parse : jsstring -> Parse.

(** The effect of [stripNulls] (lines 220-243) on the parsed object.  It
    mutates in place and can leave holes in arrays shared between the old
    and the filtered copy; it is reached only when the translator's flag
    is set, so its result is left open here. *)
Variable stripNullsOf : json -> json.

Record Mythographer : Type := {
  stripNulls : bool
}.

(** [createMythographer] initialises [stripNulls: false]; nothing in the
    server assigns the property afterwards. *)
Definition createMythographer : Mythographer := {| stripNulls := false |}.

Definition openBrace : N := 123.
Definition closeBrace : N := 125.

Definition parse_json_response (translator : Mythographer)
    (responseText : jsstring) : Result json :=
  let startIndex := indexOf openBrace responseText in
  let endIndex := lastIndexOf closeBrace responseText in
  if negb ((startIndex >=? 0)%Z && (endIndex >? startIndex)%Z) then
    Error (js "Response is not JSON:" ++ [10%N] ++ responseText)
  else
    let jsonText := slice responseText startIndex (endIndex + 1) in
    match JSON_parse jsonText with
    | SyntaxError message => Error message
    | OtherError => Error (js "JSON parse error")
    | Parsed jsonObject =>
        Success (if stripNulls translator then stripNullsOf jsonObject
                 else jsonObject)
    end.

(** [translate], [modify] and [repair] build a prompt, await
    [model.complete(prompt)] and hand the text to [parse_json_response].
    The argument is the way that completion settles. *)
Definition afterCompletion (translator : Mythographer)
    (response : Settled (Result jsstring)) : Settled (Result json) :=
  match response with
  | Threw message => Threw message
  | Returned (Error message) => Returned (Error message)
  | Returned (Success responseText) =>
      Returned (parse_json_response translator responseText)
  end.

Definition translate := afterCompletion.
Definition modify := afterCompletion.
Definition repair := afterCompletion.

End Translator.

End Mythographer.

(* ================================================================== *)
(** ** server.ts: protocol and per-connection state *)
(* ================================================================== *)

(** [stageName] (line 85), with the literal each stage has on the wire. *)
Inductive stageName : Type :=
| received | translating | modifying | validating | repair | idle.

Definition stageLiteral (s : stageName) : jsstring :=
  match s with
  | received => js "received"
  | translating => js "translating"
  | modifying => js "modifying"
  | validating => js "validating"
  | repair => js "repair"
  | idle => js "idle"
  end.

(** Messages of the client, as the handler reads them after
    [JSON.parse(rawStr) as ClientMessage].  [prompt] is [None] when the
    field is absent or null (the case [??] looks for); [originalJson] is
    [None] when the field is absent, and otherwise the value sent.
    [Raises] is a message on which the handler throws a [TypeError]
    before it has sent or changed anything: a text that parses to [null]
    ([msg.type], line 381), a prompt or modify message whose [prompt] is
    neither a string nor absent nor null ([.trim()], lines 400 and
    419). *)
Inductive Inbound : Type :=
| NotJSON
| Ping
| Cancel
| Prompt (prompt : option jsstring)
| Modify (prompt : option jsstring) (originalJson : option json)
| UnknownType
| Raises.

(** [ServerEvent] (lines 88-105).  Optional fields are options. *)
Inductive ServerEvent : Type :=
| EvStatus (stage : stageName) (message : jsstring) (attempt : option nat)
| EvResult (data : json) (is_modify : option bool)
| EvResultPartial (data : json) (message : jsstring) (is_modify : option bool)
| EvError (message : jsstring)
| EvDone (ok : bool)
| EvPong (t : N).

(** [SocketState] (lines 108-114); [heartbeat] tells whether the interval
    timer is armed. *)
Record SocketState : Type := {
  busy : bool;
  canceled : bool;
  jobName : stageName;
  lastJobId : nat;
  heartbeat : bool
}.

Inductive ReadyState : Type := CONNECTING | OPEN | CLOSING | CLOSED.

Definition isOpen (r : ReadyState) : bool :=
  match r with OPEN => true | _ => false end.

(** The pair [(ws, state)] every function of the server is handed. *)
Record Conn : Type := {
  state : SocketState;
  readyState : ReadyState
}.

Definition withState (f : SocketState -> SocketState) (c : Conn) : Conn :=
  {| state := f (state c); readyState := readyState c |}.

(** Who a payload is sent for: the message handler and the keepalive
    timer, or the routines of one job. *)
Inductive Origin : Type :=
| Session
| Job (jobId : nat).

(** Invocations of the collaborators. *)
Inductive Call : Type :=
| CallTranslate (prompt : jsstring)
| CallModify (previousJson : json) (prompt : jsstring)
| CallRepair (current : json) (validationError : jsstring)
| CallValidate (jsonObject : json).

Inductive Entry : Type :=
| Sent (from : Origin) (payload : ServerEvent)
| Checked (jobId : nat) (canceledSeen : bool) (lastJobIdSeen : nat)
| Called (jobId : nat) (c : Call).

(** *** The monad of one synchronous segment *)

Definition M (A : Type) : Type := Conn -> A * Conn * list Entry.

Definition ret {A} (a : A) : M A := fun c => (a, c, []).

Definition bind {A B} (m : M A) (f : A -> M B) : M B :=
  fun c =>
    let '(a, c1, l1) := m c in
    let '(b, c2, l2) := f a c1 in
    (b, c2, l1 ++ l2).

Notation "x <- m ;; k" := (bind m (fun x => k))
  (at level 61, m at next level, right associativity).
Notation "m ;; k" := (bind m (fun _ => k))
  (at level 61, right associativity).

Definition read {A} (f : SocketState -> A) : M A :=
  fun c => (f (state c), c, []).

Definition update (f : SocketState -> SocketState) : M unit :=
  fun c => (tt, withState f c, []).

Definition note (e : Entry) : M unit := fun c => (tt, c, [e]).

Definition setCanceled (b : bool) (s : SocketState) : SocketState :=
  {| busy := busy s; canceled := b; jobName := jobName s;
     lastJobId := lastJobId s; heartbeat := heartbeat s |}.

Definition setJobName (n : stageName) (s : SocketState) : SocketState :=
  {| busy := busy s; canceled := canceled s; jobName := n;
     lastJobId := lastJobId s; heartbeat := heartbeat s |}.

Definition setLastJobId (n : nat) (s : SocketState) : SocketState :=
  {| busy := busy s; canceled := canceled s; jobName := jobName s;
     lastJobId := n; heartbeat := heartbeat s |}.

Definition setHeartbeat (b : bool) (s : SocketState) : SocketState :=
  {| busy := busy s; canceled := canceled s; jobName := jobName s;
     lastJobId := lastJobId s; heartbeat := b |}.

Definition withBusy (b : bool) (s : SocketState) : SocketState :=
  {| busy := b; canceled := canceled s; jobName := jobName s;
     lastJobId := lastJobId s; heartbeat := heartbeat s |}.

(** *** Lines 116-127 and 323-337 *)

Definition send (from : Origin) (payload : ServerEvent) : M unit :=
  fun c =>
    if isOpen (readyState c) then (tt, c, [Sent from payload])
    else (tt, c, []).

Definition sendStatus (from : Origin) (stage : stageName)
    (message : jsstring) (data : option nat) : M unit :=
  send from (EvStatus stage message data) ;;
  update (setJobName stage).

(** The closure of [makeStaleChecker], on the state it captured. *)
Definition stale (s : SocketState) (id : nat) : bool :=
  canceled s || negb (id =? lastJobId s).

Definition isStale (id : nat) : M bool :=
  fun c => (stale (state c) id, c,
            [Checked id (canceled (state c)) (lastJobId (state c))]).

Definition setBusy (b : bool) : M unit := update (withBusy b).

Definition sendError (from : Origin) (message : jsstring) : M unit :=
  send from (EvError message) ;;
  send from (EvDone false).

(** [withTimeout(p, ms)]: what the caller's [await] sees is [p] settling,
    or the rejection of the timer when the deadline comes first. *)
Inductive Race (T : Type) : Type :=
| Operation (s : Settled T)
| Deadline.

Arguments Operation {T} s.
Arguments Deadline {T}.

Definition withTimeout {T} (r : Race T) : Settled T :=
  match r with
  | Operation s => s
  | Deadline => Threw (js "Operation timed out")
  end.

(* ================================================================== *)
(** ** server.ts: the routines *)
(* ================================================================== *)

Section Server.

(** The collaborators: the built-in parser, the effect of [stripNulls],
    and [validator.validate] of the schema validator (synchronous and
    stateless). *)
Variable JSON_parse : jsstring -> Parse.
Variable stripNullsOf : json -> json.
Variable validate : json -> Result json.

(** Line 52: [const translator = createMythographer(model, validator)]. *)
Definition translator : Mythographer.Mythographer :=
  Mythographer.createMythographer.

(** [translator.json_is_schema_valid] (mythographer.ts, lines 171-173). *)
Definition json_is_schema_valid (jobId : nat) (jsonObject : json)
  : M (Result json) :=
  note (Called jobId (CallValidate jsonObject)) ;;
  ret (validate jsonObject).

(** What an [await withTimeout(translator.f(...), 180_000)] yields, from
    the way [model.complete] fares against the deadline. *)
Definition guardedCall (a : Race (Result jsstring)) : Settled (Result json) :=
  withTimeout
    match a with
    | Operation response =>
        Operation (Mythographer.afterCompletion JSON_parse stripNullsOf
                     translator response)
    | Deadline => Deadline
    end.

(** *** validateAndRepair (lines 253-316) *)

Definition maxAttempts : nat := 3.

Definition staleMessage : jsstring :=
  js "Job stale or canceled during validation.".

Definition exitedMessage : jsstring :=
  js "Validation and repair loop exited unexpectedly.".

Definition validatingMessage (attempt : nat) : jsstring :=
  js "Validating schema (attempt " ++ ofNat attempt ++ js ")".

Definition repairingMessage (attempt : nat) (diagnostic : jsstring)
  : jsstring :=
  js "Repairing (" ++ ofNat attempt ++ js "/3): " ++ diagnostic.

Definition exhaustedMessage (diagnostic : jsstring) : jsstring :=
  js "Max repair attempts reached. Last error: " ++ diagnostic.

Definition repairFailedMessage (attempt : nat) (reason : jsstring)
  : jsstring :=
  js "Repair " ++ ofNat attempt ++ js " failed: " ++ reason.

Definition repairThrewMessage (attempt : nat) (reason : jsstring)
  : jsstring :=
  js "Repair " ++ ofNat attempt ++ js " threw: " ++ reason.

(** Where one pass through the loop body stops: at a [return] (a [break]
    leads to the [return] of line 315), or at the [await] of line 294. *)
Inductive LoopStep : Type :=
| Returns (r : Result json)
| AwaitsRepair.

(** Lines 265-294, up to the call of [translator.repair]. *)
Definition loopBody (jobId attempt : nat) (current : json)
    (is_modify : bool) : M LoopStep :=
  isStale_ <- isStale jobId ;;
  if isStale_ then ret (Returns (Error staleMessage))
  else
    sendStatus (Job jobId) validating (validatingMessage attempt) None ;;
    validation <- json_is_schema_valid jobId current ;;
    match validation with
    | Success _ => ret (Returns (Success current))
    | Error message =>
        if attempt =? maxAttempts then
          send (Job jobId)
               (EvResultPartial current (exhaustedMessage message)
                                (Some is_modify)) ;;
          ret (Returns (Error exitedMessage))
        else
          sendStatus (Job jobId) repair
                     (repairingMessage attempt message) None ;;
          note (Called jobId (CallRepair current message)) ;;
          ret AwaitsRepair
    end.

(** Where the code after the [await] of line 294 stops: at a [break], or
    at [await sleep(500)] with the repaired candidate. *)
Inductive RepairStep : Type :=
| Breaks
| Repaired (data : json).

(** Lines 294-313, from the settled repair call to the backoff. *)
Definition afterRepair (jobId attempt : nat) (current : json)
    (is_modify : bool) (repair_result : Settled (Result json))
  : M RepairStep :=
  match repair_result with
  | Returned (Success data) => ret (Repaired data)
  | Returned (Error message) =>
      send (Job jobId)
           (EvResultPartial current (repairFailedMessage attempt message)
                            (Some is_modify)) ;;
      ret Breaks
  | Threw message =>
      send (Job jobId) (EvError (repairThrewMessage attempt message)) ;;
      ret Breaks
  end.

(** What the rest of the program and the network do to the connection,
    its state and its socket, while the loop is suspended in attempt [n],
    and how the repair call of that attempt settles. *)
Record Suspension : Type := {
  whileRepairing : Conn -> Conn;
  repairSettles : Race (Result jsstring);
  whileSleeping : Conn -> Conn
}.

(** What the loop finds changed when it resumes. *)
Definition meanwhile (f : Conn -> Conn) : M unit := fun c => (tt, f c, []).

(** The [for] loop over [attempt = 1 .. maxAttempts], the body never
    assigning [attempt]. *)
Fixpoint attempts (todo : list nat) (jobId : nat) (current : json)
    (is_modify : bool) (env : nat -> Suspension) : M (Result json) :=
  match todo with
  | [] => ret (Error exitedMessage)
  | attempt :: rest =>
      s <- loopBody jobId attempt current is_modify ;;
      match s with
      | Returns r => ret r
      | AwaitsRepair =>
          meanwhile (whileRepairing (env attempt)) ;;
          r <- afterRepair jobId attempt current is_modify
                 (guardedCall (repairSettles (env attempt))) ;;
          match r with
          | Breaks => ret (Error exitedMessage)
          | Repaired data =>
              meanwhile (whileSleeping (env attempt)) ;;
              attempts rest jobId data is_modify env
          end
      end
  end.

Definition validateAndRepair (jobId : nat) (json_ : json)
    (is_modify : bool) (env : nat -> Suspension) : M (Result json) :=
  attempts (seq 1 maxAttempts) jobId json_ is_modify env.

(** *** runJob and runModificationJob (lines 141-239) *)

Inductive JobKind : Type :=
| Translation
| Modification (previousJson : json).

Definition isModify (k : JobKind) : bool :=
  match k with Translation => false | Modification _ => true end.

Definition workStage (is_modify : bool) : stageName :=
  if is_modify then modifying else translating.

Definition startMessage (is_modify : bool) : jsstring :=
  if is_modify then js "Starting modification to schema..."
  else js "Starting translation to schema...".

Definition failurePrefix (is_modify : bool) : jsstring :=
  if is_modify then js "Modification failed: "
  else js "Translation failed: ".

Definition generationCall (k : JobKind) (prompt : jsstring) : Call :=
  match k with
  | Translation => CallTranslate prompt
  | Modification previousJson => CallModify previousJson prompt
  end.

Definition resultEvent (is_modify : bool) (data : json) : ServerEvent :=
  EvResult data (if is_modify then Some true else None).

(** The [finally] block. *)
Definition cleanup (jobId : nat) : M unit :=
  setBusy false ;;
  update (setJobName idle) ;;
  canceled_ <- read canceled ;;
  send (Job jobId) (EvDone (negb canceled_)).

(** An activation that is suspended at an [await]. *)
Inductive Suspended : Type :=
| InGeneration (is_modify : bool)
    (* the job at line 161 / 212 *)
| InRepair (guarded is_modify : bool) (attempt : nat) (current : json)
    (* the loop at line 294 *)
| InSleep (guarded is_modify : bool) (attempt : nat) (current : json).
    (* the loop at line 309, [current] already replaced *)
(** [guarded] holds while the job still awaits the guard of line 176 /
    227; once that guard has rejected, the loop goes on by itself and its
    return value is dropped. *)

(** Lines 147-161 (201-212): from the call to the first [await]. *)
Definition startJob (k : JobKind) (jobId : nat) (prompt : jsstring)
  : M (option Suspended) :=
  isStale_ <- isStale jobId ;;
  if isStale_ then cleanup jobId ;; ret None
  else
    setBusy true ;;
    update (setJobName (workStage (isModify k))) ;;
    sendStatus (Job jobId) received (js "Prompt received.") None ;;
    sendStatus (Job jobId) (workStage (isModify k))
               (startMessage (isModify k)) None ;;
    note (Called jobId (generationCall k prompt)) ;;
    ret (Some (InGeneration (isModify k))).

(** Lines 177-179 (228-230) and the [finally] block. *)
Definition afterLoop (is_modify : bool) (jobId : nat)
    (finalResult : Result json) : M unit :=
  match finalResult with
  | Success data => send (Job jobId) (resultEvent is_modify data)
  | Error _ => ret tt
  end ;;
  cleanup jobId.

Definition loopReturns (guarded is_modify : bool) (jobId : nat)
    (r : Result json) : M unit :=
  if guarded then afterLoop is_modify jobId r else ret tt.

(** The loop from the test [attempt <= maxAttempts] to where it stops. *)
Definition continueLoop (guarded is_modify : bool) (jobId attempt : nat)
    (current : json) : M (option Suspended) :=
  if attempt <=? maxAttempts then
    s <- loopBody jobId attempt current is_modify ;;
    match s with
    | Returns r => loopReturns guarded is_modify jobId r ;; ret None
    | AwaitsRepair => ret (Some (InRepair guarded is_modify attempt current))
    end
  else
    loopReturns guarded is_modify jobId (Error exitedMessage) ;; ret None.

(** Lines 162-176 (213-227): from the settled generation call on. *)
Definition afterGeneration (is_modify : bool) (jobId : nat)
    (outcome : Settled (Result json)) : M (option Suspended) :=
  match outcome with
  | Threw message =>
      sendError (Job jobId) (failurePrefix is_modify ++ message) ;;
      cleanup jobId ;;
      ret None
  | Returned translation_result =>
      isStale_ <- isStale jobId ;;
      if isStale_ then cleanup jobId ;; ret None
      else
        match translation_result with
        | Error message =>
            sendError (Job jobId) message ;;
            cleanup jobId ;;
            ret None
        | Success data => continueLoop true is_modify jobId 1 data
        end
  end.

(** The loop resumed after its repair call settled. *)
Definition resumeRepair (guarded is_modify : bool) (jobId attempt : nat)
    (current : json) (repair_result : Settled (Result json))
  : M (option Suspended) :=
  r <- afterRepair jobId attempt current is_modify repair_result ;;
  match r with
  | Breaks =>
      loopReturns guarded is_modify jobId (Error exitedMessage) ;; ret None
  | Repaired data => ret (Some (InSleep guarded is_modify attempt data))
  end.

(** The guard of line 176 / 227 rejects while the loop is suspended: the
    [catch] and the [finally] of the job run. *)
Definition guardRejects (jobId : nat) : M unit :=
  sendError (Job jobId) (js "Operation timed out") ;;
  cleanup jobId.

(** *** The connection handlers (lines 358-455) *)

Definition promptOf (p : option jsstring) : jsstring :=
  trim (match p with Some s => s | None => [] end).

Definition isEmpty (s : jsstring) : bool :=
  match s with [] => true | _ => false end.

Definition newJob (k : JobKind) (prompt : jsstring)
  : M (option (nat * Suspended)) :=
  update (fun s => setLastJobId (S (lastJobId s)) s) ;;
  jobId <- read lastJobId ;;
  t <- startJob k jobId prompt ;;
  ret (match t with Some t => Some (jobId, t) | None => None end).

(** Lines 430-434. *)
Definition missingOriginal : M (option (nat * Suspended)) :=
  send Session (EvError (js "Missing 'originalJson'.")) ;;
  send Session (EvDone false) ;;
  ret None.

Definition onMessage (msg : Inbound) (now : N)
  : M (option (nat * Suspended)) :=
  match msg with
  | NotJSON =>
      send Session
        (EvError (js "Design Server: Invalid JSON in message from client")) ;;
      ret None
  | Ping => send Session (EvPong now) ;; ret None
  | Cancel =>
      busy_ <- read busy ;;
      (if busy_ then
         update (setCanceled true) ;;
         sendStatus Session idle (js "Job canceled by client.") None
       else
         sendStatus Session idle (js "No active job to cancel.") None) ;;
      ret None
  | Prompt p =>
      let prompt := promptOf p in
      if isEmpty prompt then
        send Session (EvError (js "Missing 'prompt'.")) ;;
        send Session (EvDone false) ;;
        ret None
      else
        busy_ <- read busy ;;
        if busy_ then
          send Session
            (EvError (js "Job already in progress on this connection.")) ;;
          ret None
        else newJob Translation prompt
  | Modify p originalJson =>
      let prompt := promptOf p in
      if isEmpty prompt then
        send Session (EvError (js "Missing 'prompt'.")) ;;
        send Session (EvDone false) ;;
        ret None
      else
        busy_ <- read busy ;;
        if busy_ then
          send Session
            (EvError (js "Job already in progress on this connection.")) ;;
          ret None
        else
          match originalJson with
          | None => missingOriginal
          | Some previousJson =>
              if toBoolean previousJson then
                newJob (Modification previousJson) prompt
              else missingOriginal
          end
  | UnknownType =>
      send Session (EvError (js "Unknown message type.")) ;;
      ret None
  | Raises =>
      (* the promise of the [async] listener is rejected with nothing of
         the connection touched; a run that goes on after it is one of
         a process that outlives the rejection *)
      ret None
  end.

Definition onHeartbeat : M unit :=
  armed <- read heartbeat ;;
  if armed then
    stage <- read jobName ;;
    send Session (EvStatus stage (js "...") None)
  else ret tt.

Definition onError : M unit :=
  update (setHeartbeat false) ;;
  update (setCanceled true).

(** ['close'] fires once the socket has reached [CLOSED]. *)
Definition onClose : M unit :=
  fun c =>
    onError {| state := state c; readyState := CLOSED |}.

(** *** The event loop *)

(** One connection: its state and socket, and the activations that are
    suspended, each under the id of its job. *)
Record World : Type := {
  conn : Conn;
  pending : list (nat * Suspended)
}.

(** What the event loop can run next on a connection. *)
Inductive Happening : Type :=
| Receives (msg : Inbound) (now : N)       (* ws.on("message") *)
| Closes                                   (* ws.on("close") *)
| Fails                                    (* ws.on("error") *)
| Beats                                    (* the 15 s interval *)
| Settles (jobId : nat) (a : Race (Result jsstring))
    (* the guarded generation or repair call awaited by the job settles *)
| Wakes (jobId : nat)                      (* sleep(500) is over *)
| GuardElapses (jobId : nat).
    (* the 180 s timer around validateAndRepair fires first *)

Fixpoint lookup (jobId : nat) (p : list (nat * Suspended))
  : option Suspended :=
  match p with
  | [] => None
  | (id, t) :: p' => if id =? jobId then Some t else lookup jobId p'
  end.

Definition drop (jobId : nat) (p : list (nat * Suspended))
  : list (nat * Suspended) :=
  filter (fun e => negb (fst e =? jobId)) p.

Definition settle (jobId : nat) (t : option Suspended)
    (p : list (nat * Suspended)) : list (nat * Suspended) :=
  match t with
  | Some t => (jobId, t) :: drop jobId p
  | None => drop jobId p
  end.

(** Runs the segment that resumes job [jobId] and records where it stops
    next. *)
Definition resume (jobId : nat) (m : M (option Suspended)) (w : World)
  : World * list Entry :=
  let '(t, c, l) := m (conn w) in
  ({| conn := c; pending := settle jobId t (pending w) |}, l).

Definition handler (m : M unit) (w : World) : World * list Entry :=
  let '(_, c, l) := m (conn w) in
  ({| conn := c; pending := pending w |}, l).

Definition unguard (t : Suspended) : Suspended :=
  match t with
  | InGeneration is_modify => InGeneration is_modify
  | InRepair _ is_modify attempt current =>
      InRepair false is_modify attempt current
  | InSleep _ is_modify attempt current =>
      InSleep false is_modify attempt current
  end.

Definition step (h : Happening) (w : World) : World * list Entry :=
  match h with
  | Receives msg now =>
      let '(started, c, l) := onMessage msg now (conn w) in
      ({| conn := c;
          pending := match started with
                     | Some (jobId, t) => settle jobId (Some t) (pending w)
                     | None => pending w
                     end |}, l)
  | Closes => handler onClose w
  | Fails => handler onError w
  | Beats => handler onHeartbeat w
  | Settles jobId a =>
      match lookup jobId (pending w) with
      | Some (InGeneration is_modify) =>
          resume jobId (afterGeneration is_modify jobId (guardedCall a)) w
      | Some (InRepair guarded is_modify attempt current) =>
          resume jobId
            (resumeRepair guarded is_modify jobId attempt current
                          (guardedCall a)) w
      | _ => (w, [])
      end
  | Wakes jobId =>
      match lookup jobId (pending w) with
      | Some (InSleep guarded is_modify attempt current) =>
          resume jobId
            (continueLoop guarded is_modify jobId (S attempt) current) w
      | _ => (w, [])
      end
  | GuardElapses jobId =>
      match lookup jobId (pending w) with
      | Some (InRepair true is_modify attempt current as t)
      | Some (InSleep true is_modify attempt current as t) =>
          resume jobId (guardRejects jobId ;; ret (Some (unguard t))) w
      | _ => (w, [])
      end
  end.

Fixpoint run (hs : list Happening) (w : World) : World * list Entry :=
  match hs with
  | [] => (w, [])
  | h :: hs' =>
      let '(w1, l1) := step h w in
      let '(w2, l2) := run hs' w1 in
      (w2, l1 ++ l2)
  end.

(** Line 359 and the interval of line 362, on an open socket. *)
Definition connection : World :=
  {| conn := {| state := {| busy := false; canceled := false;
                            jobName := idle; lastJobId := 0;
                            heartbeat := true |};
                readyState := OPEN |};
     pending := [] |}.

End Server.

(** *** Reading a log *)

(** The payloads sent for job [jobId], in order. *)
Fixpoint eventsOf (jobId : nat) (l : list Entry) : list ServerEvent :=
  match l with
  | [] => []
  | Sent (Job id) payload :: l' =>
      if id =? jobId then payload :: eventsOf jobId l' else eventsOf jobId l'
  | _ :: l' => eventsOf jobId l'
  end.

(** Everything written to the socket, in order. *)
Fixpoint wire (l : list Entry) : list ServerEvent :=
  match l with
  | [] => []
  | Sent _ payload :: l' => payload :: wire l'
  | _ :: l' => wire l'
  end.

Fixpoint callsOf (jobId : nat) (l : list Entry) : list Call :=
  match l with
  | [] => []
  | Called id c :: l' =>
      if id =? jobId then c :: callsOf jobId l' else callsOf jobId l'
  | _ :: l' => callsOf jobId l'
  end.

Definition isDone (e : ServerEvent) : bool :=
  match e with EvDone _ => true | _ => false end.

Definition isRepairCall (c : Call) : bool :=
  match c with CallRepair _ _ => true | _ => false end.

Definition isResult (e : ServerEvent) : bool :=
  match e with EvResult _ _ => true | _ => false end.

Definition isResultPartial (e : ServerEvent) : bool :=
  match e with EvResultPartial _ _ _ => true | _ => false end.

(* ================================================================== *)
(** ** Vocabulary of the statements *)
(* ================================================================== *)

(** [text] holds a first ['{'] and, further on, a last ['}']: [pre] is
    what precedes the first, [post] what follows the last. *)
Definition braced (text pre mid post : jsstring) : Prop :=
  text = pre ++ Mythographer.openBrace :: mid
             ++ Mythographer.closeBrace :: post
  /\ ~ In Mythographer.openBrace pre
  /\ ~ In Mythographer.closeBrace post.

(** Is this entry a staleness check of job [j] that saw [canceled] set? *)
Definition cancelSeen (j : nat) (e : Entry) : bool :=
  match e with
  | Checked id true _ => id =? j
  | _ => false
  end.

Definition hasCancelSeen (j : nat) (d : list Entry) : bool :=
  existsb (cancelSeen j) d.

(** What may follow such a check: the terminal [done] with [ok] false,
    and, unless [strict], nothing at all. *)
Definition onlyDoneFalse (strict : bool) (evs : list ServerEvent) : bool :=
  match evs with
  | [] => negb strict
  | [EvDone false] => true
  | _ => false
  end.

Fixpoint quietAfter (j : nat) (strict : bool) (d : list Entry) : bool :=
  match d with
  | [] => true
  | e :: d' =>
      (if cancelSeen j e then onlyDoneFalse strict (eventsOf j d') else true)
      && quietAfter j strict d'
  end.

Definition isGuarded (t : Suspended) : bool :=
  match t with
  | InGeneration _ => true
  | InRepair guarded _ _ _ => guarded
  | InSleep guarded _ _ _ => guarded
  end.

(** The stage sequence of section 4.3/4.4, read as generously as it can
    be: statuses in the order received, translating or modifying,
    validating, then repair and validating alternately; after any of them
    at most one of result, result_partial, error; then one [done], and
    nothing after it. *)
Inductive Phase : Type :=
| AtStart | AfterReceived | AfterWork | AfterValidating | AfterRepair.

Definition nextPhase (p : Phase) (s : stageName) : option Phase :=
  match p, s with
  | AtStart, received => Some AfterReceived
  | AfterReceived, translating => Some AfterWork
  | AfterReceived, modifying => Some AfterWork
  | AfterWork, validating => Some AfterValidating
  | AfterValidating, repair => Some AfterRepair
  | AfterRepair, validating => Some AfterValidating
  | _, _ => None
  end.

Definition endsInOneDone (l : list ServerEvent) : bool :=
  match l with
  | [EvDone _] => true
  | _ => false
  end.

Fixpoint canonicalFrom (p : Phase) (l : list ServerEvent) : bool :=
  match l with
  | [] => false
  | EvStatus s _ _ :: l' =>
      match nextPhase p s with
      | Some p' => canonicalFrom p' l'
      | None => false
      end
  | EvResult _ _ :: l' => endsInOneDone l'
  | EvResultPartial _ _ _ :: l' => endsInOneDone l'
  | EvError _ :: l' => endsInOneDone l'
  | EvDone _ :: l' => match l' with [] => true | _ => false end
  | EvPong _ :: _ => false
  end.

Definition canonical (l : list ServerEvent) : bool := canonicalFrom AtStart l.

(** *** Invariants of the event loop *)

(** What every segment run for job [k] guarantees; [g] tells whether the
    job still awaits the loop. *)
Definition segmentOk (k : nat) (g : bool) (c : Conn)
    (r : option Suspended * Conn * list Entry) : Prop :=
  lastJobId (state (snd (fst r))) = lastJobId (state c)
  /\ readyState (snd (fst r)) = readyState c
  /\ (forall j, j <> k -> eventsOf j (snd r) = [])
  /\ (forall j, hasCancelSeen j (snd r) = true ->
                j = k /\ fst (fst r) = None)
  /\ (forall j, quietAfter j false (snd r) = true)
  /\ (g = true -> isOpen (readyState c) = true ->
      forall j, quietAfter j true (snd r) = true)
  /\ (forall t, fst (fst r) = Some t -> isGuarded t = g).

(** Every suspended activation belongs to a job that was started. *)
Definition wf (w : World) : Prop :=
  forall id t,
    lookup id (pending w) = Some t -> id <= lastJobId (state (conn w)).

(** Job [j], if suspended, is still awaited by its [runJob]. *)
Definition guardedAt (j : nat) (w : World) : Prop :=
  forall t, lookup j (pending w) = Some t -> isGuarded t = true.

(** The socket is not closed while the loop is suspended. *)
Definition staysOpen (env : nat -> Suspension) : Prop :=
  forall n c,
    isOpen (readyState c) = true ->
    isOpen (readyState (whileRepairing (env n) c)) = true
    /\ isOpen (readyState (whileSleeping (env n) c)) = true.

Definition sessionOnly (l : list Entry) : bool :=
  forallb (fun e => match e with Sent Session _ => true | _ => false end) l.

(** What one step of the event loop guarantees. *)
Definition stepFacts (w : World) (r : World * list Entry) : Prop :=
  wf (fst r)
  /\ lastJobId (state (conn w)) <= lastJobId (state (conn (fst r)))
  /\ (forall j,
         lookup j (pending w) = None ->
         j <= lastJobId (state (conn w)) ->
         lookup j (pending (fst r)) = None /\ eventsOf j (snd r) = [])
  /\ (forall j,
         hasCancelSeen j (snd r) = true ->
         lookup j (pending (fst r)) = None
         /\ j <= lastJobId (state (conn (fst r))))
  /\ (forall j, quietAfter j false (snd r) = true)
  /\ (forall j,
         isOpen (readyState (conn w)) = true ->
         guardedAt j w ->
         quietAfter j true (snd r) = true).

(* ================================================================== *)
(** ** Concrete collaborators and connections for closed examples *)
(* ================================================================== *)

Module Fixture.

(** A parser that knows one text. *)
Definition parse (s : jsstring) : Parse :=
  if jsstring_eqb s (js "{}") then Parsed (JObject [])
  else SyntaxError (js "Unexpected token").

Definition keep (j : json) : json := j.

Definition accept (j : json) : Result json := Success j.

Definition reject (j : json) : Result json := Error (js "missing goal").

(** A connection with job 1 accepted and authoritative. *)
Definition serving : Conn :=
  {| state := {| busy := true; canceled := false; jobName := translating;
                 lastJobId := 1; heartbeat := true |};
     readyState := OPEN |}.

Definition quiet (response : Settled (Result jsstring)) : Suspension :=
  {| whileRepairing := fun s => s;
     repairSettles := Operation response;
     whileSleeping := fun s => s |}.

(** The world right after a first prompt was accepted. *)
Definition translatingWorld : World :=
  {| conn := serving; pending := [(1, InGeneration false)] |}.

(** A run in which the client cancels while the first repair call is
    pending (the validator being [reject]). *)
Definition canceledRun : list Happening :=
  [Receives (Prompt (Some (js "a foggy coastal island"))) 0;
   Settles 1 (Operation (Returned (Success (js "{}"))));
   Receives Cancel 5;
   Settles 1 (Operation (Returned (Success (js "{}"))));
   Wakes 1].

End Fixture.

(* ================================================================== *)
(** ** Vocabulary of the further properties *)
(* ================================================================== *)

Definition allWhite (s : jsstring) : bool := forallb isWhiteSpace s.

(** The message that starts a job of the given kind. *)
Definition requestOf (k : JobKind) (p : option jsstring) : Inbound :=
  match k with
  | Translation => Prompt p
  | Modification previousJson => Modify p (Some previousJson)
  end.

Definition isError (e : ServerEvent) : bool :=
  match e with EvError _ => true | _ => false end.

(** What the loop sends when it gives up. *)
Definition isTerminal (e : ServerEvent) : bool :=
  isResultPartial e || isError e.

(** The number of [done] events sent for job [j]. *)
Definition dones (j : nat) (l : list Entry) : nat :=
  List.length (filter isDone (eventsOf j l)).

(** Job [j] has its [done] still to come: it is not started yet, or it is
    suspended and its [runJob] awaits it. *)
Definition awaited (j : nat) (w : World) : bool :=
  (lastJobId (state (conn w)) <? j)
  || match lookup j (pending w) with
     | Some t => isGuarded t
     | None => false
     end.

(** Every [result] of the list is followed by [done] with [ok] true and by
    nothing else. *)
Fixpoint resultThenDone (evs : list ServerEvent) : bool :=
  match evs with
  | [] => true
  | e :: evs' =>
      (if isResult e
       then match evs' with [EvDone true] => true | _ => false end
       else true)
      && resultThenDone evs'
  end.

(** One job in flight: an activation awaited by its [runJob] belongs to
    the job [lastJobId] and goes with [busy]; [busy] goes with such an
    activation. *)
Definition singleFlight (w : World) : Prop :=
  (forall id t,
      lookup id (pending w) = Some t ->
      isGuarded t = true ->
      id = lastJobId (state (conn w)) /\ busy (state (conn w)) = true)
  /\ (busy (state (conn w)) = true ->
      exists t,
        lookup (lastJobId (state (conn w))) (pending w) = Some t
        /\ isGuarded t = true).

(** What a handler that starts no job does to the connection. *)
Definition handlerFacts (c c' : Conn) (d : list Entry) : Prop :=
  busy (state c') = busy (state c)
  /\ lastJobId (state c') = lastJobId (state c)
  /\ (canceled (state c) = true -> canceled (state c') = true)
  /\ (isOpen (readyState c') = true -> isOpen (readyState c) = true)
  /\ (heartbeat (state c) = false -> heartbeat (state c') = false)
  /\ sessionOnly d = true
  /\ (isOpen (readyState c) = false -> d = []).

(** Further guarantees of a segment run for job [k] ([g] as in
    [segmentOk]). *)
Definition segmentMore (validate : json -> Result json) (k : nat)
    (g : bool) (c : Conn) (r : option Suspended * Conn * list Entry)
  : Prop :=
  canceled (state (snd (fst r))) = canceled (state c)
  /\ heartbeat (state (snd (fst r))) = heartbeat (state c)
  /\ (g = false -> busy (state (snd (fst r))) = busy (state c))
  /\ (forall t, fst (fst r) = Some t ->
                busy (state (snd (fst r))) = true
                \/ busy (state (snd (fst r))) = busy (state c))
  /\ (g = true -> fst (fst r) = None -> busy (state (snd (fst r))) = false)
  /\ (isOpen (readyState c) = false -> wire (snd r) = [])
  /\ dones k (snd r) <= 2
  /\ (g = false -> dones k (snd r) = 0)
  /\ (0 < dones k (snd r) -> fst (fst r) = None)
  /\ (g = true -> isOpen (readyState c) = true -> fst (fst r) = None ->
      1 <= dones k (snd r))
  /\ resultThenDone (eventsOf k (snd r)) = true
  /\ (forall data m,
         In (EvResult data m) (eventsOf k (snd r)) ->
         succeeded (validate data) = true /\ fst (fst r) = None).

(** [!previousJson] of line 430: the field is absent or falsy. *)
Definition noOriginal (original : option json) : bool :=
  match original with
  | Some previousJson => negb (toBoolean previousJson)
  | None => true
  end.

(** Can a job of this kind be started?  A modify message whose
    [originalJson] is falsy is turned away by the handler. *)
Definition startable (k : JobKind) : bool :=
  match k with
  | Translation => true
  | Modification previousJson => toBoolean previousJson
  end.

(** A validator that rejects the empty object only. *)
Definition rejectEmpty (j : json) : Result json :=
  match j with
  | JObject [] => Error (js "missing goal")
  | _ => Success j
  end.

(** A validator that accepts the empty object only. *)
Definition acceptEmpty (j : json) : Result json :=
  match j with
  | JObject [] => Success j
  | _ => Error (js "missing goal")
  end.

(** An idle, open connection on which a job was canceled earlier. *)
Definition canceledBefore : World :=
  {| conn := {| state := {| busy := false; canceled := true;
                            jobName := idle; lastJobId := 1;
                            heartbeat := true |};
                readyState := OPEN |};
     pending := [] |}.

(** A first prompt and the completion that answers it. *)
Definition servedRun : list Happening :=
  [Receives (Prompt (Some (js "a foggy coastal island"))) 0;
   Settles 1 (Operation (Returned (Success (js "{}"))))].

(* ================================================================== *)
(** ** mythographer.ts: stripNulls (lines 220-243) *)
(* ================================================================== *)

(** [stripNulls] changes its argument in place.  On what [JSON.parse]
    builds no value is reachable twice, so the walk is given as the value
    the argument has become when the call returns.  The translator built
    by [createMythographer] has the flag clear; the function is the one a
    caller gets who sets [translator.stripNulls]. *)
Module StripNulls.

(** The values [stripNulls] walks: what [JSON.parse] builds, and arrays
    with holes, which [delete] on an index leaves behind. *)
#[warnings="-register-all"] Inductive value : Type :=
| VNull
| VBool (b : bool)
| VNumber (literal : jsstring)
| VString (s : jsstring)
| VArray (slots : list (option value))
| VObject (members : list (jsstring * value)).

(** [x === null] on the slot of an array; [some] and [filter] do not
    visit a hole. *)
Definition slotIsNull (slot : option value) : bool :=
  match slot with Some VNull => true | _ => false end.

Section Walk.

(** The recursive call [stripNulls(value)], which works in place. *)
Variable inPlace : value -> value.

(** [value.filter(x => x !== null)], line 230: a new array of the
    elements that are not null.  The elements are shared with the old
    array [value], and line 234 calls [stripNulls] on that old array:
    each element is stripped in place, while what the call assigns or
    deletes at the indices of the old array does not reach the copy. *)
Fixpoint filtered (slots : list (option value)) : list (option value) :=
  match slots with
  | [] => []
  | None :: rest => filtered rest
  | Some VNull :: rest => filtered rest
  | Some x :: rest => Some (inPlace x) :: filtered rest
  end.

(** Lines 227-236: what [obj[k]] holds afterwards, for a [value] that
    is not null. *)
Definition kept (v : value) : value :=
  match v with
  | VArray slots =>
      if existsb slotIsNull slots then VArray (filtered slots)
      else inPlace v
  | VObject _ => inPlace v
  | _ => v
  end.

(** The loop of lines 222-237 and the deletions of lines 238-242 on an
    object: a property whose value is null is removed. *)
Fixpoint ownProperties (members : list (jsstring * value))
  : list (jsstring * value) :=
  match members with
  | [] => []
  | (k, VNull) :: rest => ownProperties rest
  | (k, v) :: rest => (k, kept v) :: ownProperties rest
  end.

(** The same on an array: [for ... in] visits the indices that are not
    holes, and [delete] of an index leaves a hole. *)
Fixpoint indices (slots : list (option value)) : list (option value) :=
  match slots with
  | [] => []
  | None :: rest => None :: indices rest
  | Some VNull :: rest => None :: indices rest
  | Some v :: rest => Some (kept v) :: indices rest
  end.

End Walk.

(** Lines 220-243.  On anything but an object or an array the loop has
    nothing to visit that is null or an object. *)
Fixpoint stripNulls (obj : value) : value :=
  match obj with
  | VObject members => VObject (ownProperties stripNulls members)
  | VArray slots => VArray (indices stripNulls slots)
  | _ => obj
  end.

(** What [JSON.parse] hands over: no array has a hole. *)
Fixpoint ofJson (j : json) : value :=
  match j with
  | JNull => VNull
  | JBool b => VBool b
  | JNumber literal => VNumber literal
  | JString s => VString s
  | JArray items => VArray (map (fun x => Some (ofJson x)) items)
  | JObject members => VObject (map (fun m => (fst m, ofJson (snd m))) members)
  end.

(** No null at any depth; a hole is not a null. *)
Fixpoint nullFree (v : value) : bool :=
  match v with
  | VNull => false
  | VArray slots =>
      forallb (fun slot => match slot with
                           | Some x => nullFree x
                           | None => true
                           end) slots
  | VObject members => forallb (fun m => nullFree (snd m)) members
  | _ => true
  end.

(** No hole at any depth. *)
Fixpoint dense (v : value) : bool :=
  match v with
  | VArray slots =>
      forallb (fun slot => match slot with
                           | Some x => dense x
                           | None => false
                           end) slots
  | VObject members => forallb (fun m => dense (snd m)) members
  | _ => true
  end.

(** The slots [filter] copies. *)
Definition copied (slot : option value) : bool :=
  match slot with
  | None => false
  | Some VNull => false
  | Some _ => true
  end.

End StripNulls.

(* ================================================================== *)
(** ** Facts about the string primitives *)
(* ================================================================== *)

Example trim_blank : trim [32; 9; 10; 160; 8232; 65279]%N = [].
Proof. reflexivity. Qed.

Example trim_keeps_inner : trim (js "  a foggy  island ") = js "a foggy  island".
Proof. reflexivity. Qed.

Example indices_of_braces :
  indexOf Mythographer.openBrace (js "ok: {a{b}c} end") = 4%Z
  /\ lastIndexOf Mythographer.closeBrace (js "ok: {a{b}c} end") = 10%Z
  /\ indexOf Mythographer.openBrace (js "none") = (-1)%Z
  /\ slice (js "ok: {a{b}c} end") 4 11 = js "{a{b}c}".
Proof. repeat split; reflexivity. Qed.

Example ofNat_decimal : ofNat 3 = js "3" /\ ofNat 120 = js "120".
Proof. split; reflexivity. Qed.

Example zero_literals :
  numberIsZero (js "0") = true
  /\ numberIsZero (js "-0.00e7") = true
  /\ numberIsZero (js "2e-324") = true
  /\ numberIsZero (js "3e-324") = false
  /\ numberIsZero (js "2.4703282292062327e-324") = true
  /\ numberIsZero (js "2.4703282292062328e-324") = false
  /\ numberIsZero (js "0.1") = false
  /\ numberIsZero (js "12E+400") = false.
Proof. repeat split; vm_compute; reflexivity. Qed.

Example falsy_values :
  map toBoolean [JNull; JBool false; JNumber (js "0"); JString [];
                 JString (js "0"); JArray []; JObject []]
  = [false; false; false; false; true; true; true].
Proof. vm_compute. reflexivity. Qed.

Lemma indexOf_missing (c : N) (s : jsstring) :
  ~ In c s -> indexOf c s = (-1)%Z.
Proof.
  induction s as [|d s IH]; simpl; intros H; [reflexivity|].
  destruct (N.eqb_spec d c) as [->|_]; [tauto|].
  rewrite IH by tauto. reflexivity.
Qed.

Lemma lastIndexOf_missing (c : N) (s : jsstring) :
  ~ In c s -> lastIndexOf c s = (-1)%Z.
Proof.
  induction s as [|d s IH]; simpl; intros H; [reflexivity|].
  rewrite IH by tauto.
  destruct (N.eqb_spec d c) as [->|_]; tauto.
Qed.

Lemma indexOf_found (c : N) (pre post : jsstring) :
  ~ In c pre -> indexOf c (pre ++ c :: post) = Z.of_nat (List.length pre).
Proof.
  induction pre as [|d pre IH]; simpl; intros H.
  - now rewrite N.eqb_refl.
  - destruct (N.eqb_spec d c) as [->|_]; [tauto|].
    rewrite IH by tauto.
    destruct (Z.of_nat (List.length pre)) eqn:E; lia.
Qed.

Lemma lastIndexOf_found (c : N) (pre post : jsstring) :
  ~ In c post ->
  lastIndexOf c (pre ++ c :: post) = Z.of_nat (List.length pre).
Proof.
  intros H. induction pre as [|d pre IH]; simpl.
  - rewrite (lastIndexOf_missing _ _ H). now rewrite N.eqb_refl.
  - rewrite IH. destruct (Z.of_nat (List.length pre)) eqn:E; lia.
Qed.

Lemma first_occurrence (c : N) (s : jsstring) :
  In c s -> exists pre post, s = pre ++ c :: post /\ ~ In c pre.
Proof.
  induction s as [|d s IH]; simpl; [tauto|]. intros H.
  destruct (N.eq_dec d c) as [->|Hd].
  - exists [], s. simpl. tauto.
  - destruct IH as (pre & post & -> & Hpre); [tauto|].
    exists (d :: pre), post. simpl. split; [reflexivity|]. tauto.
Qed.

Lemma last_occurrence (c : N) (s : jsstring) :
  In c s -> exists pre post, s = pre ++ c :: post /\ ~ In c post.
Proof.
  induction s as [|d s IH]; simpl; [tauto|]. intros H.
  destruct (in_dec N.eq_dec c s) as [Hs|Hs].
  - destruct (IH Hs) as (pre & post & -> & Hpost).
    exists (d :: pre), post. simpl. tauto.
  - destruct H as [->|H]; [|tauto].
    exists [], s. simpl. tauto.
Qed.

Lemma slice_middle (pre mid post : jsstring) :
  slice (pre ++ mid ++ post) (Z.of_nat (List.length pre))
        (Z.of_nat (List.length pre + List.length mid)) = mid.
Proof.
  unfold slice, relativeIndex.
  rewrite !length_app.
  destruct (Z.ltb_spec (Z.of_nat (List.length pre)) 0); [lia|].
  destruct (Z.ltb_spec (Z.of_nat (List.length pre + List.length mid)) 0);
    [lia|].
  rewrite !Z.min_l by lia.
  replace (Z.to_nat (Z.of_nat (List.length pre + List.length mid)
                     - Z.of_nat (List.length pre)))
    with (List.length mid) by lia.
  rewrite Nat2Z.id.
  rewrite skipn_app, skipn_all, Nat.sub_diag. simpl.
  rewrite firstn_app, firstn_all, Nat.sub_diag. simpl.
  now rewrite app_nil_r.
Qed.

Lemma braced_indices (text pre mid post : jsstring) :
  braced text pre mid post ->
  indexOf Mythographer.openBrace text = Z.of_nat (List.length pre)
  /\ lastIndexOf Mythographer.closeBrace text
     = Z.of_nat (List.length pre + 1 + List.length mid)
  /\ slice text (indexOf Mythographer.openBrace text)
           (lastIndexOf Mythographer.closeBrace text + 1)
     = Mythographer.openBrace :: mid ++ [Mythographer.closeBrace].
Proof.
  intros (-> & Hpre & Hpost).
  assert (H1 : indexOf Mythographer.openBrace
                 (pre ++ Mythographer.openBrace :: mid
                      ++ Mythographer.closeBrace :: post)
               = Z.of_nat (List.length pre))
    by now apply indexOf_found.
  assert (H2 : lastIndexOf Mythographer.closeBrace
                 (pre ++ Mythographer.openBrace :: mid
                      ++ Mythographer.closeBrace :: post)
               = Z.of_nat (List.length pre + 1 + List.length mid)).
  { replace (pre ++ Mythographer.openBrace :: mid
                 ++ Mythographer.closeBrace :: post)
      with ((pre ++ Mythographer.openBrace :: mid)
              ++ Mythographer.closeBrace :: post)
      by now rewrite <- app_assoc.
    rewrite lastIndexOf_found by assumption.
    rewrite length_app. simpl. f_equal. lia. }
  rewrite H1, H2. repeat split.
  replace (Z.of_nat (List.length pre + 1 + List.length mid) + 1)%Z
    with (Z.of_nat (List.length pre
                    + List.length (Mythographer.openBrace :: mid
                                     ++ [Mythographer.closeBrace])))
    by (simpl; rewrite length_app; simpl; lia).
  replace (pre ++ Mythographer.openBrace :: mid
               ++ Mythographer.closeBrace :: post)
    with (pre ++ (Mythographer.openBrace :: mid
                    ++ [Mythographer.closeBrace]) ++ post)
    by (simpl; now rewrite <- app_assoc).
  apply slice_middle.
Qed.

Lemma indices_braced (text : jsstring) :
  (0 <= indexOf Mythographer.openBrace text)%Z ->
  (indexOf Mythographer.openBrace text
   < lastIndexOf Mythographer.closeBrace text)%Z ->
  exists pre mid post, braced text pre mid post.
Proof.
  intros H0 H1.
  destruct (in_dec N.eq_dec Mythographer.openBrace text) as [Ho|Ho];
    [|rewrite indexOf_missing in H0 by assumption; lia].
  destruct (in_dec N.eq_dec Mythographer.closeBrace text) as [Hc|Hc];
    [|rewrite (lastIndexOf_missing _ _ Hc) in H1; lia].
  destruct (first_occurrence _ _ Ho) as (pre & rest & E1 & Hpre).
  destruct (last_occurrence _ _ Hc) as (pre2 & post & E2 & Hpost).
  assert (I1 := indexOf_found Mythographer.openBrace pre rest Hpre).
  assert (I2 := lastIndexOf_found Mythographer.closeBrace pre2 post Hpost).
  rewrite <- E1 in I1. rewrite <- E2 in I2. rewrite I1, I2 in H1.
  assert (E : pre ++ Mythographer.openBrace :: rest
              = pre2 ++ Mythographer.closeBrace :: post) by congruence.
  apply app_eq_app in E. destruct E as (l & [[-> E]|[-> E]]).
  - rewrite length_app in H1. lia.
  - destruct l as [|x mid].
    + rewrite length_app in H1. simpl in H1. lia.
    + simpl in E. injection E as <- ->.
      exists pre, mid, post. split; [|tauto].
      rewrite E2. now rewrite <- app_assoc.
Qed.

(* ================================================================== *)
(** ** The translator on a model response *)
(* ================================================================== *)

(** C10.  On a completion that carries a response text, [translate],
    [modify] and [repair] of the translator built by [createMythographer]
    all return (they do not throw) the same [Result].  It is an error with
    a message when the text has no first ['{'] followed by a later last
    ['}'], or when the text from that ['{'] through that ['}'] does not
    parse; otherwise it is a success whose data is exactly the value
    [JSON.parse] gives for the text from the first ['{'] through the last
    ['}']. *)
Theorem translator_total_on_response
    (JSON_parse : jsstring -> Parse) (stripNullsOf : json -> json)
    (responseText : jsstring) :
  let t := Mythographer.createMythographer in
  let response := Returned (Success responseText) in
  exists r : Result json,
    Mythographer.translate JSON_parse stripNullsOf t response = Returned r
    /\ Mythographer.modify JSON_parse stripNullsOf t response = Returned r
    /\ Mythographer.repair JSON_parse stripNullsOf t response = Returned r
    /\ ((exists message, r = Error message
         /\ ((forall pre mid post, ~ braced responseText pre mid post)
             \/ exists pre mid post,
                 braced responseText pre mid post
                 /\ forall value,
                     JSON_parse (Mythographer.openBrace :: mid
                                   ++ [Mythographer.closeBrace])
                     <> Parsed value))
        \/ (exists data pre mid post,
              r = Success data
              /\ braced responseText pre mid post
              /\ JSON_parse (Mythographer.openBrace :: mid
                               ++ [Mythographer.closeBrace])
                 = Parsed data)).
Proof.
  intros t response.
  exists (Mythographer.parse_json_response JSON_parse stripNullsOf t
            responseText).
  repeat (split; [reflexivity|]).
  unfold Mythographer.parse_json_response.
  destruct ((indexOf Mythographer.openBrace responseText >=? 0)%Z
            && (lastIndexOf Mythographer.closeBrace responseText
                >? indexOf Mythographer.openBrace responseText)%Z) eqn:C;
    simpl.
  - apply andb_prop in C. destruct C as [C1 C2].
    apply Z.geb_le in C1. apply Z.gtb_lt in C2.
    destruct (indices_braced responseText C1 C2) as (pre & mid & post & B).
    destruct (braced_indices B) as (_ & _ & ->).
    destruct (JSON_parse (Mythographer.openBrace :: mid
                            ++ [Mythographer.closeBrace])) eqn:P.
    + right. exists value, pre, mid, post. auto.
    + left. eexists. split; [reflexivity|]. right.
      exists pre, mid, post. split; [assumption|]. congruence.
    + left. eexists. split; [reflexivity|]. right.
      exists pre, mid, post. split; [assumption|]. congruence.
  - left. eexists. split; [reflexivity|]. left.
    intros pre mid post B.
    destruct (braced_indices B) as (I1 & I2 & _).
    rewrite I1, I2 in C.
    apply andb_false_iff in C. destruct C as [C|C].
    + rewrite Z.geb_leb in C. apply Z.leb_gt in C. lia.
    + rewrite Z.gtb_ltb in C. apply Z.ltb_ge in C. lia.
Qed.

(* ================================================================== *)
(** ** The message handler *)
(* ================================================================== *)

Section Handler.

Variable JSON_parse : jsstring -> Parse.
Variable stripNullsOf : json -> json.
Variable validate : json -> Result json.

Lemma send_open (from : Origin) (payload : ServerEvent) (c : Conn) :
  isOpen (readyState c) = true ->
  send from payload c = (tt, c, [Sent from payload]).
Proof. unfold send. now intros ->. Qed.

Lemma world_eta (w : World) :
  {| conn := conn w; pending := pending w |} = w.
Proof. now destruct w. Qed.

(** C9.  A prompt message whose prompt is absent or trims to the empty
    string gets, on an open socket, an error event and then [done] with
    [ok] false; the connection state, [lastJobId] included, and the set of
    running jobs are left as they were. *)
Theorem blank_prompt_rejected (w : World) (p : option jsstring) (now : N) :
  promptOf p = [] ->
  isOpen (readyState (conn w)) = true ->
  step JSON_parse stripNullsOf validate (Receives (Prompt p) now) w
  = (w, [Sent Session (EvError (js "Missing 'prompt'."));
         Sent Session (EvDone false)]).
Proof.
  intros Hp Ho. unfold step, onMessage. rewrite Hp. simpl.
  unfold bind. rewrite !send_open by assumption. simpl.
  now rewrite world_eta.
Qed.

(** C8, as the code has it.  A prompt or modify message whose prompt is
    not empty after trimming, received on an open socket while [busy] is
    set, gets exactly one error event; the connection state ([lastJobId],
    [busy], [canceled], the stage) and the set of running jobs are left as
    they were. *)
Theorem busy_rejects_new_job (w : World) (msg : Inbound)
    (p : option jsstring) (now : N) :
  (msg = Prompt p \/ exists original, msg = Modify p original) ->
  promptOf p <> [] ->
  busy (state (conn w)) = true ->
  isOpen (readyState (conn w)) = true ->
  step JSON_parse stripNullsOf validate (Receives msg now) w
  = (w, [Sent Session
           (EvError (js "Job already in progress on this connection."))]).
Proof.
  intros Hm Hp Hb Ho.
  assert (E : isEmpty (promptOf p) = false)
    by (destruct (promptOf p); [congruence|reflexivity]).
  destruct Hm as [->|[original ->]]; unfold step, onMessage; rewrite E;
    unfold bind, read; rewrite Hb; rewrite send_open by assumption; simpl;
    now rewrite world_eta.
Qed.

End Handler.

(** C9 at a prompt made of a space, a tab and a line feed. *)
Lemma blank_prompt_rejected_witness :
  step Fixture.parse Fixture.keep Fixture.accept
       (Receives (Prompt (Some [32; 9; 10]%N)) 0) connection
  = (connection, [Sent Session (EvError (js "Missing 'prompt'."));
                  Sent Session (EvDone false)]).
Proof.
  apply (blank_prompt_rejected Fixture.parse Fixture.keep Fixture.accept
           connection (Some [32; 9; 10]%N) 0); reflexivity.
Defined.

(** C8 as the code has it, at a second prompt during the first job. *)
Lemma busy_rejects_new_job_witness :
  step Fixture.parse Fixture.keep Fixture.accept
       (Receives (Prompt (Some (js "a second island"))) 0)
       Fixture.translatingWorld
  = (Fixture.translatingWorld,
     [Sent Session
        (EvError (js "Job already in progress on this connection."))]).
Proof.
  apply (busy_rejects_new_job Fixture.parse Fixture.keep Fixture.accept
           Fixture.translatingWorld (p := Some (js "a second island")) 0).
  - left. reflexivity.
  - discriminate.
  - reflexivity.
  - reflexivity.
Defined.

(** C8 as stated fails: while [busy], a prompt message with an empty
    prompt gets two events, the error and a [done]. *)
Lemma busy_blank_prompt_two_events :
  ~ (forall (w : World) (p : option jsstring) (now : N),
       busy (state (conn w)) = true ->
       isOpen (readyState (conn w)) = true ->
       exists message,
         snd (step Fixture.parse Fixture.keep Fixture.accept
                   (Receives (Prompt p) now) w)
         = [Sent Session (EvError message)]).
Proof.
  intros H.
  destruct (H Fixture.translatingWorld (Some []) 0%N eq_refl eq_refl)
    as [message E].
  discriminate E.
Qed.

(** The fixture world is the one the code reaches on a first prompt. *)
Example translatingWorld_reached :
  fst (run Fixture.parse Fixture.keep Fixture.accept
           [Receives (Prompt (Some (js "a foggy coastal island"))) 0]
           connection)
  = Fixture.translatingWorld.
Proof. reflexivity. Qed.

(* ================================================================== *)
(** ** The validate-repair engine *)
(* ================================================================== *)

Section Engine.

Variable JSON_parse : jsstring -> Parse.
Variable stripNullsOf : json -> json.
Variable validate : json -> Result json.

Lemma stale_true_iff (s : SocketState) (id : nat) :
  stale s id = true <-> (canceled s = true \/ id <> lastJobId s).
Proof.
  unfold stale. rewrite orb_true_iff, negb_true_iff, Nat.eqb_neq. tauto.
Qed.

Lemma stale_false_iff (s : SocketState) (id : nat) :
  stale s id = false <-> (id = lastJobId s /\ canceled s = false).
Proof.
  unfold stale. rewrite orb_false_iff, negb_false_iff, Nat.eqb_eq. tauto.
Qed.

(** C7.  The checker answers stale exactly when [canceled] is set or the
    captured id differs from [lastJobId], so a job is authoritative exactly
    when its id is [lastJobId] and [canceled] is clear.  When the job is
    stale at the top of an attempt, the loop returns the stale failure at
    once: the connection is untouched and the only trace is the check
    itself, so nothing is sent, nothing is validated and no repair is
    called. *)
Theorem stale_attempt_aborts (c : Conn) (jobId attempt : nat)
    (rest : list nat) (current : json) (is_modify : bool)
    (env : nat -> Suspension) :
  stale (state c) jobId = true ->
  (forall s id,
      stale s id = true <-> (canceled s = true \/ id <> lastJobId s))
  /\ (forall s id,
         stale s id = false <-> (id = lastJobId s /\ canceled s = false))
  /\ attempts JSON_parse stripNullsOf validate
       (attempt :: rest) jobId current is_modify env c
     = (Error staleMessage, c,
        [Checked jobId (canceled (state c)) (lastJobId (state c))]).
Proof.
  intros H. split; [exact stale_true_iff|]. split; [exact stale_false_iff|].
  simpl. unfold loopBody, bind, isStale. rewrite H. reflexivity.
Qed.

(** The log of one pass through the loop body on an open socket, for a
    job that is authoritative at the check. *)
Lemma loopBody_fresh (c : Conn) (jobId attempt : nat) (current : json)
    (is_modify : bool) :
  isOpen (readyState c) = true ->
  stale (state c) jobId = false ->
  loopBody validate jobId attempt current is_modify c
  = let checked := Checked jobId (canceled (state c)) (lastJobId (state c)) in
    let status :=
      Sent (Job jobId) (EvStatus validating (validatingMessage attempt) None) in
    let validated := Called jobId (CallValidate current) in
    let c1 := withState (setJobName validating) c in
    match validate current with
    | Success _ =>
        (Returns (Success current), c1, [checked; status; validated])
    | Error message =>
        if attempt =? maxAttempts then
          (Returns (Error exitedMessage), c1,
           [checked; status; validated;
            Sent (Job jobId)
                 (EvResultPartial current (exhaustedMessage message)
                                  (Some is_modify))])
        else
          (AwaitsRepair, withState (setJobName repair) c,
           [checked; status; validated;
            Sent (Job jobId)
                 (EvStatus repair (repairingMessage attempt message) None);
            Called jobId (CallRepair current message)])
    end.
Proof.
  intros Ho Hs.
  unfold loopBody, bind, isStale, sendStatus, json_is_schema_valid,
    bind, note, update, ret.
  rewrite Hs. rewrite send_open by assumption. simpl.
  destruct (validate current) as [d|message]; [reflexivity|].
  destruct (attempt =? maxAttempts).
  - unfold send. simpl. rewrite Ho. reflexivity.
  - unfold send. simpl. rewrite Ho. destruct c as [s r]. reflexivity.
Qed.

(** C6, as the code has it.  On an open socket and for an authoritative
    job, every pass through the loop body first sends a status whose stage
    is [validating] and whose message text holds the attempt number (the
    optional [attempt] field is not set); when the candidate is rejected
    before the last attempt, the only further entries are a status whose
    stage is [repair], literal "repair", with the diagnostic in its message,
    and then the repair call. *)
Theorem attempt_status_events (c : Conn) (jobId attempt : nat)
    (current : json) (is_modify : bool) :
  isOpen (readyState c) = true ->
  stale (state c) jobId = false ->
  exists rest,
    snd (loopBody validate jobId attempt current is_modify c)
    = Checked jobId (canceled (state c)) (lastJobId (state c))
      :: Sent (Job jobId)
           (EvStatus validating
              (js "Validating schema (attempt " ++ ofNat attempt ++ js ")")
              None)
      :: Called jobId (CallValidate current)
      :: rest
    /\ stageLiteral validating = js "validating"
    /\ stageLiteral repair = js "repair"
    /\ forall diagnostic,
         validate current = Error diagnostic ->
         attempt <> maxAttempts ->
         rest = [Sent (Job jobId)
                   (EvStatus repair
                      (js "Repairing (" ++ ofNat attempt ++ js "/3): "
                          ++ diagnostic)
                      None);
                 Called jobId (CallRepair current diagnostic)].
Proof.
  intros Ho Hs. rewrite loopBody_fresh by assumption. cbv zeta.
  destruct (validate current) as [d|message].
  - eexists. simpl. split; [reflexivity|]. repeat split. discriminate.
  - destruct (Nat.eqb_spec attempt maxAttempts) as [E|E].
    + eexists. simpl. split; [reflexivity|]. repeat split.
      intros dg _ Hne. contradiction.
    + eexists. simpl. split; [reflexivity|]. repeat split.
      intros dg Hd _. now injection Hd as ->.
Qed.

(** *** Exits of the loop *)

Lemma loopBody_success_exit (c c' : Conn) (jobId attempt : nat)
    (current data : json) (is_modify : bool) (l : list Entry) :
  loopBody validate jobId attempt current is_modify c
  = (Returns (Success data), c', l) ->
  data = current
  /\ succeeded (validate current) = true
  /\ exists l0, l = l0 ++ [Called jobId (CallValidate current)].
Proof.
  unfold loopBody, bind, isStale, sendStatus, json_is_schema_valid, bind,
    note, update, ret, send.
  destruct (stale (state c) jobId); [discriminate|].
  destruct (isOpen (readyState c)) eqn:Ho; simpl;
    destruct (validate current) as [d|message] eqn:V;
    try (destruct (attempt =? maxAttempts); simpl; try rewrite Ho;
         discriminate);
    intros E; injection E as <- <- <-; repeat split; eexists;
    match goal with
    | |- ?x = _ => instantiate (1 := removelast x)
    end; reflexivity.
Qed.

Lemma attempts_success_exit (todo : list nat) :
  forall (c c' : Conn) (jobId : nat) (current data : json)
         (is_modify : bool) (env : nat -> Suspension) (l : list Entry),
    attempts JSON_parse stripNullsOf validate todo jobId current is_modify
             env c
    = (Success data, c', l) ->
    succeeded (validate data) = true
    /\ exists l0, l = l0 ++ [Called jobId (CallValidate data)].
Proof.
  induction todo as [|attempt rest IH]; intros c c' jobId current data
    is_modify env l; simpl; [discriminate|].
  unfold bind at 1.
  destruct (loopBody validate jobId attempt current is_modify c)
    as [[s c1] l1] eqn:B.
  destruct s as [r|].
  - unfold ret. intros E. injection E as -> <- <-.
    destruct (loopBody_success_exit _ _ _ _ _ B) as (-> & V & l0 & ->).
    split; [assumption|]. exists l0. now rewrite app_nil_r.
  - unfold bind, meanwhile, afterRepair.
    destruct (guardedCall JSON_parse stripNullsOf
                (repairSettles (env attempt))) as [[d|m]|m];
      unfold bind, ret, send; simpl;
      try (destruct (isOpen (readyState (whileRepairing (env attempt) c1)));
           discriminate).
    destruct (attempts JSON_parse stripNullsOf validate rest jobId d
                is_modify env
                (whileSleeping (env attempt)
                   (whileRepairing (env attempt) c1)))
      as [[r c2] l2] eqn:A.
    intros E. injection E as -> <- <-.
    destruct (IH _ _ _ _ _ _ _ _ A) as (V & l0 & ->).
    split; [assumption|]. exists (l1 ++ l0). now rewrite app_assoc.
Qed.

(** C5.  On an open socket and for an authoritative job, a candidate the
    validator accepts at its first check is returned as the success of the
    engine: one check, one [validating] status, one validation and nothing
    else in the log (no repair call, no [repair] status, no
    [result_partial]).  Whatever the run, a success of the engine carries
    a candidate the validator accepts, and the validation of that
    candidate is the last thing the engine did. *)
Theorem valid_candidate_accepted (c : Conn) (jobId : nat)
    (candidate : json) (is_modify : bool) (env : nat -> Suspension) :
  isOpen (readyState c) = true ->
  stale (state c) jobId = false ->
  succeeded (validate candidate) = true ->
  validateAndRepair JSON_parse stripNullsOf validate jobId candidate
                    is_modify env c
  = (Success candidate, withState (setJobName validating) c,
     [Checked jobId (canceled (state c)) (lastJobId (state c));
      Sent (Job jobId) (EvStatus validating (validatingMessage 1) None);
      Called jobId (CallValidate candidate)])
  /\ forall c0 c1 id j0 data m0 env0 l,
       validateAndRepair JSON_parse stripNullsOf validate id j0 m0 env0 c0
       = (Success data, c1, l) ->
       succeeded (validate data) = true
       /\ exists l0, l = l0 ++ [Called id (CallValidate data)].
Proof.
  intros Ho Hs Hv. split.
  - unfold validateAndRepair. simpl. unfold bind at 1.
    rewrite loopBody_fresh by assumption. cbv zeta.
    destruct (validate candidate); [reflexivity|discriminate].
  - intros c0 c1 id j0 data m0 env0 l E.
    exact (attempts_success_exit _ _ _ _ _ _ E).
Qed.

(** *** A run in which the validator never accepts *)

Lemma bind_log {A B} (m : M A) (f : A -> M B) (c : Conn) :
  snd (bind m f c)
  = snd (m c) ++ snd (f (fst (fst (m c))) (snd (fst (m c)))).
Proof.
  unfold bind. destruct (m c) as [[a c1] l1]. simpl.
  destruct (f a c1) as [[b c2] l2]. reflexivity.
Qed.

Lemma attempts_first_check (attempt : nat) (rest : list nat) (c : Conn)
    (jobId : nat) (current : json) (is_modify : bool)
    (env : nat -> Suspension) :
  exists l,
    snd (attempts JSON_parse stripNullsOf validate (attempt :: rest) jobId
                  current is_modify env c)
    = Checked jobId (canceled (state c)) (lastJobId (state c)) :: l.
Proof.
  simpl. rewrite bind_log. unfold loopBody at 1. rewrite bind_log.
  simpl. eexists. reflexivity.
Qed.

Lemma fresh_of_checks (jobId : nat) (c : Conn) (l : list Entry) :
  (forall cs ls, In (Checked jobId cs ls) l -> cs = false /\ ls = jobId) ->
  In (Checked jobId (canceled (state c)) (lastJobId (state c))) l ->
  stale (state c) jobId = false.
Proof.
  intros H I. destruct (H _ _ I) as [Hc Hl].
  apply stale_false_iff. split; congruence.
Qed.

(** One whole iteration that ends in a repaired candidate. *)
Lemma attempts_repaired (attempt : nat) (rest : list nat) (c : Conn)
    (jobId : nat) (current repaired : json) (diagnostic : jsstring)
    (is_modify : bool) (env : nat -> Suspension) :
  isOpen (readyState c) = true ->
  stale (state c) jobId = false ->
  validate current = Error diagnostic ->
  attempt <> maxAttempts ->
  guardedCall JSON_parse stripNullsOf (repairSettles (env attempt))
  = Returned (Success repaired) ->
  let next :=
    attempts JSON_parse stripNullsOf validate rest jobId repaired is_modify
      env
      (whileSleeping (env attempt)
         (whileRepairing (env attempt)
            (withState (setJobName repair) c))) in
  attempts JSON_parse stripNullsOf validate (attempt :: rest) jobId current
           is_modify env c
  = (fst (fst next), snd (fst next),
     [Checked jobId (canceled (state c)) (lastJobId (state c));
      Sent (Job jobId) (EvStatus validating (validatingMessage attempt) None);
      Called jobId (CallValidate current);
      Sent (Job jobId)
           (EvStatus repair (repairingMessage attempt diagnostic) None);
      Called jobId (CallRepair current diagnostic)]
     ++ snd next).
Proof.
  intros Ho Hs Hv Ha Hr next. simpl. unfold bind at 1.
  rewrite loopBody_fresh by assumption. cbv zeta. rewrite Hv.
  destruct (Nat.eqb_spec attempt maxAttempts) as [E|_]; [contradiction|].
  unfold bind, update, meanwhile, afterRepair. rewrite Hr. unfold ret.
  fold next. destruct next as [[r c2] l2]. reflexivity.
Qed.

(** C4, as the code has it.  On a socket that stays open, with the
    validator rejecting the candidate and the two candidates that the
    repair calls of attempts 1 and 2 return, and a job that every check
    finds authoritative: the engine returns the failure of line 315 (it
    does not throw), calls repair exactly twice, on the candidates of
    attempts 1 and 2, and what it sends is the three [validating] and two
    [repair] statuses followed by a single [result_partial] that carries
    the last candidate and its diagnostic; no [result] is sent. *)
Theorem rejected_candidate_exhausts (c : Conn) (jobId : nat)
    (candidate second third : json)
    (diagnostic1 diagnostic2 diagnostic3 : jsstring) (is_modify : bool)
    (env : nat -> Suspension) :
  isOpen (readyState c) = true ->
  staysOpen env ->
  validate candidate = Error diagnostic1 ->
  validate second = Error diagnostic2 ->
  validate third = Error diagnostic3 ->
  guardedCall JSON_parse stripNullsOf (repairSettles (env 1))
  = Returned (Success second) ->
  guardedCall JSON_parse stripNullsOf (repairSettles (env 2))
  = Returned (Success third) ->
  (forall cs ls,
      In (Checked jobId cs ls)
         (snd (validateAndRepair JSON_parse stripNullsOf validate jobId
                 candidate is_modify env c)) ->
      cs = false /\ ls = jobId) ->
  let run := validateAndRepair JSON_parse stripNullsOf validate jobId
               candidate is_modify env c in
  fst (fst run) = Error exitedMessage
  /\ filter isRepairCall (callsOf jobId (snd run))
     = [CallRepair candidate diagnostic1; CallRepair second diagnostic2]
  /\ eventsOf jobId (snd run)
     = [EvStatus validating (validatingMessage 1) None;
        EvStatus repair (repairingMessage 1 diagnostic1) None;
        EvStatus validating (validatingMessage 2) None;
        EvStatus repair (repairingMessage 2 diagnostic2) None;
        EvStatus validating (validatingMessage 3) None;
        EvResultPartial third (exhaustedMessage diagnostic3)
                        (Some is_modify)]
  /\ List.length (filter isResultPartial (eventsOf jobId (snd run))) = 1
  /\ filter isResult (eventsOf jobId (snd run)) = [].
Proof.
  intros Ho Hopen V1 V2 V3 H1 H2 Hf run. subst run.
  unfold validateAndRepair in *.
  change (seq 1 maxAttempts) with [1; 2; 3] in *.
  (* attempt 1 *)
  assert (S1 : stale (state c) jobId = false).
  { destruct (attempts_first_check 1 [2; 3] c jobId candidate is_modify env)
      as [l E].
    apply (fresh_of_checks _ _ Hf). rewrite E. now left. }
  rewrite (@attempts_repaired 1 [2; 3] c jobId candidate second
             diagnostic1 is_modify env Ho S1 V1
             ltac:(discriminate) H1) in *.
  cbv zeta in *. cbn [snd fst] in Hf.
  set (c1 := whileSleeping (env 1)
               (whileRepairing (env 1)
                  (withState (setJobName repair) c))) in *.
  assert (Ho1 : isOpen (readyState c1) = true).
  { apply (Hopen 1). apply (Hopen 1). exact Ho. }
  (* attempt 2 *)
  assert (S2 : stale (state c1) jobId = false).
  { destruct (attempts_first_check 2 [3] c1 jobId second is_modify env)
      as [l E].
    apply (fresh_of_checks _ _ Hf). rewrite E.
    apply in_or_app. right. now left. }
  rewrite (@attempts_repaired 2 [3] c1 jobId second third
             diagnostic2 is_modify env Ho1 S2 V2
             ltac:(discriminate) H2) in *.
  cbv zeta in *. cbn [snd fst] in Hf.
  set (c2 := whileSleeping (env 2)
               (whileRepairing (env 2)
                  (withState (setJobName repair) c1))) in *.
  assert (Ho2 : isOpen (readyState c2) = true).
  { apply (Hopen 2). apply (Hopen 2). exact Ho1. }
  (* attempt 3 *)
  assert (S3 : stale (state c2) jobId = false).
  { destruct (attempts_first_check 3 [] c2 jobId third is_modify env)
      as [l E].
    apply (fresh_of_checks _ _ Hf). rewrite E.
    apply in_or_app. right. apply in_or_app. right. now left. }
  clear Hf.
  assert (E3 : attempts JSON_parse stripNullsOf validate [3] jobId third
                 is_modify env c2
               = (Error exitedMessage, withState (setJobName validating) c2,
                  [Checked jobId (canceled (state c2)) (lastJobId (state c2));
                   Sent (Job jobId)
                        (EvStatus validating (validatingMessage 3) None);
                   Called jobId (CallValidate third);
                   Sent (Job jobId)
                        (EvResultPartial third
                           (exhaustedMessage diagnostic3)
                           (Some is_modify))])).
  { simpl. unfold bind at 1. rewrite loopBody_fresh by assumption.
    cbv zeta. rewrite V3. reflexivity. }
  rewrite E3. simpl. rewrite !Nat.eqb_refl. simpl. repeat split.
Qed.

End Engine.

(** *** The engine on concrete runs *)

(** C7 at job 1 after a cancel. *)
Lemma stale_attempt_aborts_witness :
  attempts Fixture.parse Fixture.keep Fixture.reject [2; 3] 1 (JObject [])
           false (fun _ => Fixture.quiet (Returned (Success (js "{}"))))
           (withState (setCanceled true) Fixture.serving)
  = (Error staleMessage, withState (setCanceled true) Fixture.serving,
     [Checked 1 true 1]).
Proof.
  exact (proj2 (proj2
    (@stale_attempt_aborts Fixture.parse Fixture.keep Fixture.reject
       (withState (setCanceled true) Fixture.serving) 1 2 [3] (JObject [])
       false (fun _ => Fixture.quiet (Returned (Success (js "{}"))))
       eq_refl))).
Defined.

(** C5 at an accepted empty object. *)
Lemma valid_candidate_accepted_witness :
  validateAndRepair Fixture.parse Fixture.keep Fixture.accept 1 (JObject [])
                    false
                    (fun _ => Fixture.quiet (Returned (Success (js "{}"))))
                    Fixture.serving
  = (Success (JObject []),
     withState (setJobName validating) Fixture.serving,
     [Checked 1 false 1;
      Sent (Job 1) (EvStatus validating (validatingMessage 1) None);
      Called 1 (CallValidate (JObject []))]).
Proof.
  exact (proj1
    (@valid_candidate_accepted Fixture.parse Fixture.keep Fixture.accept
       Fixture.serving 1 (JObject []) false
       (fun _ => Fixture.quiet (Returned (Success (js "{}"))))
       eq_refl eq_refl eq_refl)).
Defined.

(** C6 as the code has it, at the first attempt on a rejected object. *)
Lemma attempt_status_events_witness :
  exists rest,
    snd (loopBody Fixture.reject 1 1 (JObject []) false Fixture.serving)
    = Checked 1 false 1
      :: Sent (Job 1)
           (EvStatus validating
              (js "Validating schema (attempt " ++ ofNat 1 ++ js ")") None)
      :: Called 1 (CallValidate (JObject []))
      :: rest
    /\ stageLiteral validating = js "validating"
    /\ stageLiteral repair = js "repair"
    /\ forall diagnostic,
         Fixture.reject (JObject []) = Error diagnostic ->
         1 <> maxAttempts ->
         rest = [Sent (Job 1)
                   (EvStatus repair
                      (js "Repairing (" ++ ofNat 1 ++ js "/3): "
                          ++ diagnostic)
                      None);
                 Called 1 (CallRepair (JObject []) diagnostic)].
Proof.
  apply (@attempt_status_events Fixture.reject Fixture.serving 1 1
           (JObject []) false); reflexivity.
Defined.

(** C6 as stated fails: the status sent right before the repair call has
    the stage whose literal is "repair", not "repairing". *)
Lemma repair_stage_literal_counterexample :
  exists l stage message data diagnostic,
    snd (loopBody Fixture.reject 1 1 (JObject []) false Fixture.serving)
    = l ++ [Sent (Job 1) (EvStatus stage message data);
            Called 1 (CallRepair (JObject []) diagnostic)]
    /\ stageLiteral stage <> js "repairing".
Proof.
  exists [Checked 1 false 1;
          Sent (Job 1) (EvStatus validating (validatingMessage 1) None);
          Called 1 (CallValidate (JObject []))],
         repair, (repairingMessage 1 (js "missing goal")), None,
         (js "missing goal").
  split; [reflexivity|discriminate].
Qed.

(** C4 as the code has it, at three rejected empty objects and a
    validator that accepts every other value. *)
Lemma rejected_candidate_exhausts_witness :
  let run := validateAndRepair Fixture.parse Fixture.keep rejectEmpty 1
               (JObject []) true
               (fun _ => Fixture.quiet (Returned (Success (js "{}"))))
               Fixture.serving in
  fst (fst run) = Error exitedMessage
  /\ filter isRepairCall (callsOf 1 (snd run))
     = [CallRepair (JObject []) (js "missing goal");
        CallRepair (JObject []) (js "missing goal")]
  /\ eventsOf 1 (snd run)
     = [EvStatus validating (validatingMessage 1) None;
        EvStatus repair (repairingMessage 1 (js "missing goal")) None;
        EvStatus validating (validatingMessage 2) None;
        EvStatus repair (repairingMessage 2 (js "missing goal")) None;
        EvStatus validating (validatingMessage 3) None;
        EvResultPartial (JObject []) (exhaustedMessage (js "missing goal"))
                        (Some true)]
  /\ List.length (filter isResultPartial (eventsOf 1 (snd run))) = 1
  /\ filter isResult (eventsOf 1 (snd run)) = [].
Proof.
  apply (@rejected_candidate_exhausts Fixture.parse Fixture.keep
           rejectEmpty Fixture.serving 1 (JObject []) (JObject [])
           (JObject []) (js "missing goal") (js "missing goal")
           (js "missing goal") true
           (fun _ => Fixture.quiet (Returned (Success (js "{}"))))).
  - reflexivity.
  - intros n c Ho. split; exact Ho.
  - reflexivity.
  - reflexivity.
  - reflexivity.
  - reflexivity.
  - reflexivity.
  - intros cs ls I. vm_compute in I.
    repeat (destruct I as [I|I];
            [try discriminate I; inversion I; split; reflexivity|]).
    contradiction.
Defined.

(** C4 as stated fails: the validator rejects every object and every
    check finds the job authoritative, yet when the first repair call
    returns a failure the engine has called repair once, and the
    [result_partial] follows the first failed validation. *)
Lemma failed_repair_single_call :
  let run := validateAndRepair Fixture.parse Fixture.keep Fixture.reject 1
               (JObject []) false
               (fun _ => Fixture.quiet (Returned (Error (js "no completion"))))
               Fixture.serving in
  (forall j, succeeded (Fixture.reject j) = false)
  /\ (forall cs ls, In (Checked 1 cs ls) (snd run) -> cs = false /\ ls = 1)
  /\ List.length (filter isRepairCall (callsOf 1 (snd run))) = 1
  /\ eventsOf 1 (snd run)
     = [EvStatus validating (validatingMessage 1) None;
        EvStatus repair (repairingMessage 1 (js "missing goal")) None;
        EvResultPartial (JObject [])
          (repairFailedMessage 1 (js "no completion")) (Some false)].
Proof.
  repeat split; try reflexivity;
    vm_compute in H;
    repeat (destruct H as [H|H]; [try discriminate H; now inversion H|]);
    contradiction.
Qed.

(* ================================================================== *)
(** ** Jobs on the event loop *)
(* ================================================================== *)

(** The example of section 8: a valid object at the first attempt. *)
Example canonical_success_run :
  let l := snd (run Fixture.parse Fixture.keep Fixture.accept
                  [Receives (Prompt (Some (js "a foggy coastal island"))) 0;
                   Settles 1 (Operation (Returned (Success (js "{}"))))]
                  connection) in
  eventsOf 1 l
  = [EvStatus received (js "Prompt received.") None;
     EvStatus translating (js "Starting translation to schema...") None;
     EvStatus validating (js "Validating schema (attempt 1)") None;
     EvResult (JObject []) None;
     EvDone true]
  /\ canonical (eventsOf 1 l) = true.
Proof. split; reflexivity. Qed.

(** C1 fails on the code.  A first prompt whose completion holds no JSON
    object: nothing cancels the connection, yet job 1 gets two [done]
    events, [sendError] sending the first with [ok] false and the
    [finally] block the second with [ok] true. *)
Theorem generation_failure_two_done :
  let r := run Fixture.parse Fixture.keep Fixture.accept
             [Receives (Prompt (Some (js "a foggy coastal island"))) 0;
              Settles 1 (Operation
                           (Returned (Success (js "I cannot help with that"))))]
             connection in
  eventsOf 1 (snd r)
  = [EvStatus received (js "Prompt received.") None;
     EvStatus translating (js "Starting translation to schema...") None;
     EvError (js "Response is not JSON:" ++ [10%N]
                 ++ js "I cannot help with that");
     EvDone false;
     EvDone true]
  /\ List.length (filter isDone (eventsOf 1 (snd r))) = 2
  /\ canceled (state (conn (fst r))) = false
  /\ hasCancelSeen 1 (snd r) = false.
Proof. repeat split; reflexivity. Qed.

(** C3 fails on the code.  A first prompt whose translation call loses
    the race against its 180 s deadline: the events of job 1 end in two
    [done] events, so they are not a canonical sequence. *)
Theorem generation_timeout_not_canonical :
  let r := run Fixture.parse Fixture.keep Fixture.accept
             [Receives (Prompt (Some (js "a foggy coastal island"))) 0;
              Settles 1 Deadline]
             connection in
  eventsOf 1 (snd r)
  = [EvStatus received (js "Prompt received.") None;
     EvStatus translating (js "Starting translation to schema...") None;
     EvError (js "Translation failed: Operation timed out");
     EvDone false;
     EvDone true]
  /\ canonical (eventsOf 1 (snd r)) = false.
Proof. split; reflexivity. Qed.

(** A job whose candidates are all rejected, on the event loop: the
    statuses of three attempts, one [result_partial], one [done]. *)
Example exhausted_job_run :
  let r := run Fixture.parse Fixture.keep Fixture.reject
             [Receives (Prompt (Some (js "a foggy coastal island"))) 0;
              Settles 1 (Operation (Returned (Success (js "{}"))));
              Settles 1 (Operation (Returned (Success (js "{}"))));
              Wakes 1;
              Settles 1 (Operation (Returned (Success (js "{}"))));
              Wakes 1]
             connection in
  eventsOf 1 (snd r)
  = [EvStatus received (js "Prompt received.") None;
     EvStatus translating (js "Starting translation to schema...") None;
     EvStatus validating (js "Validating schema (attempt 1)") None;
     EvStatus repair (js "Repairing (1/3): missing goal") None;
     EvStatus validating (js "Validating schema (attempt 2)") None;
     EvStatus repair (js "Repairing (2/3): missing goal") None;
     EvStatus validating (js "Validating schema (attempt 3)") None;
     EvResultPartial (JObject [])
       (js "Max repair attempts reached. Last error: missing goal")
       (Some false);
     EvDone true]
  /\ canonical (eventsOf 1 (snd r)) = true
  /\ pending (fst r) = []
  /\ busy (state (conn (fst r))) = false.
Proof. repeat split; reflexivity. Qed.

(** The loop outlives a guard that elapsed.  Here the 180 s around
    [validateAndRepair] run out during the second repair call: the job
    reports the timeout and sends its [done] events, and the loop, still
    authoritative, goes on to validate and to send a [result_partial]. *)
Example orphaned_loop_after_done :
  let r := run Fixture.parse Fixture.keep Fixture.reject
             [Receives (Prompt (Some (js "a foggy coastal island"))) 0;
              Settles 1 (Operation (Returned (Success (js "{}"))));
              Settles 1 (Operation (Returned (Success (js "{}"))));
              Wakes 1;
              GuardElapses 1;
              Settles 1 (Operation (Returned (Success (js "{}"))));
              Wakes 1]
             connection in
  eventsOf 1 (snd r)
  = [EvStatus received (js "Prompt received.") None;
     EvStatus translating (js "Starting translation to schema...") None;
     EvStatus validating (js "Validating schema (attempt 1)") None;
     EvStatus repair (js "Repairing (1/3): missing goal") None;
     EvStatus validating (js "Validating schema (attempt 2)") None;
     EvStatus repair (js "Repairing (2/3): missing goal") None;
     EvError (js "Operation timed out");
     EvDone false;
     EvDone true;
     EvStatus validating (js "Validating schema (attempt 3)") None;
     EvResultPartial (JObject [])
       (js "Max repair attempts reached. Last error: missing goal")
       (Some false)].
Proof. reflexivity. Qed.

Section Silence.

Variable JSON_parse : jsstring -> Parse.
Variable stripNullsOf : json -> json.
Variable validate : json -> Result json.

Ltac compare_ids :=
  repeat match goal with
         | H : context [?a =? ?b] |- _ =>
             destruct (Nat.eqb_spec a b); simpl in H
         | |- context [?a =? ?b] => destruct (Nat.eqb_spec a b); simpl
         end.

Ltac settle_segment :=
  unfold segmentOk; simpl; repeat split; intros;
  repeat (progress (simpl in *; compare_ids; subst));
  repeat match goal with
         | H : Some _ = Some _ |- _ => injection H as <-
         end;
  simpl in *;
  try congruence; try discriminate; try (split; congruence); auto.

(** Splits a connection into its fields and decides the two tests of the
    staleness check. *)
Ltac open_conn c jobId :=
  let b := fresh "b" in
  let cn := fresh "cn" in
  let jn := fresh "jn" in
  let last := fresh "last" in
  let hb := fresh "hb" in
  let r := fresh "r" in
  destruct c as [[b cn jn last hb] r]; destruct cn; destruct r;
  destruct (jobId =? last) eqn:?.

#[local] Opaque lit.

Lemma startJob_ok (k : JobKind) (jobId : nat) (prompt : jsstring)
    (c : Conn) :
  segmentOk jobId true c (startJob k jobId prompt c).
Proof.
  open_conn c jobId;
    unfold startJob, cleanup, bind, isStale, stale, setBusy, sendStatus,
      bind, send, update, read, note, ret; simpl;
    settle_segment.
Qed.

Lemma continueLoop_ok (g is_modify : bool) (jobId attempt : nat)
    (current : json) (c : Conn) :
  segmentOk jobId g c (continueLoop validate g is_modify jobId attempt
                                    current c).
Proof.
  unfold continueLoop, loopBody, json_is_schema_valid.
  destruct (attempt <=? maxAttempts); destruct (validate current);
    destruct (attempt =? maxAttempts); destruct g;
    open_conn c jobId;
    unfold loopReturns, afterLoop, cleanup, bind, isStale, stale, setBusy,
      sendStatus, bind, send, update, read, note, ret; simpl;
    settle_segment.
Qed.

Lemma afterGeneration_ok (is_modify : bool) (jobId : nat)
    (outcome : Settled (Result json)) (c : Conn) :
  segmentOk jobId true c (afterGeneration validate is_modify jobId outcome c).
Proof.
  unfold afterGeneration, continueLoop, loopBody, json_is_schema_valid.
  destruct outcome as [[data|message]|message];
    try destruct (validate data);
    open_conn c jobId;
    unfold sendError, loopReturns, afterLoop, cleanup, bind, isStale, stale,
      setBusy, sendStatus, bind, send, update, read, note, ret; simpl;
    settle_segment.
Qed.

Lemma resumeRepair_ok (g is_modify : bool) (jobId attempt : nat)
    (current : json) (repair_result : Settled (Result json)) (c : Conn) :
  segmentOk jobId g c
    (resumeRepair g is_modify jobId attempt current repair_result c).
Proof.
  unfold resumeRepair, afterRepair.
  destruct repair_result as [[data|message]|message]; destruct g;
    open_conn c jobId;
    unfold loopReturns, afterLoop, cleanup, bind, setBusy, send, update,
      read, ret; simpl;
    settle_segment.
Qed.

Lemma guardRejects_ok (jobId : nat) (t : Suspended) (c : Conn) :
  isGuarded (unguard t) = false ->
  segmentOk jobId false c
    ((guardRejects jobId ;; ret (Some (unguard t))) c).
Proof.
  intros G. open_conn c jobId;
    unfold guardRejects, sendError, cleanup, bind, setBusy, send, update,
      read, ret; simpl;
    settle_segment.
Qed.

(** *** The pool of suspended activations *)

Lemma lookup_drop (j k : nat) (p : list (nat * Suspended)) :
  lookup j (drop k p) = if k =? j then None else lookup j p.
Proof.
  induction p as [|[id t] p IH]; simpl.
  - now destruct (k =? j).
  - destruct (Nat.eqb_spec id k) as [->|Hk]; simpl.
    + rewrite IH. destruct (Nat.eqb_spec k j); reflexivity.
    + rewrite IH. destruct (Nat.eqb_spec id j) as [->|Hj];
        [|reflexivity].
      destruct (Nat.eqb_spec k j); [congruence|reflexivity].
Qed.

Lemma lookup_settle (j k : nat) (t : option Suspended)
    (p : list (nat * Suspended)) :
  lookup j (settle k t p) = if k =? j then t else lookup j p.
Proof.
  destruct t as [t|]; simpl; rewrite lookup_drop;
    destruct (k =? j); reflexivity.
Qed.

Lemma sessionOnly_events (j : nat) (l : list Entry) :
  sessionOnly l = true -> eventsOf j l = [].
Proof.
  induction l as [|e l IH]; simpl; [reflexivity|].
  destruct e as [[|id] payload| |]; simpl; try discriminate. exact IH.
Qed.

Lemma sessionOnly_no_cancel (j : nat) (l : list Entry) :
  sessionOnly l = true -> hasCancelSeen j l = false.
Proof.
  induction l as [|e l IH]; simpl; [reflexivity|].
  destruct e as [[|id] payload| |]; simpl; try discriminate. exact IH.
Qed.

Lemma quiet_without_cancel (j : nat) (strict : bool) (d : list Entry) :
  hasCancelSeen j d = false -> quietAfter j strict d = true.
Proof.
  induction d as [|e d IH]; simpl; [reflexivity|].
  intros H. apply orb_false_iff in H. destruct H as [-> H].
  now rewrite IH.
Qed.

Lemma eventsOf_app (j : nat) (a b : list Entry) :
  eventsOf j (a ++ b) = eventsOf j a ++ eventsOf j b.
Proof.
  induction a as [|e a IH]; simpl; [reflexivity|].
  destruct e as [[|id] payload| |]; simpl; try exact IH.
  destruct (id =? j); simpl; now rewrite IH.
Qed.

Lemma quietAfter_split (j : nat) (strict : bool) (seen : nat)
    (l1 l2 : list Entry) :
  quietAfter j strict (l1 ++ Checked j true seen :: l2) = true ->
  onlyDoneFalse strict (eventsOf j l2) = true.
Proof.
  induction l1 as [|e l1 IH]; simpl.
  - rewrite Nat.eqb_refl. intros H. now apply andb_prop in H.
  - intros H. apply andb_prop in H. tauto.
Qed.

Lemma cancel_seen_in (j seen : nat) (l1 l2 : list Entry) :
  hasCancelSeen j (l1 ++ Checked j true seen :: l2) = true.
Proof.
  unfold hasCancelSeen. rewrite existsb_app. simpl.
  rewrite Nat.eqb_refl. now rewrite orb_true_r.
Qed.

(** *** One step of the event loop *)

Lemma noop_facts (w : World) : wf w -> stepFacts w (w, []).
Proof.
  intros W. unfold stepFacts. simpl. repeat split; auto; discriminate.
Qed.

Lemma resume_facts (k : nat) (g : bool) (m : M (option Suspended))
    (w : World) (t0 : Suspended) :
  wf w ->
  lookup k (pending w) = Some t0 ->
  (hasCancelSeen k (snd (m (conn w))) = true ->
   isGuarded t0 = true -> g = true) ->
  segmentOk k g (conn w) (m (conn w)) ->
  stepFacts w (resume k m w).
Proof.
  intros W L G S. unfold resume.
  destruct (m (conn w)) as [[t c] d] eqn:E.
  destruct S as (S1 & S2 & S3 & S4 & S5 & S6 & S7). simpl in *.
  assert (K : k <= lastJobId (state (conn w))) by exact (W _ _ L).
  unfold stepFacts. simpl. repeat split.
  - intros id t1. simpl. rewrite lookup_settle, S1.
    destruct (Nat.eqb_spec k id) as [<-|Hk]; [auto|]. apply W.
  - rewrite S1. apply le_n.
  - rewrite lookup_settle.
    destruct (Nat.eqb_spec k j) as [<-|Hk]; [congruence|assumption].
  - apply S3. intros ->. congruence.
  - destruct (S4 _ H) as [-> ->]. rewrite lookup_settle.
    now rewrite Nat.eqb_refl.
  - destruct (S4 _ H) as [-> _]. now rewrite S1.
  - exact S5.
  - intros j Ho Gj.
    destruct (hasCancelSeen j d) eqn:C;
      [|now apply quiet_without_cancel].
    destruct (S4 _ C) as [-> _].
    apply S6; [|assumption]. apply G; [assumption|]. exact (Gj _ L).
Qed.

Lemma handler_facts (m : M unit) (w : World) :
  wf w ->
  lastJobId (state (snd (fst (m (conn w))))) = lastJobId (state (conn w)) ->
  sessionOnly (snd (m (conn w))) = true ->
  stepFacts w (handler m w).
Proof.
  intros W L S. unfold handler.
  destruct (m (conn w)) as [[u c] d]. simpl in *.
  unfold stepFacts. simpl. repeat split; auto.
  - intros id t. simpl. rewrite L. apply W.
  - rewrite L. apply le_n.
  - now apply sessionOnly_events.
  - rewrite (sessionOnly_no_cancel j _ S) in H. discriminate.
  - rewrite (sessionOnly_no_cancel j _ S) in H. discriminate.
  - intros j. apply quiet_without_cancel. now apply sessionOnly_no_cancel.
  - intros j _ _. apply quiet_without_cancel.
    now apply sessionOnly_no_cancel.
Qed.

(** What the message handler does: it answers on its own account, or it
    advances [lastJobId] and runs the first segment of the new job. *)
Lemma onMessage_cases (msg : Inbound) (now : N) (c : Conn) :
  let r := onMessage msg now c in
  (fst (fst r) = None
   /\ lastJobId (state (snd (fst r))) = lastJobId (state c)
   /\ readyState (snd (fst r)) = readyState c
   /\ sessionOnly (snd r) = true)
  \/ exists kind prompt,
       let k := S (lastJobId (state c)) in
       let s := startJob kind k prompt
                  (withState (fun s => setLastJobId (S (lastJobId s)) s) c) in
       fst (fst r)
       = match fst (fst s) with Some t => Some (k, t) | None => None end
       /\ snd (fst r) = snd (fst s)
       /\ snd r = snd s.
Proof.
  assert (N : forall kind prompt,
             let r := newJob kind prompt c in
             let k := S (lastJobId (state c)) in
             let s := startJob kind k prompt
                        (withState (fun s => setLastJobId (S (lastJobId s)) s)
                                   c) in
             fst (fst r)
             = match fst (fst s) with Some t => Some (k, t) | None => None end
             /\ snd (fst r) = snd (fst s)
             /\ snd r = snd s).
  { intros kind prompt. cbv zeta. unfold newJob, bind, update, read, ret.
    simpl.
    destruct (startJob kind (S (lastJobId (state c))) prompt
                (withState (fun s => setLastJobId (S (lastJobId s)) s) c))
      as [[t c1] l1].
    simpl. now rewrite app_nil_r. }
  cbv zeta. destruct msg as [| | |p|p original| |]; unfold onMessage;
    cbv zeta.
  - left. destruct c as [s []]; repeat split; reflexivity.
  - left. destruct c as [s []]; repeat split; reflexivity.
  - left. destruct c as [[[] cn jn last hb] []]; repeat split; reflexivity.
  - destruct (isEmpty (promptOf p));
      [left; destruct c as [s []]; repeat split; reflexivity|].
    destruct (busy (state c)) eqn:B.
    + left. unfold bind, read. rewrite B.
      destruct c as [s []]; repeat split; reflexivity.
    + right. exists Translation, (promptOf p).
      destruct (N Translation (promptOf p)) as (N1 & N2 & N3).
      unfold bind, read. rewrite B.
      destruct (newJob Translation (promptOf p) c) as [[t c1] l1].
      simpl in *. rewrite N1, N2, N3. auto.
  - destruct (isEmpty (promptOf p));
      [left; destruct c as [s []]; repeat split; reflexivity|].
    destruct (busy (state c)) eqn:B.
    + left. unfold bind, read. rewrite B.
      destruct c as [s []]; repeat split; reflexivity.
    + destruct original as [previousJson|];
        [destruct (toBoolean previousJson)|].
      * right. exists (Modification previousJson), (promptOf p).
        destruct (N (Modification previousJson) (promptOf p))
          as (N1 & N2 & N3).
        unfold bind, read. rewrite B.
        destruct (newJob (Modification previousJson) (promptOf p) c)
          as [[t c1] l1].
        simpl in *. rewrite N1, N2, N3. auto.
      * left. unfold bind, read. rewrite B.
        destruct c as [s []]; repeat split; reflexivity.
      * left. unfold bind, read. rewrite B.
        destruct c as [s []]; repeat split; reflexivity.
  - left. destruct c as [s []]; repeat split; reflexivity.
  - left. destruct c as [s []]; repeat split; reflexivity.
Qed.

Lemma receive_facts (msg : Inbound) (now : N) (w : World) :
  wf w ->
  stepFacts w (step JSON_parse stripNullsOf validate (Receives msg now) w).
Proof.
  intros W. unfold step.
  destruct (onMessage_cases msg now (conn w))
    as [(E1 & E2 & E3 & E4)|(kind & prompt & E1 & E2 & E3)];
    cbv zeta in *;
    destruct (onMessage msg now (conn w)) as [[started c] d]; simpl in *.
  - subst started. unfold stepFacts. simpl. repeat split; auto.
    + intros id t. simpl. rewrite E2. apply W.
    + rewrite E2. apply le_n.
    + now apply sessionOnly_events.
    + rewrite (sessionOnly_no_cancel j _ E4) in H. discriminate.
    + rewrite (sessionOnly_no_cancel j _ E4) in H. discriminate.
    + intros j. apply quiet_without_cancel.
      now apply sessionOnly_no_cancel.
    + intros j _ _. apply quiet_without_cancel.
      now apply sessionOnly_no_cancel.
  - pose proof (startJob_ok kind (S (lastJobId (state (conn w)))) prompt
                  (withState (fun s => setLastJobId (S (lastJobId s)) s)
                             (conn w))) as SJ.
    destruct (startJob kind (S (lastJobId (state (conn w)))) prompt
                (withState (fun s => setLastJobId (S (lastJobId s)) s)
                           (conn w))) as [[t c1] d1].
    destruct SJ as (S1 & S2 & S3 & S4 & S5 & S6 & S7). simpl in *.
    subst started c d.
    assert (F : lookup (S (lastJobId (state (conn w)))) (pending w) = None).
    { destruct (lookup (S (lastJobId (state (conn w)))) (pending w)) eqn:L;
        [|reflexivity].
      apply W in L. lia. }
    set (k := S (lastJobId (state (conn w)))) in *.
    assert (K : forall j, j <= lastJobId (state (conn w)) -> (k =? j) = false)
      by (intros j Hj; apply Nat.eqb_neq; subst k; lia).
    unfold stepFacts, wf. cbn [fst snd conn pending].
    assert (P : forall j,
               lookup j (match match t with
                               | Some t => Some (k, t)
                               | None => None
                               end with
                         | Some (jobId, t) =>
                             (jobId, t) :: drop jobId (pending w)
                         | None => pending w
                         end)
               = if k =? j then t else lookup j (pending w)).
    { intros j. destruct t as [t|].
      - change ((k, t) :: drop k (pending w))
          with (settle k (Some t) (pending w)).
        now rewrite lookup_settle.
      - destruct (Nat.eqb_spec k j) as [<-|_]; [exact F|reflexivity]. }
    repeat split.
    + intros id t1. rewrite P, S1.
      destruct (Nat.eqb_spec k id) as [<-|_]; [auto|].
      intros L. apply W in L. subst k. lia.
    + rewrite S1. subst k. lia.
    + rewrite P, (K _ H0). assumption.
    + apply S3. intros ->. specialize (K _ H0).
      rewrite Nat.eqb_refl in K. discriminate.
    + destruct (S4 _ H) as [-> ->]. rewrite P. now rewrite Nat.eqb_refl.
    + destruct (S4 _ H) as [-> _]. rewrite S1. apply le_n.
    + exact S5.
    + intros j Ho _. now apply S6.
Qed.

Lemma step_facts (h : Happening) (w : World) :
  wf w -> stepFacts w (step JSON_parse stripNullsOf validate h w).
Proof.
  intros W. destruct h as [msg now| | | |k a|k|k].
  - now apply receive_facts.
  - unfold step. apply handler_facts; [assumption| |];
      destruct (conn w) as [[b cn jn last hb] r]; reflexivity.
  - unfold step. apply handler_facts; [assumption| |];
      destruct (conn w) as [[b cn jn last hb] r]; reflexivity.
  - unfold step. apply handler_facts; [assumption| |];
      destruct (conn w) as [[b cn jn last [|]] []]; reflexivity.
  - unfold step. destruct (lookup k (pending w)) as [[im|g im n cur|g im n cur]|] eqn:L;
      try (now apply noop_facts).
    + eapply resume_facts; eauto using afterGeneration_ok.
    + eapply resume_facts; eauto using resumeRepair_ok.
  - unfold step. destruct (lookup k (pending w)) as [[im|g im n cur|g im n cur]|] eqn:L;
      try (now apply noop_facts).
    eapply resume_facts; eauto using continueLoop_ok.
  - unfold step. destruct (lookup k (pending w)) as [[im|[|] im n cur|[|] im n cur]|] eqn:L;
      try (now apply noop_facts).
    + eapply resume_facts; [assumption|exact L| |
                            now apply guardRejects_ok].
      intros C. destruct (guardRejects_ok k (InRepair true im n cur)
                            (conn w) eq_refl)
        as (_ & _ & _ & S4 & _).
      destruct (conn w) as [[b [|] jn last hb] []]; discriminate C.
    + eapply resume_facts; [assumption|exact L| |
                            now apply guardRejects_ok].
      intros C.
      destruct (conn w) as [[b [|] jn last hb] []]; discriminate C.
Qed.

Lemma resume_guarded (k j : nat) (g : bool) (m : M (option Suspended))
    (w : World) (t0 : Suspended) :
  lookup k (pending w) = Some t0 ->
  isGuarded t0 = g ->
  segmentOk k g (conn w) (m (conn w)) ->
  guardedAt j w ->
  guardedAt j (fst (resume k m w)).
Proof.
  intros L G (_ & _ & _ & _ & _ & _ & S7) Gj. unfold resume.
  destruct (m (conn w)) as [[t c] d]. simpl in *.
  intros t1. simpl. rewrite lookup_settle.
  destruct (Nat.eqb_spec k j) as [->|_]; [|apply Gj].
  intros ->. rewrite (S7 _ eq_refl). rewrite <- G. exact (Gj _ L).
Qed.

Lemma resume_other (k j : nat) (m : M (option Suspended)) (w : World) :
  k <> j -> guardedAt j w -> guardedAt j (fst (resume k m w)).
Proof.
  intros Hk Gj. unfold resume. destruct (m (conn w)) as [[t c] d].
  intros t1. simpl. rewrite lookup_settle.
  destruct (Nat.eqb_spec k j); [contradiction|apply Gj].
Qed.

Lemma step_guarded (h : Happening) (w : World) (j : nat) :
  wf w ->
  h <> GuardElapses j ->
  guardedAt j w ->
  guardedAt j (fst (step JSON_parse stripNullsOf validate h w)).
Proof.
  intros W Hh Gj. destruct h as [msg now| | | |k a|k|k]; unfold step.
  - destruct (onMessage_cases msg now (conn w))
      as [(E1 & _)|(kind & prompt & E1 & _)];
      cbv zeta in *;
      destruct (onMessage msg now (conn w)) as [[started c] d]; simpl in *.
    + now subst started.
    + pose proof (startJob_ok kind (S (lastJobId (state (conn w)))) prompt
                    (withState (fun s => setLastJobId (S (lastJobId s)) s)
                               (conn w))) as SJ.
      destruct (startJob kind (S (lastJobId (state (conn w)))) prompt
                  (withState (fun s => setLastJobId (S (lastJobId s)) s)
                             (conn w))) as [[t c1] d1].
      destruct SJ as (_ & _ & _ & _ & _ & _ & S7). simpl in *.
      subst started. destruct t as [t|]; [|exact Gj].
      intros t1. cbn [pending].
      change ((S (lastJobId (state (conn w))), t)
                :: drop (S (lastJobId (state (conn w)))) (pending w))
        with (settle (S (lastJobId (state (conn w)))) (Some t) (pending w)).
      rewrite lookup_settle.
      destruct (Nat.eqb_spec (S (lastJobId (state (conn w)))) j);
        [|apply Gj].
      intros T. injection T as <-. now apply S7.
  - unfold handler. now destruct (onClose (conn w)) as [[u c] d].
  - unfold handler. now destruct (onError (conn w)) as [[u c] d].
  - unfold handler. now destruct (onHeartbeat (conn w)) as [[u c] d].
  - destruct (lookup k (pending w)) as [[im|g im n cur|g im n cur]|] eqn:L;
      try assumption.
    + eapply resume_guarded; eauto using afterGeneration_ok.
    + eapply resume_guarded; eauto using resumeRepair_ok.
  - destruct (lookup k (pending w)) as [[im|g im n cur|g im n cur]|] eqn:L;
      try assumption.
    eapply resume_guarded; eauto using continueLoop_ok.
  - assert (k <> j) by congruence.
    destruct (lookup k (pending w))
      as [[im|[|] im n cur|[|] im n cur]|] eqn:L;
      try assumption; now apply resume_other.
Qed.

Lemma resume_ready (k : nat) (g : bool) (m : M (option Suspended))
    (w : World) :
  segmentOk k g (conn w) (m (conn w)) ->
  readyState (conn (fst (resume k m w))) = readyState (conn w).
Proof.
  intros (_ & S2 & _). unfold resume.
  now destruct (m (conn w)) as [[t c] d].
Qed.

Lemma step_open (h : Happening) (w : World) :
  h <> Closes ->
  readyState (conn (fst (step JSON_parse stripNullsOf validate h w)))
  = readyState (conn w).
Proof.
  intros Hh. destruct h as [msg now| | | |k a|k|k]; unfold step.
  - destruct (onMessage_cases msg now (conn w))
      as [(_ & _ & E3 & _)|(kind & prompt & _ & E2 & _)];
      cbv zeta in *;
      destruct (onMessage msg now (conn w)) as [[started c] d]; simpl in *.
    + exact E3.
    + subst c.
      now destruct (startJob_ok kind (S (lastJobId (state (conn w)))) prompt
                      (withState (fun s => setLastJobId (S (lastJobId s)) s)
                                 (conn w))) as (_ & S2 & _).
  - congruence.
  - reflexivity.
  - unfold handler, onHeartbeat, bind, read, send, ret.
    now destruct (conn w) as [[b cn jn last [|]] []].
  - destruct (lookup k (pending w)) as [[im|g im n cur|g im n cur]|];
      try reflexivity.
    + eapply resume_ready, afterGeneration_ok.
    + eapply resume_ready, resumeRepair_ok.
  - destruct (lookup k (pending w)) as [[im|g im n cur|g im n cur]|];
      try reflexivity.
    eapply resume_ready, continueLoop_ok.
  - destruct (lookup k (pending w))
      as [[im|[|] im n cur|[|] im n cur]|];
      try reflexivity; eapply resume_ready; now apply guardRejects_ok.
Qed.

(** *** Whole runs *)

Lemma run_cons (h : Happening) (hs : list Happening) (w : World) :
  run JSON_parse stripNullsOf validate (h :: hs) w
  = (fst (run JSON_parse stripNullsOf validate hs
            (fst (step JSON_parse stripNullsOf validate h w))),
     snd (step JSON_parse stripNullsOf validate h w)
     ++ snd (run JSON_parse stripNullsOf validate hs
               (fst (step JSON_parse stripNullsOf validate h w)))).
Proof.
  simpl. destruct (step JSON_parse stripNullsOf validate h w) as [w1 l1].
  simpl. now destruct (run JSON_parse stripNullsOf validate hs w1).
Qed.

(** A job that is over stays silent. *)
Lemma run_absent (hs : list Happening) :
  forall (w : World) (j : nat),
    wf w ->
    lookup j (pending w) = None ->
    j <= lastJobId (state (conn w)) ->
    eventsOf j (snd (run JSON_parse stripNullsOf validate hs w)) = [].
Proof.
  induction hs as [|h hs IH]; intros w j W L J; [reflexivity|].
  rewrite run_cons. cbn [snd]. rewrite eventsOf_app.
  destruct (step_facts h W) as (F1 & F2 & F3 & _).
  destruct (F3 _ L J) as [L1 ->]. simpl.
  apply IH; [assumption|assumption|lia].
Qed.

Lemma split_at_entry (e : Entry) (d ds l1 l2 : list Entry) :
  d ++ ds = l1 ++ e :: l2 ->
  (exists d2, d = l1 ++ e :: d2 /\ l2 = d2 ++ ds)
  \/ (exists l0, l1 = d ++ l0 /\ ds = l0 ++ e :: l2).
Proof.
  intros E. apply app_eq_app in E.
  destruct E as (l & [[-> E]|[-> E]]).
  - destruct l as [|x l]; simpl in E.
    + right. exists []. rewrite !app_nil_r. simpl. auto.
    + injection E as <- ->. left. exists l. auto.
  - right. exists l. auto.
Qed.

Lemma onlyDoneFalse_strict (evs : list ServerEvent) :
  onlyDoneFalse true evs = true -> evs = [EvDone false].
Proof.
  destruct evs as [|[| | | |[|]|] [|e evs]]; simpl; congruence.
Qed.

Lemma silence_from (hs : list Happening) :
  forall (w : World) (j seen : nat) (l1 l2 : list Entry),
    wf w ->
    snd (run JSON_parse stripNullsOf validate hs w)
    = l1 ++ Checked j true seen :: l2 ->
    onlyDoneFalse false (eventsOf j l2) = true
    /\ (isOpen (readyState (conn w)) = true ->
        guardedAt j w ->
        ~ In Closes hs ->
        ~ In (GuardElapses j) hs ->
        eventsOf j l2 = [EvDone false]).
Proof.
  induction hs as [|h hs IH]; intros w j seen l1 l2 W E.
  - destruct l1; discriminate E.
  - rewrite run_cons in E. cbn [snd] in E.
    destruct (step_facts h W) as (F1 & F2 & F3 & F4 & F5 & F6).
    apply split_at_entry in E.
    destruct E as [(d2 & Ed & ->)|(l0 & -> & Es)].
    + assert (C : hasCancelSeen j
                    (snd (step JSON_parse stripNullsOf validate h w)) = true)
        by (rewrite Ed; apply cancel_seen_in).
      destruct (F4 _ C) as [L J].
      rewrite eventsOf_app, (run_absent hs F1 L J), app_nil_r.
      split.
      * apply (quietAfter_split j false seen l1). rewrite <- Ed. apply F5.
      * intros Ho Gj _ _. apply onlyDoneFalse_strict.
        apply (quietAfter_split j true seen l1). rewrite <- Ed.
        now apply F6.
    + destruct (IH _ _ _ _ _ F1 Es) as [A B]. split; [exact A|].
      intros Ho Gj Hc Hg. apply B.
      * rewrite step_open; [assumption|].
        intros ->. apply Hc. now left.
      * apply step_guarded; [assumption| |assumption].
        intros ->. apply Hg. now left.
      * intros I. apply Hc. now right.
      * intros I. apply Hg. now right.
Qed.

Lemma connection_wf : wf connection.
Proof. intros id t. discriminate. Qed.

(** C2.  Take any run of a connection from the moment it is opened, and
    in its log any staleness check of job [j] that saw [canceled] set.
    From that check on, every event sent for job [j] is [done] with [ok]
    false, and there is at most one; no status, result, result_partial or
    error of the job follows.  If the socket is never closed and the guard
    around the loop of job [j] never elapses, what follows for job [j] is
    exactly that one [done]. *)
Theorem cancel_seen_silences_job (hs : list Happening) (j seen : nat)
    (l1 l2 : list Entry) :
  snd (run JSON_parse stripNullsOf validate hs connection)
  = l1 ++ Checked j true seen :: l2 ->
  (forall e, In e (eventsOf j l2) -> e = EvDone false)
  /\ List.length (eventsOf j l2) <= 1
  /\ (~ In Closes hs ->
      ~ In (GuardElapses j) hs ->
      eventsOf j l2 = [EvDone false]).
Proof.
  intros E. destruct (@silence_from hs connection j seen l1 l2 connection_wf E)
    as [A B].
  repeat split.
  - intros e I.
    destruct (eventsOf j l2) as [|[| | | |[|]|] [|e' evs]];
      simpl in *; try discriminate; try contradiction.
    destruct I as [<-|[]]. reflexivity.
  - destruct (eventsOf j l2) as [|[| | | |[|]|] [|e' evs]];
      simpl in *; try discriminate; lia.
  - intros Hc Hg. apply B; [reflexivity| |assumption|assumption].
    intros t. discriminate.
Qed.

End Silence.

(** C2 on a run where the client cancels during the first repair call:
    the check at the top of attempt 2 sees the cancellation, and the only
    thing that follows for job 1 is [done] with [ok] false. *)
Lemma cancel_seen_silences_job_witness :
  (forall e,
      In e (eventsOf 1 [Sent (Job 1) (EvDone false)]) -> e = EvDone false)
  /\ List.length (eventsOf 1 [Sent (Job 1) (EvDone false)]) <= 1
  /\ (~ In Closes Fixture.canceledRun ->
      ~ In (GuardElapses 1) Fixture.canceledRun ->
      eventsOf 1 [Sent (Job 1) (EvDone false)] = [EvDone false]).
Proof.
  apply (@cancel_seen_silences_job Fixture.parse Fixture.keep Fixture.reject
           Fixture.canceledRun 1 1
           (firstn 11
              (snd (run Fixture.parse Fixture.keep Fixture.reject
                        Fixture.canceledRun connection)))
           [Sent (Job 1) (EvDone false)]).
  reflexivity.
Defined.

(** The run behind that witness, event by event: the status of the
    cancel handler is the session's own, and nothing but [done] follows
    the check for job 1. *)
Example canceled_run_wire :
  wire (snd (run Fixture.parse Fixture.keep Fixture.reject
                 Fixture.canceledRun connection))
  = [EvStatus received (js "Prompt received.") None;
     EvStatus translating (js "Starting translation to schema...") None;
     EvStatus validating (js "Validating schema (attempt 1)") None;
     EvStatus repair (js "Repairing (1/3): missing goal") None;
     EvStatus idle (js "Job canceled by client.") None;
     EvDone false].
Proof. reflexivity. Qed.

(** [canceled] is never cleared: after the canceled job of that run, the
    next prompt is stale at its first check, and all the client gets for
    job 2 is [done] with [ok] false. *)
Example next_job_after_cancel :
  let w := fst (run Fixture.parse Fixture.keep Fixture.reject
                    Fixture.canceledRun connection) in
  let r := step Fixture.parse Fixture.keep Fixture.accept
                (Receives (Prompt (Some (js "a second island"))) 9) w in
  busy (state (conn w)) = false
  /\ snd r = [Checked 2 true 2; Sent (Job 2) (EvDone false)]
  /\ pending (fst r) = [].
Proof. repeat split; reflexivity. Qed.

(* ================================================================== *)
(** ** Further properties: the message handler *)
(* ================================================================== *)

Section HandlerMore.

Variable JSON_parse : jsstring -> Parse.
Variable stripNullsOf : json -> json.
Variable validate : json -> Result json.

(** X1.  A cancel message sets [canceled] exactly when a job is in
    flight, and otherwise leaves it alone; either way it sets the stage
    to [idle] and sends one [idle] status (naming which of the two cases
    it was), and it never touches [busy], [lastJobId], the keepalive timer
    or the suspended jobs: it does not end the job. *)
Theorem cancel_marks_only (w : World) (now : N) :
  let r := step JSON_parse stripNullsOf validate (Receives Cancel now) w in
  let s := state (conn w) in
  fst r = {| conn := {| state := {| busy := busy s;
                                    canceled := canceled s || busy s;
                                    jobName := idle;
                                    lastJobId := lastJobId s;
                                    heartbeat := heartbeat s |};
                        readyState := readyState (conn w) |};
             pending := pending w |}
  /\ snd r
     = if isOpen (readyState (conn w))
       then [Sent Session
               (EvStatus idle
                  (if busy s then js "Job canceled by client."
                   else js "No active job to cancel.")
                  None)]
       else [].
Proof.
  destruct w as [[[b cn jn last hb] rs] p].
  unfold step, onMessage, bind, read, update, sendStatus, bind, send, ret.
  destruct b, cn, (isOpen rs) eqn:O; simpl; rewrite ?O; split; reflexivity.
Qed.

(** X2.  The messages that concern no job are answered at once and
    change nothing, whatever the connection is doing: a ping gets one
    [pong] with the time of the handler, a message that is not JSON and a
    message of an unknown type each get one error event.  On a socket
    that is not open nothing is sent. *)
Theorem jobless_messages_answered (w : World) (now : N) :
  step JSON_parse stripNullsOf validate (Receives Ping now) w
  = (w, if isOpen (readyState (conn w))
        then [Sent Session (EvPong now)] else [])
  /\ step JSON_parse stripNullsOf validate (Receives NotJSON now) w
     = (w, if isOpen (readyState (conn w))
           then [Sent Session
                   (EvError
                      (js "Design Server: Invalid JSON in message from client"))]
           else [])
  /\ step JSON_parse stripNullsOf validate (Receives UnknownType now) w
     = (w, if isOpen (readyState (conn w))
           then [Sent Session (EvError (js "Unknown message type."))]
           else []).
Proof.
  unfold step, onMessage, bind, send, ret.
  destruct (isOpen (readyState (conn w))); simpl; now rewrite world_eta.
Qed.

(** X3.  A modify message with a prompt but without [originalJson], or
    with one that is falsy ([null], [false], a zero, the empty string),
    received while no job is in flight, gets an error and [done] with [ok]
    false on an open socket; no job id is allocated and nothing else
    changes. *)
Theorem modify_without_original (w : World) (p : option jsstring)
    (original : option json) (now : N) :
  promptOf p <> [] ->
  noOriginal original = true ->
  busy (state (conn w)) = false ->
  isOpen (readyState (conn w)) = true ->
  step JSON_parse stripNullsOf validate (Receives (Modify p original) now) w
  = (w, [Sent Session (EvError (js "Missing 'originalJson'."));
         Sent Session (EvDone false)]).
Proof.
  intros Hp Hn Hb Ho.
  assert (E : isEmpty (promptOf p) = false)
    by (destruct (promptOf p); [congruence|reflexivity]).
  assert (M : missingOriginal (conn w)
              = (None, conn w,
                 [Sent Session (EvError (js "Missing 'originalJson'."));
                  Sent Session (EvDone false)])).
  { unfold missingOriginal, bind. rewrite !send_open by assumption.
    reflexivity. }
  unfold step, onMessage. rewrite E. unfold bind at 1. unfold read.
  rewrite Hb.
  destruct original as [previousJson|]; simpl in Hn.
  - apply negb_true_iff in Hn. rewrite Hn, M. simpl.
    now rewrite world_eta.
  - rewrite M. simpl. now rewrite world_eta.
Qed.

(** *** Which prompts count as missing *)

Lemma trimStart_empty_iff (s : jsstring) :
  trimStart s = [] <-> allWhite s = true.
Proof.
  induction s as [|c s IH]; simpl; [tauto|].
  destruct (isWhiteSpace c); simpl; [exact IH|].
  split; discriminate.
Qed.

Lemma trimStart_head (s : jsstring) (c : N) (rest : jsstring) :
  trimStart s = c :: rest -> isWhiteSpace c = false.
Proof.
  induction s as [|d s IH]; simpl; [discriminate|].
  destruct (isWhiteSpace d) eqn:W; [exact IH|].
  intros E. injection E as <- _. exact W.
Qed.

Lemma trimStart_suffix (s : jsstring) :
  exists pre, s = pre ++ trimStart s /\ allWhite pre = true.
Proof.
  induction s as [|c s (pre & E & W)]; simpl.
  - exists []. auto.
  - destruct (isWhiteSpace c) eqn:Wc.
    + exists (c :: pre). simpl. rewrite Wc, W. split; [|reflexivity].
      now rewrite <- E.
    + exists []. auto.
Qed.

Lemma allWhite_rev (s : jsstring) : allWhite (rev s) = allWhite s.
Proof.
  unfold allWhite. induction s as [|c s IH]; simpl; [reflexivity|].
  rewrite forallb_app, IH. simpl.
  destruct (isWhiteSpace c), (forallb isWhiteSpace s); reflexivity.
Qed.

Lemma trim_empty_iff (s : jsstring) : trim s = [] <-> allWhite s = true.
Proof.
  unfold trim, trimEnd. split.
  - intros E.
    assert (E1 : trimStart (rev (trimStart s)) = []).
    { destruct (trimStart (rev (trimStart s))) as [|x l]; [reflexivity|].
      simpl in E. now destruct (rev l). }
    apply trimStart_empty_iff in E1. rewrite allWhite_rev in E1.
    destruct (trimStart s) as [|c rest] eqn:T.
    + now apply trimStart_empty_iff.
    + apply trimStart_head in T. simpl in E1. now rewrite T in E1.
  - intros W. apply trimStart_empty_iff in W. now rewrite W.
Qed.

(** X4.  The handler takes a prompt for missing exactly when the field is
    absent or holds nothing but white space; a prompt it lets through
    neither begins nor ends with white space. *)
Theorem prompt_missing_iff (p : option jsstring) :
  (isEmpty (promptOf p) = true
   <-> (p = None \/ exists s, p = Some s /\ allWhite s = true))
  /\ (forall c rest,
         promptOf p = c :: rest ->
         isWhiteSpace c = false
         /\ isWhiteSpace (last (c :: rest) c) = false).
Proof.
  split.
  - assert (E : isEmpty (promptOf p) = true <-> promptOf p = [])
      by (destruct (promptOf p); simpl; split; congruence).
    rewrite E. unfold promptOf. destruct p as [s|].
    + rewrite trim_empty_iff. split.
      * intros W. right. exists s. auto.
      * intros [H|(s' & H & W)]; [discriminate|]. now injection H as ->.
    + split; [auto|reflexivity].
  - intros c rest E. unfold promptOf, trim, trimEnd in E.
    set (text := match p with Some s => s | None => [] end) in E.
    destruct (trimStart_suffix (rev (trimStart text))) as (pre & Er & Wp).
    destruct (trimStart (rev (trimStart text))) as [|x l] eqn:T;
      [discriminate E|].
    assert (Hx := trimStart_head _ T).
    simpl in E.
    assert (L : last (c :: rest) c = x).
    { rewrite <- E. now rewrite last_last. }
    split; [|now rewrite L].
    (* the first unit of the trimmed text is the first unit of
       [trimStart text] *)
    apply (f_equal (@rev N)) in Er. rewrite rev_involutive in Er.
    rewrite rev_app_distr in Er. simpl in Er. rewrite E in Er.
    simpl in Er. now apply (trimStart_head text (rest := rest ++ rev pre)).
Qed.

(** The step that takes a job in. *)
Lemma accepting_step (w : World) (k : JobKind) (p : option jsstring)
    (now : N) :
  promptOf p <> [] ->
  startable k = true ->
  busy (state (conn w)) = false ->
  canceled (state (conn w)) = false ->
  isOpen (readyState (conn w)) = true ->
  let id := S (lastJobId (state (conn w))) in
  step JSON_parse stripNullsOf validate (Receives (requestOf k p) now) w
  = ({| conn := {| state := {| busy := true;
                               canceled := false;
                               jobName := workStage (isModify k);
                               lastJobId := id;
                               heartbeat := heartbeat (state (conn w)) |};
                   readyState := readyState (conn w) |};
        pending := (id, InGeneration (isModify k)) :: drop id (pending w) |},
     [Checked id false id;
      Sent (Job id) (EvStatus received (js "Prompt received.") None);
      Sent (Job id)
           (EvStatus (workStage (isModify k)) (startMessage (isModify k))
                     None);
      Called id (generationCall k (promptOf p))]).
Proof.
  intros Hp Hk Hb Hc Ho id. subst id.
  assert (E : isEmpty (promptOf p) = false)
    by (destruct (promptOf p); [congruence|reflexivity]).
  destruct w as [[[b cn jn last hb] rs] pool]. simpl in *. subst b cn.
  destruct rs; try discriminate Ho.
  destruct k as [|previousJson]; unfold step, requestOf, onMessage;
    rewrite E; simpl in Hk; rewrite ?Hk;
    unfold bind, read, newJob, bind, update, read, startJob, bind, isStale,
      stale, setBusy, sendStatus, bind, send, update, note, ret;
    simpl; rewrite Nat.eqb_refl; reflexivity.
Qed.

(** X5.  A prompt message, or a modify message whose [originalJson] is
    truthy, with a prompt that is not blank, received on an open, idle
    and never canceled connection starts a job: [lastJobId]
    grows by one and names the job, [busy] is set, the stage is that of
    the job kind, the statuses [received] and [translating] (or
    [modifying]) are sent, and the generation service is called with the
    trimmed prompt (and, for a modify, the object the client sent). *)
Theorem job_accepted (w : World) (k : JobKind) (p : option jsstring)
    (now : N) :
  promptOf p <> [] ->
  startable k = true ->
  busy (state (conn w)) = false ->
  canceled (state (conn w)) = false ->
  isOpen (readyState (conn w)) = true ->
  let id := S (lastJobId (state (conn w))) in
  step JSON_parse stripNullsOf validate (Receives (requestOf k p) now) w
  = ({| conn := {| state := {| busy := true;
                               canceled := false;
                               jobName := workStage (isModify k);
                               lastJobId := id;
                               heartbeat := heartbeat (state (conn w)) |};
                   readyState := readyState (conn w) |};
        pending := (id, InGeneration (isModify k)) :: drop id (pending w) |},
     [Checked id false id;
      Sent (Job id) (EvStatus received (js "Prompt received.") None);
      Sent (Job id)
           (EvStatus (workStage (isModify k)) (startMessage (isModify k))
                     None);
      Called id (generationCall k (promptOf p))]).
Proof.
  intros Hp Hk Hb Hc Ho. exact (@accepting_step w k p now Hp Hk Hb Hc Ho).
Qed.

(** The step that turns a job away on a canceled connection. *)
Lemma refusing_step (w : World) (k : JobKind)
    (p : option jsstring) (now : N) :
  promptOf p <> [] ->
  startable k = true ->
  busy (state (conn w)) = false ->
  canceled (state (conn w)) = true ->
  isOpen (readyState (conn w)) = true ->
  let id := S (lastJobId (state (conn w))) in
  step JSON_parse stripNullsOf validate (Receives (requestOf k p) now) w
  = ({| conn := {| state := {| busy := false;
                               canceled := true;
                               jobName := idle;
                               lastJobId := id;
                               heartbeat := heartbeat (state (conn w)) |};
                   readyState := readyState (conn w) |};
        pending := pending w |},
     [Checked id true id; Sent (Job id) (EvDone false)]).
Proof.
  intros Hp Hk Hb Hc Ho id. subst id.
  assert (E : isEmpty (promptOf p) = false)
    by (destruct (promptOf p); [congruence|reflexivity]).
  destruct w as [[[b cn jn last hb] rs] pool]. simpl in *. subst b cn.
  destruct rs; try discriminate Ho.
  destruct k as [|previousJson]; unfold step, requestOf, onMessage;
    rewrite E; simpl in Hk; rewrite ?Hk;
    unfold bind, read, newJob, bind, update, read, startJob, cleanup, bind,
      isStale, stale, setBusy, send, update, read, ret;
    reflexivity.
Qed.

(** X6.  On an idle, open connection whose [canceled] flag is set, a
    prompt message, or a modify message whose [originalJson] is truthy,
    with a prompt that is not blank still allocates a job id, but the job
    is stale at its first check: the generation service is not called,
    [busy] stays clear, the flag stays set, and all that is sent is
    [done] with [ok] false. *)
Theorem job_on_canceled_connection (w : World) (k : JobKind)
    (p : option jsstring) (now : N) :
  promptOf p <> [] ->
  startable k = true ->
  busy (state (conn w)) = false ->
  canceled (state (conn w)) = true ->
  isOpen (readyState (conn w)) = true ->
  let id := S (lastJobId (state (conn w))) in
  step JSON_parse stripNullsOf validate (Receives (requestOf k p) now) w
  = ({| conn := {| state := {| busy := false;
                               canceled := true;
                               jobName := idle;
                               lastJobId := id;
                               heartbeat := heartbeat (state (conn w)) |};
                   readyState := readyState (conn w) |};
        pending := pending w |},
     [Checked id true id; Sent (Job id) (EvDone false)]).
Proof.
  intros Hp Hk Hb Hc Ho. exact (@refusing_step w k p now Hp Hk Hb Hc Ho).
Qed.

End HandlerMore.

(* ================================================================== *)
(** ** Further properties: every run of the event loop *)
(* ================================================================== *)

Section RunMore.

Variable JSON_parse : jsstring -> Parse.
Variable stripNullsOf : json -> json.
Variable validate : json -> Result json.

Ltac crack c jobId :=
  let b := fresh "b" in
  let cn := fresh "cn" in
  let jn := fresh "jn" in
  let last := fresh "last" in
  let hb := fresh "hb" in
  let r := fresh "r" in
  destruct c as [[b cn jn last hb] r]; destruct cn; destruct r.

Ltac use_result :=
  repeat match goal with
         | H : _ \/ _ |- _ => destruct H
         | H : False |- _ => contradiction
         | H : EvResult _ _ = EvResult _ _ |- _ => injection H as <- <-
         | H : _ = EvResult _ _ |- _ => discriminate H
         end;
  repeat match goal with
         | V : validate _ = Success _ |- _ => rewrite V
         end.

Ltac decide_ids :=
  repeat match goal with
         | H : context [?a =? ?b] |- _ =>
             destruct (Nat.eqb_spec a b); simpl in H
         | |- context [?a =? ?b] => destruct (Nat.eqb_spec a b); simpl
         end.

Ltac close_more :=
  unfold segmentMore, dones; simpl; decide_ids; repeat split; intros;
  repeat (progress (simpl in *; decide_ids; subst));
  use_result;
  try reflexivity; try discriminate; try lia; try congruence;
  try (left; reflexivity); try (right; reflexivity);
  try (split; reflexivity).

#[local] Opaque lit.

Lemma startJob_more (k : JobKind) (jobId : nat) (prompt : jsstring)
    (c : Conn) :
  segmentMore validate jobId true c (startJob k jobId prompt c).
Proof.
  crack c jobId;
    unfold startJob, cleanup, bind, isStale, stale, setBusy, sendStatus,
      bind, send, update, read, note, ret; simpl;
    close_more.
Qed.

Lemma continueLoop_more (g is_modify : bool) (jobId attempt : nat)
    (current : json) (c : Conn) :
  segmentMore validate jobId g c
    (continueLoop validate g is_modify jobId attempt current c).
Proof.
  unfold continueLoop, loopBody, json_is_schema_valid.
  destruct (attempt <=? maxAttempts); destruct (validate current) eqn:V;
    destruct (attempt =? maxAttempts); destruct g;
    crack c jobId;
    unfold loopReturns, afterLoop, resultEvent, cleanup, bind, isStale,
      stale, setBusy, sendStatus, bind, send, update, read, note, ret;
    simpl; destruct is_modify;
    close_more.
Qed.

Lemma afterGeneration_more (is_modify : bool) (jobId : nat)
    (outcome : Settled (Result json)) (c : Conn) :
  segmentMore validate jobId true c
    (afterGeneration validate is_modify jobId outcome c).
Proof.
  unfold afterGeneration, continueLoop, loopBody, json_is_schema_valid.
  destruct outcome as [[data|message]|message];
    try destruct (validate data) eqn:V;
    crack c jobId;
    unfold sendError, loopReturns, afterLoop, resultEvent, cleanup, bind,
      isStale, stale, setBusy, sendStatus, bind, send, update, read, note,
      ret;
    simpl; destruct is_modify;
    close_more.
Qed.

Lemma resumeRepair_more (g is_modify : bool) (jobId attempt : nat)
    (current : json) (repair_result : Settled (Result json)) (c : Conn) :
  segmentMore validate jobId g c
    (resumeRepair g is_modify jobId attempt current repair_result c).
Proof.
  unfold resumeRepair, afterRepair.
  destruct repair_result as [[data|message]|message]; destruct g;
    crack c jobId;
    unfold loopReturns, afterLoop, cleanup, bind, setBusy, send, update,
      read, ret; simpl;
    close_more.
Qed.

Lemma startJob_some (k : JobKind) (jobId : nat) (prompt : jsstring)
    (c : Conn) (t : Suspended) :
  fst (fst (startJob k jobId prompt c)) = Some t ->
  busy (state (snd (fst (startJob k jobId prompt c)))) = true.
Proof.
  crack c jobId;
    unfold startJob, cleanup, bind, isStale, stale, setBusy, sendStatus,
      bind, send, update, read, note, ret; simpl;
    destruct (jobId =? last); simpl; congruence.
Qed.

Lemma guardRejects_exact (jobId : nat) (t : Suspended) (c : Conn) :
  (guardRejects jobId ;; ret (Some t)) c
  = (Some t,
     withState (fun s => setJobName idle (withBusy false s)) c,
     if isOpen (readyState c)
     then [Sent (Job jobId) (EvError (js "Operation timed out"));
           Sent (Job jobId) (EvDone false);
           Sent (Job jobId) (EvDone (negb (canceled (state c))))]
     else []).
Proof.
  destruct c as [s []];
    unfold guardRejects, sendError, cleanup, bind, setBusy, send, update,
      read, ret; reflexivity.
Qed.

(** The message handler answers on its own account, or, the connection
    not being busy, starts a job. *)
Lemma onMessage_split (msg : Inbound) (now : N) (c : Conn) :
  let r := onMessage msg now c in
  (fst (fst r) = None /\ handlerFacts c (snd (fst r)) (snd r))
  \/ exists kind prompt,
       busy (state c) = false
       /\ let k := S (lastJobId (state c)) in
          let s := startJob kind k prompt
                     (withState (fun s => setLastJobId (S (lastJobId s)) s)
                                c) in
          fst (fst r)
          = match fst (fst s) with Some t => Some (k, t) | None => None end
          /\ snd (fst r) = snd (fst s)
          /\ snd r = snd s.
Proof.
  cbv zeta.
  destruct msg as [| | |p|p original| |]; unfold onMessage; cbv zeta.
  - left. destruct c as [s []]; unfold handlerFacts;
      repeat split; auto; discriminate.
  - left. destruct c as [s []]; unfold handlerFacts;
      repeat split; auto; discriminate.
  - left. destruct c as [[[] cn jn last hb] []]; unfold handlerFacts;
      repeat split; auto; discriminate.
  - destruct (isEmpty (promptOf p));
      [left; destruct c as [s []]; unfold handlerFacts;
       repeat split; auto; discriminate|].
    destruct (busy (state c)) eqn:B.
    + left. unfold bind, read. rewrite B.
      destruct c as [s []]; unfold handlerFacts; simpl in *;
        repeat split; auto; discriminate.
    + right. exists Translation, (promptOf p). split; [reflexivity|].
      unfold bind, read. rewrite B.
      unfold newJob, bind, update, read, ret. simpl.
      destruct (startJob Translation (S (lastJobId (state c)))
                  (promptOf p)
                  (withState (fun s => setLastJobId (S (lastJobId s)) s)
                             c)) as [[t c1] l1].
      simpl. now rewrite app_nil_r.
  - destruct (isEmpty (promptOf p));
      [left; destruct c as [s []]; unfold handlerFacts;
       repeat split; auto; discriminate|].
    destruct (busy (state c)) eqn:B.
    + left. unfold bind, read. rewrite B.
      destruct c as [s []]; unfold handlerFacts; simpl in *;
        repeat split; auto; discriminate.
    + destruct original as [previousJson|];
        [destruct (toBoolean previousJson)|].
      * right. exists (Modification previousJson), (promptOf p).
        split; [reflexivity|].
        unfold bind, read. rewrite B.
        unfold newJob, bind, update, read, ret. simpl.
        destruct (startJob (Modification previousJson)
                    (S (lastJobId (state c))) (promptOf p)
                    (withState
                       (fun s => setLastJobId (S (lastJobId s)) s) c))
          as [[t c1] l1].
        simpl. now rewrite app_nil_r.
      * left. unfold bind, read. rewrite B.
        destruct c as [s []]; unfold handlerFacts; simpl in *;
          repeat split; auto; discriminate.
      * left. unfold bind, read. rewrite B.
        destruct c as [s []]; unfold handlerFacts; simpl in *;
          repeat split; auto; discriminate.
  - left. destruct c as [s []]; unfold handlerFacts;
      repeat split; auto; discriminate.
  - left. destruct c as [s []]; unfold handlerFacts;
      repeat split; auto; discriminate.
Qed.

Lemma handlerFacts_refl (c : Conn) : handlerFacts c c [].
Proof. unfold handlerFacts. repeat split; auto. Qed.

(** What one step of the event loop can be: a handler that starts no job
    (or nothing at all), the start of a job, the resumption of a suspended
    activation, or the guard of a job rejecting. *)
Lemma step_cases (h : Happening) (w : World) :
  (exists c' d,
      step JSON_parse stripNullsOf validate h w
      = ({| conn := c'; pending := pending w |}, d)
      /\ handlerFacts (conn w) c' d)
  \/ (exists kind prompt,
         busy (state (conn w)) = false
         /\ let k := S (lastJobId (state (conn w))) in
            let s := startJob kind k prompt
                       (withState
                          (fun s => setLastJobId (S (lastJobId s)) s)
                          (conn w)) in
            step JSON_parse stripNullsOf validate h w
            = ({| conn := snd (fst s);
                  pending := match fst (fst s) with
                             | Some t => settle k (Some t) (pending w)
                             | None => pending w
                             end |}, snd s))
  \/ (exists k t0 m,
         lookup k (pending w) = Some t0
         /\ step JSON_parse stripNullsOf validate h w = resume k m w
         /\ segmentOk k (isGuarded t0) (conn w) (m (conn w))
         /\ segmentMore validate k (isGuarded t0) (conn w) (m (conn w)))
  \/ (exists k t0,
         lookup k (pending w) = Some t0
         /\ isGuarded t0 = true
         /\ isGuarded (unguard t0) = false
         /\ step JSON_parse stripNullsOf validate h w
            = resume k (guardRejects k ;; ret (Some (unguard t0))) w).
Proof.
  assert (Noop : exists c' d,
             (w, @nil Entry) = ({| conn := c'; pending := pending w |}, d)
             /\ handlerFacts (conn w) c' d).
  { exists (conn w), []. rewrite world_eta. split; [reflexivity|].
    apply handlerFacts_refl. }
  destruct h as [msg now| | | |k a|k|k]; unfold step.
  - destruct (onMessage_split msg now (conn w))
      as [(E1 & F)|(kind & prompt & B & E1 & E2 & E3)]; cbv zeta in *.
    + left. destruct (onMessage msg now (conn w)) as [[started c] d].
      simpl in *. subst started. exists c, d. auto.
    + right. left. exists kind, prompt. split; [assumption|]. cbv zeta.
      destruct (onMessage msg now (conn w)) as [[started c] d].
      simpl in *. subst started c d.
      now destruct (fst (fst (startJob kind (S (lastJobId (state (conn w))))
                                prompt
                                (withState
                                   (fun s => setLastJobId (S (lastJobId s)) s)
                                   (conn w))))).
  - left. unfold handler.
    destruct (onClose (conn w)) as [[u c] d] eqn:E. exists c, d.
    split; [reflexivity|].
    destruct (conn w) as [[b cn jn last hb] rs]. injection E as _ <- <-.
    unfold handlerFacts. simpl. repeat split; auto; discriminate.
  - left. unfold handler.
    destruct (onError (conn w)) as [[u c] d] eqn:E. exists c, d.
    split; [reflexivity|].
    destruct (conn w) as [[b cn jn last hb] rs]. injection E as _ <- <-.
    unfold handlerFacts. simpl. repeat split; auto.
  - left. unfold handler.
    destruct (onHeartbeat (conn w)) as [[u c] d] eqn:E. exists c, d.
    split; [reflexivity|].
    destruct (conn w) as [[b cn jn last [|]] []]; injection E as _ <- <-;
      unfold handlerFacts; simpl; repeat split; auto; discriminate.
  - destruct (lookup k (pending w))
      as [[im|g im n cur|g im n cur]|] eqn:L; try (left; exact Noop).
    + right. right. left.
      exists k, (InGeneration im),
        (afterGeneration validate im k
           (guardedCall JSON_parse stripNullsOf a)).
      split; [exact L|]. split; [reflexivity|].
      split; [apply afterGeneration_ok|apply afterGeneration_more].
    + right. right. left.
      exists k, (InRepair g im n cur),
        (resumeRepair g im k n cur (guardedCall JSON_parse stripNullsOf a)).
      split; [exact L|]. split; [reflexivity|].
      split; [apply resumeRepair_ok|apply resumeRepair_more].
  - destruct (lookup k (pending w))
      as [[im|g im n cur|g im n cur]|] eqn:L; try (left; exact Noop).
    right. right. left.
    exists k, (InSleep g im n cur),
      (continueLoop validate g im k (S n) cur).
    split; [exact L|]. split; [reflexivity|].
    split; [apply continueLoop_ok|apply continueLoop_more].
  - destruct (lookup k (pending w))
      as [[im|[|] im n cur|[|] im n cur]|] eqn:L; try (left; exact Noop).
    + right. right. right. exists k, (InRepair true im n cur).
      repeat split; try reflexivity; assumption.
    + right. right. right. exists k, (InSleep true im n cur).
      repeat split; try reflexivity; assumption.
Qed.

End RunMore.


(* ================================================================== *)
(** ** Further properties: invariants of the connection *)
(* ================================================================== *)

Section Invariants.

Variable JSON_parse : jsstring -> Parse.
Variable stripNullsOf : json -> json.
Variable validate : json -> Result json.

Lemma wire_app (a b : list Entry) : wire (a ++ b) = wire a ++ wire b.
Proof.
  induction a as [|e a IH]; simpl; [reflexivity|].
  destruct e; simpl; now rewrite ?IH.
Qed.

Lemma resume_parts (k : nat) (m : M (option Suspended)) (w : World) :
  resume k m w
  = ({| conn := snd (fst (m (conn w)));
        pending := settle k (fst (fst (m (conn w)))) (pending w) |},
     snd (m (conn w))).
Proof. unfold resume. now destruct (m (conn w)) as [[t c] d]. Qed.

(** One step never clears [canceled], never lowers [lastJobId], and
    never re-arms the keepalive or reopens the socket. *)
Lemma step_sticky (h : Happening) (w : World) :
  let w' := fst (step JSON_parse stripNullsOf validate h w) in
  (canceled (state (conn w)) = true -> canceled (state (conn w')) = true)
  /\ lastJobId (state (conn w)) <= lastJobId (state (conn w'))
  /\ (heartbeat (state (conn w)) = false ->
      heartbeat (state (conn w')) = false)
  /\ (isOpen (readyState (conn w)) = false ->
      isOpen (readyState (conn w')) = false
      /\ wire (snd (step JSON_parse stripNullsOf validate h w)) = []).
Proof.
  cbv zeta.
  destruct (step_cases JSON_parse stripNullsOf validate h w)
    as [(c' & d & E & F)
       |[(kind & prompt & B & E)
        |[(k & t0 & m & L & E & So & Sm)
         |(k & t0 & L & G & U & E)]]]; cbv zeta in *; rewrite E; clear E.
  - destruct F as (F1 & F2 & F3 & F4 & F5 & F6 & F7). simpl.
    repeat split; auto.
    + rewrite F2. apply le_n.
    + destruct (isOpen (readyState c')); [|reflexivity].
      rewrite (F4 eq_refl) in H. discriminate.
    + rewrite F7; auto.
  - pose proof (startJob_ok kind (S (lastJobId (state (conn w)))) prompt
                  (withState (fun s => setLastJobId (S (lastJobId s)) s)
                             (conn w))) as So.
    pose proof (startJob_more validate kind
                  (S (lastJobId (state (conn w)))) prompt
                  (withState (fun s => setLastJobId (S (lastJobId s)) s)
                             (conn w))) as Sm.
    destruct So as (O1 & O2 & _).
    destruct Sm as (M1 & M2 & _ & _ & _ & M6 & _).
    simpl in *. rewrite M1, M2, O1, O2. repeat split; auto.
  - rewrite resume_parts.
    destruct So as (O1 & O2 & _).
    destruct Sm as (M1 & M2 & _ & _ & _ & M6 & _).
    simpl. rewrite M1, M2, O1, O2. repeat split; auto.
  - rewrite resume_parts, guardRejects_exact. simpl.
    repeat split; auto.
    destruct (isOpen (readyState (conn w))); [discriminate|reflexivity].
Qed.

Lemma run_sticky (hs : list Happening) :
  forall w : World,
    let w' := fst (run JSON_parse stripNullsOf validate hs w) in
    (canceled (state (conn w)) = true -> canceled (state (conn w')) = true)
    /\ lastJobId (state (conn w)) <= lastJobId (state (conn w'))
    /\ (heartbeat (state (conn w)) = false ->
        heartbeat (state (conn w')) = false)
    /\ (isOpen (readyState (conn w)) = false ->
        isOpen (readyState (conn w')) = false
        /\ wire (snd (run JSON_parse stripNullsOf validate hs w)) = []).
Proof.
  induction hs as [|h hs IH]; intros w; cbv zeta.
  - simpl. repeat split; auto.
  - rewrite run_cons. cbn [fst snd].
    destruct (step_sticky h w) as (S1 & S2 & S3 & S4).
    destruct (IH (fst (step JSON_parse stripNullsOf validate h w)))
      as (R1 & R2 & R3 & R4).
    cbv zeta in *. repeat split; auto.
    + lia.
    + apply R4. now apply S4.
    + rewrite wire_app. destruct (S4 H) as [C ->].
      destruct (R4 C) as [_ ->]. reflexivity.
Qed.

(** X7.  Once [canceled] is set on a connection, no later job is served:
    whatever happens next, a prompt message, or a modify message whose
    [originalJson] is truthy, with a prompt that is not blank, received
    on the then idle, open connection gets a job id and, for that job,
    nothing but [done] with [ok] false. *)
Theorem canceled_connection_serves_no_job (w : World)
    (hs : list Happening) (k : JobKind) (p : option jsstring) (now : N) :
  canceled (state (conn w)) = true ->
  let w1 := fst (run JSON_parse stripNullsOf validate hs w) in
  promptOf p <> [] ->
  startable k = true ->
  busy (state (conn w1)) = false ->
  isOpen (readyState (conn w1)) = true ->
  let id := S (lastJobId (state (conn w1))) in
  snd (step JSON_parse stripNullsOf validate (Receives (requestOf k p) now)
            w1)
  = [Checked id true id; Sent (Job id) (EvDone false)].
Proof.
  intros C w1 Hp Hk Hb Ho id.
  assert (C1 : canceled (state (conn w1)) = true)
    by (now apply (run_sticky hs w)).
  subst id.
  now rewrite (@refusing_step JSON_parse stripNullsOf validate
                 w1 k p now Hp Hk Hb C1 Ho).
Qed.

(** X8.  Job ids only grow: no run of the event loop lowers
    [lastJobId], so the id given to a new job ([lastJobId] plus one) is
    larger than every id given before. *)
Theorem job_ids_only_grow (hs : list Happening) (w : World) :
  lastJobId (state (conn w))
  <= lastJobId (state (conn (fst (run JSON_parse stripNullsOf validate
                                      hs w)))).
Proof. apply (run_sticky hs w). Qed.

(** X9.  After ['close'] nothing is written to the socket any more,
    whatever the suspended jobs, the timers and the handlers go on to do;
    the handler itself sends nothing, sets [canceled] and stops the
    keepalive, and neither is undone. *)
Theorem closed_socket_stays_silent (w : World) (hs : list Happening) :
  let w1 := fst (step JSON_parse stripNullsOf validate Closes w) in
  let r := run JSON_parse stripNullsOf validate hs w1 in
  snd (step JSON_parse stripNullsOf validate Closes w) = []
  /\ wire (snd r) = []
  /\ readyState (conn w1) = CLOSED
  /\ canceled (state (conn (fst r))) = true
  /\ heartbeat (state (conn (fst r))) = false.
Proof.
  cbv zeta.
  destruct (run_sticky hs (fst (step JSON_parse stripNullsOf validate
                                     Closes w)))
    as (R1 & _ & R3 & R4).
  cbv zeta in *.
  assert (E : step JSON_parse stripNullsOf validate Closes w
              = ({| conn := {| state := setCanceled true
                                          (setHeartbeat false
                                             (state (conn w)));
                               readyState := CLOSED |};
                    pending := pending w |}, [])) by reflexivity.
  rewrite E in *. simpl in *.
  repeat split; auto. now apply R4.
Qed.

(** *** One job in flight *)

Lemma step_singleFlight (h : Happening) (w : World) :
  singleFlight w ->
  singleFlight (fst (step JSON_parse stripNullsOf validate h w)).
Proof.
  intros [P1 P2].
  destruct (step_cases JSON_parse stripNullsOf validate h w)
    as [(c' & d & E & F)
       |[(kind & prompt & B & E)
        |[(k & t0 & m & L & E & So & Sm)
         |(k & t0 & L & G & U & E)]]]; cbv zeta in *; rewrite E; clear E.
  - destruct F as (F1 & F2 & _). unfold singleFlight. simpl.
    rewrite F1, F2. split; assumption.
  - pose proof (startJob_ok kind (S (lastJobId (state (conn w)))) prompt
                  (withState (fun s => setLastJobId (S (lastJobId s)) s)
                             (conn w))) as So.
    pose proof (startJob_more validate kind
                  (S (lastJobId (state (conn w)))) prompt
                  (withState (fun s => setLastJobId (S (lastJobId s)) s)
                             (conn w))) as Sm.
    pose proof (@startJob_some kind (S (lastJobId (state (conn w)))) prompt
                  (withState (fun s => setLastJobId (S (lastJobId s)) s)
                             (conn w))) as Ss.
    destruct So as (O1 & _ & _ & _ & _ & _ & O7).
    destruct Sm as (_ & _ & _ & _ & M5 & _).
    set (k := S (lastJobId (state (conn w)))) in *.
    destruct (startJob kind k prompt
                (withState (fun s => setLastJobId (S (lastJobId s)) s)
                           (conn w))) as [[t c1] d1].
    cbn [fst snd] in *.
    assert (O1' : lastJobId (state c1) = k) by exact O1.
    assert (NoG : forall id t1,
               lookup id (pending w) = Some t1 -> isGuarded t1 = true ->
               False).
    { intros id t1 L1 G1. destruct (P1 _ _ L1 G1) as [_ Hb]. congruence. }
    unfold singleFlight. cbn [fst snd conn pending]. rewrite O1'.
    destruct t as [t|].
    + split.
      * intros id t1. rewrite lookup_settle.
        destruct (Nat.eqb_spec k id) as [<-|Hk].
        -- intros _ _. split; [reflexivity|]. now apply (Ss t).
        -- intros L1 G1. destruct (NoG _ _ L1 G1).
      * intros _. exists t. rewrite lookup_settle, Nat.eqb_refl.
        split; [reflexivity|]. now apply O7.
    + split.
      * intros id t1 L1 G1. destruct (NoG _ _ L1 G1).
      * intros Hb. rewrite (M5 eq_refl eq_refl) in Hb. discriminate.
  - rewrite resume_parts.
    destruct So as (O1 & _ & _ & _ & _ & _ & O7).
    destruct Sm as (_ & _ & M3 & M4 & M5 & _).
    destruct (m (conn w)) as [[r c1] d1]. simpl in *.
    unfold singleFlight. simpl. rewrite O1. split.
    + intros id t1. rewrite lookup_settle.
      destruct (Nat.eqb_spec k id) as [<-|Hk].
      * intros -> G1. rewrite (O7 _ eq_refl) in G1.
        destruct (P1 _ _ L G1) as [-> Hb]. split; [reflexivity|].
        destruct (M4 _ eq_refl) as [Q|Q]; congruence.
      * intros L1 G1. destruct (P1 _ _ L1 G1) as [-> Hb].
        split; [reflexivity|].
        destruct (isGuarded t0) eqn:G0.
        -- destruct (P1 _ _ L G0) as [Hk' _]. congruence.
        -- rewrite (M3 eq_refl). exact Hb.
    + intros Hb. rewrite lookup_settle.
      destruct (isGuarded t0) eqn:G0.
      * destruct (P1 _ _ L G0) as [-> Hb0]. rewrite Nat.eqb_refl.
        destruct r as [t1|].
        -- exists t1. split; [reflexivity|]. now apply O7.
        -- rewrite (M5 eq_refl eq_refl) in Hb. discriminate.
      * rewrite (M3 eq_refl) in Hb. destruct (P2 Hb) as (t1 & L1 & G1).
        destruct (Nat.eqb_spec k (lastJobId (state (conn w)))) as [->|Hk].
        -- congruence.
        -- exists t1. auto.
  - rewrite resume_parts, guardRejects_exact. cbn [fst snd].
    destruct (P1 _ _ L G) as [-> Hb].
    unfold singleFlight. cbn [conn pending]. split.
    + intros id t1. rewrite lookup_settle.
      destruct (Nat.eqb_spec (lastJobId (state (conn w))) id) as [<-|Hk].
      * intros T G1. injection T as <-. congruence.
      * intros L1 G1. destruct (P1 _ _ L1 G1) as [-> _]. congruence.
    + discriminate.
Qed.

(** X10.  One job in flight.  In every state a connection can reach,
    [busy] is set exactly when some job is still awaited by its [runJob];
    there is at most one such job, and it is the job [lastJobId]. *)
Theorem one_job_in_flight (hs : list Happening) :
  let w := fst (run JSON_parse stripNullsOf validate hs connection) in
  (busy (state (conn w)) = true
   <-> exists id t, lookup id (pending w) = Some t /\ isGuarded t = true)
  /\ (forall id t,
         lookup id (pending w) = Some t -> isGuarded t = true ->
         id = lastJobId (state (conn w))).
Proof.
  cbv zeta.
  assert (SF : forall hs w,
             singleFlight w ->
             singleFlight (fst (run JSON_parse stripNullsOf validate hs w))).
  { clear hs. induction hs as [|h hs IH]; intros w W; [exact W|].
    rewrite run_cons. cbn [fst]. apply IH. now apply step_singleFlight. }
  assert (S0 : singleFlight connection).
  { split; [intros id t; discriminate|discriminate]. }
  destruct (SF hs _ S0) as [P1 P2]. split; [split|].
  - intros Hb. destruct (P2 Hb) as (t & L & G). eauto.
  - intros (id & t & L & G). now destruct (P1 _ _ L G).
  - intros id t L G. now destruct (P1 _ _ L G).
Qed.

(** *** The [done] events of a job *)

Lemma dones_nil (j : nat) (d : list Entry) :
  eventsOf j d = [] -> dones j d = 0.
Proof. unfold dones. now intros ->. Qed.

Lemma dones_app (j : nat) (a b : list Entry) :
  dones j (a ++ b) = dones j a + dones j b.
Proof.
  unfold dones. now rewrite eventsOf_app, filter_app, length_app.
Qed.

Lemma awaited_same (j : nat) (w w' : World) :
  lastJobId (state (conn w')) = lastJobId (state (conn w)) ->
  lookup j (pending w') = lookup j (pending w) ->
  awaited j w' = awaited j w.
Proof. unfold awaited. now intros -> ->. Qed.

Lemma guard_log_other (j k : nat) (c : Conn) :
  j <> k ->
  eventsOf j
    (if isOpen (readyState c)
     then [Sent (Job k) (EvError (js "Operation timed out"));
           Sent (Job k) (EvDone false);
           Sent (Job k) (EvDone (negb (canceled (state c))))]
     else []) = [].
Proof.
  intros N. destruct (isOpen (readyState c)); simpl; [|reflexivity].
  destruct (Nat.eqb_spec k j); [congruence|reflexivity].
Qed.

Lemma step_dones (h : Happening) (w : World) (j : nat) :
  wf w ->
  let r := step JSON_parse stripNullsOf validate h w in
  dones j (snd r) <= 2
  /\ (awaited j w = false ->
      awaited j (fst r) = false /\ dones j (snd r) = 0)
  /\ (0 < dones j (snd r) -> awaited j (fst r) = false)
  /\ (isOpen (readyState (conn w)) = true ->
      awaited j w = true -> awaited j (fst r) = false ->
      1 <= dones j (snd r)).
Proof.
  intros W. cbv zeta.
  destruct (step_cases JSON_parse stripNullsOf validate h w)
    as [(c' & d & E & F)
       |[(kind & prompt & B & E)
        |[(k & t0 & m & L & E & So & Sm)
         |(k & t0 & L & G & U & E)]]]; cbv zeta in *; rewrite E; clear E;
    cbn [fst snd].
  - destruct F as (_ & F2 & _ & _ & _ & F6 & _).
    assert (A : awaited j {| conn := c'; pending := pending w |}
                = awaited j w)
      by (apply awaited_same; [exact F2|reflexivity]).
    rewrite A, (dones_nil j d (sessionOnly_events j d F6)).
    repeat split; auto; try lia. congruence.
  - pose proof (startJob_ok kind (S (lastJobId (state (conn w)))) prompt
                  (withState (fun s => setLastJobId (S (lastJobId s)) s)
                             (conn w))) as So.
    pose proof (startJob_more validate kind
                  (S (lastJobId (state (conn w)))) prompt
                  (withState (fun s => setLastJobId (S (lastJobId s)) s)
                             (conn w))) as Sm.
    destruct So as (O1 & O2 & O3 & _ & _ & _ & O7).
    destruct Sm as (_ & _ & _ & _ & _ & _ & M7 & _ & M9 & M10 & _).
    set (k := S (lastJobId (state (conn w)))) in *.
    destruct (startJob kind k prompt
                (withState (fun s => setLastJobId (S (lastJobId s)) s)
                           (conn w))) as [[t c1] d1].
    cbn [fst snd] in *.
    assert (O1' : lastJobId (state c1) = k) by exact O1.
    assert (Fk : lookup k (pending w) = None).
    { destruct (lookup k (pending w)) eqn:Lk; [|reflexivity].
      apply W in Lk. subst k. lia. }
    assert (P : forall i,
               lookup i (match t with
                         | Some t => settle k (Some t) (pending w)
                         | None => pending w
                         end)
               = if k =? i then t else lookup i (pending w)).
    { intros i. destruct t as [t|].
      - now rewrite lookup_settle.
      - destruct (Nat.eqb_spec k i) as [<-|_]; [exact Fk|reflexivity]. }
    assert (Aw' : awaited j
                    {| conn := c1;
                       pending := match t with
                                  | Some t => settle k (Some t) (pending w)
                                  | None => pending w
                                  end |}
                  = (k <? j)
                    || match (if k =? j then t else lookup j (pending w)) with
                       | Some t => isGuarded t
                       | None => false
                       end)
      by (unfold awaited; cbn [conn pending]; now rewrite O1', P).
    rewrite Aw'. clear Aw'.
    destruct (Nat.eqb_spec k j) as [<-|Hk].
    + rewrite Nat.ltb_irrefl. cbn [orb].
      assert (Aw : awaited k w = true).
      { unfold awaited. replace (lastJobId (state (conn w)) <? k) with true;
          [reflexivity|]. symmetry. apply Nat.ltb_lt. subst k. lia. }
      rewrite Aw. repeat split; try assumption; try discriminate.
      * intros D. now rewrite (M9 D).
      * intros Ho _ T. apply M10; [reflexivity|exact Ho|].
        destruct t as [t|]; [|reflexivity].
        rewrite (O7 _ eq_refl) in T. discriminate.
    + rewrite (dones_nil j d1 (O3 j (fun e => Hk (eq_sym e)))).
      unfold awaited.
      destruct (Nat.ltb_spec (lastJobId (state (conn w))) j) as [Lt|Ge].
      * replace (k <? j) with true
          by (symmetry; apply Nat.ltb_lt; subst k; lia).
        cbn [orb]. repeat split; try lia; discriminate.
      * replace (k <? j) with false
          by (symmetry; apply Nat.ltb_ge; subst k; lia).
        cbn [orb]. repeat split; try lia; auto. congruence.
  - rewrite resume_parts. cbn [fst snd].
    destruct So as (O1 & O2 & O3 & _ & _ & _ & O7).
    destruct Sm as (_ & _ & _ & _ & _ & _ & M7 & M8 & M9 & M10 & _).
    destruct (m (conn w)) as [[r c1] d1]. cbn [fst snd] in *.
    assert (Kl : k <= lastJobId (state (conn w))) by exact (W _ _ L).
    destruct (Nat.eq_dec k j) as [<-|Hk].
    + assert (Aw : awaited k w = isGuarded t0).
      { unfold awaited. rewrite L.
        replace (lastJobId (state (conn w)) <? k) with false;
          [reflexivity|]. symmetry. apply Nat.ltb_ge. exact Kl. }
      assert (Aw' : awaited k {| conn := c1;
                                 pending := settle k r (pending w) |}
                    = match r with Some t => isGuarded t | None => false end).
      { unfold awaited. cbn [conn pending].
        rewrite lookup_settle, Nat.eqb_refl, O1.
        replace (lastJobId (state (conn w)) <? k) with false;
          [reflexivity|]. symmetry. apply Nat.ltb_ge. exact Kl. }
      rewrite Aw, Aw'. repeat split; try assumption.
      * destruct r as [t|]; [|reflexivity].
        rewrite (O7 _ eq_refl). assumption.
      * now apply M8.
      * intros D. now rewrite (M9 D).
      * intros Ho G T. apply M10; try assumption.
        destruct r as [t|]; [|reflexivity].
        rewrite (O7 _ eq_refl) in T. congruence.
    + assert (A : awaited j {| conn := c1;
                               pending := settle k r (pending w) |}
                  = awaited j w).
      { apply awaited_same; [exact O1|]. cbn [pending].
        rewrite lookup_settle.
        destruct (Nat.eqb_spec k j); [contradiction|reflexivity]. }
      rewrite A, (dones_nil j d1 (O3 j (fun e => Hk (eq_sym e)))).
      repeat split; auto; try lia. congruence.
  - rewrite resume_parts, guardRejects_exact. cbn [fst snd].
    assert (Kl : k <= lastJobId (state (conn w))) by exact (W _ _ L).
    destruct (Nat.eq_dec k j) as [<-|Hk].
    + assert (Aw : awaited k w = true).
      { unfold awaited. rewrite L, G. apply orb_true_r. }
      assert (Aw' : awaited k
                      {| conn := withState
                                   (fun s => setJobName idle (withBusy false s))
                                   (conn w);
                         pending := settle k (Some (unguard t0)) (pending w) |}
                    = false).
      { unfold awaited. cbn [conn pending].
        rewrite lookup_settle, Nat.eqb_refl, U.
        replace (lastJobId
                   (state (withState
                             (fun s => setJobName idle (withBusy false s))
                             (conn w))) <? k) with false; [reflexivity|].
        symmetry. apply Nat.ltb_ge. exact Kl. }
      rewrite Aw, Aw'.
      destruct (isOpen (readyState (conn w))); unfold dones; simpl;
        rewrite ?Nat.eqb_refl; simpl;
        repeat split; auto; try lia; try discriminate.
    + assert (A : awaited j
                    {| conn := withState
                                 (fun s => setJobName idle (withBusy false s))
                                 (conn w);
                       pending := settle k (Some (unguard t0)) (pending w) |}
                  = awaited j w).
      { apply awaited_same; [reflexivity|]. cbn [pending].
        rewrite lookup_settle.
        destruct (Nat.eqb_spec k j); [contradiction|reflexivity]. }
      rewrite A, (dones_nil j _ (guard_log_other (conn w)
                                   (fun e => Hk (eq_sym e)))).
      repeat split; auto; try lia. congruence.
Qed.

Lemma step_wf (h : Happening) (w : World) :
  wf w -> wf (fst (step JSON_parse stripNullsOf validate h w)).
Proof.
  intros W. now destruct (step_facts JSON_parse stripNullsOf validate h W).
Qed.

Lemma run_dones_upper (hs : list Happening) :
  forall (w : World) (j : nat),
    wf w ->
    dones j (snd (run JSON_parse stripNullsOf validate hs w))
    <= if awaited j w then 2 else 0.
Proof.
  induction hs as [|h hs IH]; intros w j W.
  - cbn. destruct (awaited j w); lia.
  - rewrite run_cons. cbn [snd]. rewrite dones_app.
    destruct (step_dones h j W) as (D1 & D2 & D3 & _). cbv zeta in *.
    specialize (IH _ j (step_wf h W)).
    destruct (awaited j w).
    + destruct (dones j (snd (step JSON_parse stripNullsOf validate h w)))
        as [|n] eqn:Dn.
      * destruct (awaited j (fst (step JSON_parse stripNullsOf validate h w)));
          lia.
      * rewrite (D3 ltac:(lia)) in IH. lia.
    + destruct (D2 eq_refl) as [A Z]. rewrite A in IH. lia.
Qed.

Lemma run_dones_lower (hs : list Happening) :
  forall (w : World) (j : nat),
    wf w ->
    isOpen (readyState (conn w)) = true ->
    ~ In Closes hs ->
    awaited j w = true ->
    awaited j (fst (run JSON_parse stripNullsOf validate hs w)) = false ->
    1 <= dones j (snd (run JSON_parse stripNullsOf validate hs w)).
Proof.
  induction hs as [|h hs IH]; intros w j W Ho Hc A F.
  - cbn in F. congruence.
  - rewrite run_cons in *. cbn [fst snd] in *. rewrite dones_app.
    destruct (step_dones h j W) as (_ & _ & _ & D4). cbv zeta in *.
    destruct (awaited j (fst (step JSON_parse stripNullsOf validate h w)))
      eqn:A1.
    + assert (1 <= dones j
                     (snd (run JSON_parse stripNullsOf validate hs
                             (fst (step JSON_parse stripNullsOf validate
                                        h w))))).
      { apply IH; try assumption.
        - now apply step_wf.
        - rewrite step_open; [assumption|].
          intros ->. apply Hc. now left.
        - intros I. apply Hc. now right. }
      lia.
    + specialize (D4 Ho A eq_refl). lia.
Qed.

(** X11.  No job is sent more than two [done] events, in any run of a
    connection. *)
Theorem at_most_two_done (hs : list Happening) (j : nat) :
  dones j (snd (run JSON_parse stripNullsOf validate hs connection)) <= 2.
Proof.
  pose proof (run_dones_upper hs j connection_wf) as U.
  destruct (awaited j connection); lia.
Qed.

(** X12.  Every job that has come to its end was told so.  On a
    connection whose socket is never closed, a job that was started and is
    no longer awaited by its [runJob] has been sent one or two [done]
    events. *)
Theorem finished_job_was_told (hs : list Happening) (j : nat) :
  ~ In Closes hs ->
  1 <= j ->
  awaited j (fst (run JSON_parse stripNullsOf validate hs connection))
  = false ->
  1 <= dones j (snd (run JSON_parse stripNullsOf validate hs connection))
  <= 2.
Proof.
  intros Hc Hj F. split.
  - apply run_dones_lower; try assumption.
    + exact connection_wf.
    + reflexivity.
    + unfold awaited. simpl. destruct j; [lia|reflexivity].
  - pose proof (run_dones_upper hs j connection_wf) as U.
    destruct (awaited j connection); lia.
Qed.

(** *** Results *)

Lemma resultThenDone_split (pre post : list ServerEvent) (data : json)
    (m : option bool) :
  resultThenDone (pre ++ EvResult data m :: post) = true ->
  post = [EvDone true].
Proof.
  induction pre as [|e pre IH]; simpl.
  - intros H. apply andb_prop in H. destruct H as [H _].
    destruct post as [|[| | | |[|]|] [|e' post]]; congruence.
  - intros H. apply andb_prop in H. tauto.
Qed.

Lemma resultThenDone_none (evs : list ServerEvent) :
  (forall data m, ~ In (EvResult data m) evs) ->
  resultThenDone evs = true.
Proof.
  induction evs as [|e evs IH]; simpl; [reflexivity|]. intros H.
  rewrite IH by (intros data m I; apply (H data m); now right).
  destruct e; simpl; try reflexivity.
  destruct (H data is_modify). now left.
Qed.

Lemma step_results (h : Happening) (w : World) (j : nat) :
  wf w ->
  let r := step JSON_parse stripNullsOf validate h w in
  resultThenDone (eventsOf j (snd r)) = true
  /\ (forall data m,
         In (EvResult data m) (eventsOf j (snd r)) ->
         succeeded (validate data) = true
         /\ lookup j (pending (fst r)) = None
         /\ j <= lastJobId (state (conn (fst r)))).
Proof.
  intros W. cbv zeta.
  destruct (step_cases JSON_parse stripNullsOf validate h w)
    as [(c' & d & E & F)
       |[(kind & prompt & B & E)
        |[(k & t0 & m & L & E & So & Sm)
         |(k & t0 & L & G & U & E)]]]; cbv zeta in *; rewrite E; clear E;
    cbn [fst snd].
  - destruct F as (_ & _ & _ & _ & _ & F6 & _).
    rewrite (sessionOnly_events j d F6). split; [reflexivity|].
    intros data m [].
  - pose proof (startJob_ok kind (S (lastJobId (state (conn w)))) prompt
                  (withState (fun s => setLastJobId (S (lastJobId s)) s)
                             (conn w))) as So.
    pose proof (startJob_more validate kind
                  (S (lastJobId (state (conn w)))) prompt
                  (withState (fun s => setLastJobId (S (lastJobId s)) s)
                             (conn w))) as Sm.
    destruct So as (O1 & _ & O3 & _).
    destruct Sm as (_ & _ & _ & _ & _ & _ & _ & _ & _ & _ & M11 & M12).
    set (k := S (lastJobId (state (conn w)))) in *.
    destruct (startJob kind k prompt
                (withState (fun s => setLastJobId (S (lastJobId s)) s)
                           (conn w))) as [[t c1] d1].
    cbn [fst snd conn pending] in *.
    assert (O1' : lastJobId (state c1) = k) by exact O1.
    destruct (Nat.eq_dec k j) as [<-|Hk].
    + split; [exact M11|]. intros data m I.
      destruct (M12 _ _ I) as [V ->]. split; [exact V|].
      split; [|rewrite O1'; apply le_n].
      destruct (lookup k (pending w)) eqn:Lk; [|reflexivity].
      apply W in Lk. subst k. lia.
    + rewrite (O3 j (fun e => Hk (eq_sym e))). split; [reflexivity|].
      intros data m [].
  - rewrite resume_parts. cbn [fst snd conn pending].
    destruct So as (O1 & _ & O3 & _).
    destruct Sm as (_ & _ & _ & _ & _ & _ & _ & _ & _ & _ & M11 & M12).
    destruct (m (conn w)) as [[r c1] d1]. cbn [fst snd] in *.
    destruct (Nat.eq_dec k j) as [<-|Hk].
    + split; [exact M11|]. intros data m' I.
      destruct (M12 _ _ I) as [V ->]. split; [exact V|].
      rewrite lookup_settle, Nat.eqb_refl, O1.
      split; [reflexivity|]. exact (W _ _ L).
    + rewrite (O3 j (fun e => Hk (eq_sym e))). split; [reflexivity|].
      intros data m' [].
  - rewrite resume_parts, guardRejects_exact. cbn [fst snd].
    assert (N : forall data m,
               ~ In (EvResult data m)
                    (eventsOf j
                       (if isOpen (readyState (conn w))
                        then [Sent (Job k) (EvError (js "Operation timed out"));
                              Sent (Job k) (EvDone false);
                              Sent (Job k)
                                   (EvDone (negb (canceled (state (conn w)))))]
                        else []))).
    { intros data m I.
      destruct (isOpen (readyState (conn w))); simpl in I; [|exact I].
      destruct (k =? j); simpl in I; [|exact I].
      destruct I as [I|[I|[I|[]]]]; discriminate I. }
    split; [now apply resultThenDone_none|].
    intros data m I. destruct (N _ _ I).
Qed.

Lemma split_at {A} (e : A) (d ds l1 l2 : list A) :
  d ++ ds = l1 ++ e :: l2 ->
  (exists d2, d = l1 ++ e :: d2 /\ l2 = d2 ++ ds)
  \/ (exists l0, l1 = d ++ l0 /\ ds = l0 ++ e :: l2).
Proof.
  intros E. apply app_eq_app in E.
  destruct E as (l & [[-> E]|[-> E]]).
  - destruct l as [|x l]; simpl in E.
    + right. exists []. rewrite !app_nil_r. simpl. auto.
    + injection E as <- ->. left. exists l. auto.
  - right. exists l. auto.
Qed.

Lemma run_results (hs : list Happening) :
  forall (w : World) (j : nat) (pre post : list ServerEvent) (data : json)
         (m : option bool),
    wf w ->
    eventsOf j (snd (run JSON_parse stripNullsOf validate hs w))
    = pre ++ EvResult data m :: post ->
    succeeded (validate data) = true /\ post = [EvDone true].
Proof.
  induction hs as [|h hs IH]; intros w j pre post data m W E.
  - destruct pre; discriminate E.
  - rewrite run_cons in E. cbn [snd] in E. rewrite eventsOf_app in E.
    destruct (step_results h j W) as [R1 R2]. cbv zeta in *.
    apply split_at in E.
    destruct E as [(d2 & Ed & ->)|(l0 & -> & Es)].
    + assert (I : In (EvResult data m)
                     (eventsOf j
                        (snd (step JSON_parse stripNullsOf validate h w))))
        by (rewrite Ed; apply in_or_app; right; now left).
      destruct (R2 _ _ I) as (V & L & J). split; [exact V|].
      rewrite (run_absent JSON_parse stripNullsOf validate hs
                 (step_wf h W) L J), app_nil_r.
      rewrite Ed in R1. exact (resultThenDone_split _ _ _ _ R1).
    + exact (IH _ _ _ _ _ _ (step_wf h W) Es).
Qed.

(** X13.  A [result] is never sent for an object the validator did not
    accept, and it is the last word of its job but one: in every run of a
    connection, what follows a [result] among the events of its job is
    [done] with [ok] true and nothing else. *)
Theorem result_is_validated_and_final (hs : list Happening) (j : nat)
    (pre post : list ServerEvent) (data : json) (m : option bool) :
  eventsOf j (snd (run JSON_parse stripNullsOf validate hs connection))
  = pre ++ EvResult data m :: post ->
  succeeded (validate data) = true /\ post = [EvDone true].
Proof.
  intros E.
  exact (@run_results hs connection j pre post data m connection_wf E).
Qed.

End Invariants.


(* ================================================================== *)
(** ** Further properties: a job from end to end *)
(* ================================================================== *)

Section Jobs.

Variable JSON_parse : jsstring -> Parse.
Variable stripNullsOf : json -> json.
Variable validate : json -> Result json.

(** X14.  The keepalive sends one status with the current stage whenever
    its timer is armed and the socket open, busy or not, and changes
    nothing; once the socket has reported an error the timer is stopped
    for good, whatever happens afterwards. *)
Theorem keepalive_reports_stage (w : World) (hs : list Happening) :
  step JSON_parse stripNullsOf validate Beats w
  = (w, if heartbeat (state (conn w)) && isOpen (readyState (conn w))
        then [Sent Session
                (EvStatus (jobName (state (conn w))) (js "...") None)]
        else [])
  /\ snd (step JSON_parse stripNullsOf validate Beats
               (fst (run JSON_parse stripNullsOf validate hs
                         (fst (step JSON_parse stripNullsOf validate
                                    Fails w)))))
     = [].
Proof.
  assert (B : forall v,
             step JSON_parse stripNullsOf validate Beats v
             = (v, if heartbeat (state (conn v))
                      && isOpen (readyState (conn v))
                   then [Sent Session
                           (EvStatus (jobName (state (conn v))) (js "...")
                                     None)]
                   else [])).
  { intros [[[b cn jn last [|]] rs] p];
      unfold step, handler, onHeartbeat, bind, read, send, ret; simpl;
      destruct (isOpen rs); reflexivity. }
  split; [apply B|].
  rewrite B. cbn [snd].
  destruct (run_sticky JSON_parse stripNullsOf validate hs
              (fst (step JSON_parse stripNullsOf validate Fails w)))
    as (_ & _ & R3 & _).
  cbv zeta in R3. rewrite R3; reflexivity.
Qed.

(** X15.  A generation call that returns a failure to a job still
    authoritative ends the job with the failure's own message: on an open
    socket the job sends that error, [done] with [ok] false and [done] with
    [ok] true, clears [busy], sets the stage to [idle] and is gone; the
    loop is never entered. *)
Theorem generation_failure_reported (w : World) (k : nat) (is_modify : bool)
    (a : Race (Result jsstring)) (message : jsstring) :
  lookup k (pending w) = Some (InGeneration is_modify) ->
  guardedCall JSON_parse stripNullsOf a = Returned (Error message) ->
  stale (state (conn w)) k = false ->
  isOpen (readyState (conn w)) = true ->
  step JSON_parse stripNullsOf validate (Settles k a) w
  = ({| conn := withState (fun s => setJobName idle (withBusy false s))
                          (conn w);
        pending := drop k (pending w) |},
     [Checked k false k;
      Sent (Job k) (EvError message);
      Sent (Job k) (EvDone false);
      Sent (Job k) (EvDone true)]).
Proof.
  intros L G S Ho. unfold step. rewrite L. unfold resume, afterGeneration.
  rewrite G.
  apply stale_false_iff in S. destruct S as [-> Hc].
  destruct w as [[[b cn jn last hb] rs] p]. simpl in *. subst cn.
  destruct rs; try discriminate Ho.
  unfold bind, isStale, stale, sendError, cleanup, bind, setBusy, send,
    update, read, ret. simpl. rewrite Nat.eqb_refl. reflexivity.
Qed.

(** X16.  A generation call that throws, or that loses against its
    deadline, is reported without any staleness check: on an open socket
    the job sends the error with the prefix of its kind and two [done]
    events, also when the client has canceled in the meantime (both
    [done] events then have [ok] false). *)
Theorem generation_throw_reported (w : World) (k : nat) (is_modify : bool)
    (a : Race (Result jsstring)) (message : jsstring) :
  lookup k (pending w) = Some (InGeneration is_modify) ->
  guardedCall JSON_parse stripNullsOf a = Threw message ->
  isOpen (readyState (conn w)) = true ->
  step JSON_parse stripNullsOf validate (Settles k a) w
  = ({| conn := withState (fun s => setJobName idle (withBusy false s))
                          (conn w);
        pending := drop k (pending w) |},
     [Sent (Job k) (EvError (failurePrefix is_modify ++ message));
      Sent (Job k) (EvDone false);
      Sent (Job k) (EvDone (negb (canceled (state (conn w)))))])
  /\ guardedCall JSON_parse stripNullsOf Deadline
     = Threw (js "Operation timed out").
Proof.
  intros L G Ho. split; [|reflexivity].
  unfold step. rewrite L. unfold resume, afterGeneration. rewrite G.
  destruct w as [[[b cn jn last hb] rs] p]. simpl in *.
  destruct rs; try discriminate Ho.
  unfold bind, sendError, cleanup, bind, setBusy, send, update, read, ret.
  reflexivity.
Qed.

Lemma generation_success_valid (w : World) (k : nat) (is_modify : bool)
    (a : Race (Result jsstring)) (object : json) :
  lookup k (pending w) = Some (InGeneration is_modify) ->
  guardedCall JSON_parse stripNullsOf a = Returned (Success object) ->
  succeeded (validate object) = true ->
  stale (state (conn w)) k = false ->
  isOpen (readyState (conn w)) = true ->
  step JSON_parse stripNullsOf validate (Settles k a) w
  = ({| conn := withState (fun s => setJobName idle (withBusy false s))
                          (conn w);
        pending := drop k (pending w) |},
     [Checked k false k;
      Checked k false k;
      Sent (Job k) (EvStatus validating (validatingMessage 1) None);
      Called k (CallValidate object);
      Sent (Job k) (resultEvent is_modify object);
      Sent (Job k) (EvDone true)]).
Proof.
  intros L G V S Ho. unfold step. rewrite L.
  unfold resume, afterGeneration. rewrite G.
  apply stale_false_iff in S. destruct S as [-> Hc].
  destruct w as [[[b cn jn last hb] rs] p]. simpl in *. subst cn.
  destruct rs; try discriminate Ho.
  destruct (validate object) as [accepted|] eqn:E; [|discriminate V].
  unfold bind, isStale, stale, continueLoop, loopBody, bind, isStale, stale,
    sendStatus, json_is_schema_valid, loopReturns, afterLoop, cleanup, bind,
    setBusy, send, update, read, note, ret.
  simpl. repeat (rewrite ?Nat.eqb_refl, ?E; simpl). reflexivity.
Qed.

(** X17.  The whole of a job that succeeds at once.  On an open, idle,
    never canceled connection, a prompt message, or a modify message
    whose [originalJson] is truthy, with a prompt that is not blank,
    answered by a completion whose text holds an object the validator
    accepts, gives the job these events and no others: [received], the
    status of the job's kind, [validating] for attempt 1, the [result]
    with that object (flagged for a modify), [done] with [ok] true.  The
    connection is then idle again and the job is gone. *)
Theorem job_succeeds_at_once (w : World) (k : JobKind)
    (p : option jsstring) (now : N) (text : jsstring) (object : json) :
  promptOf p <> [] ->
  startable k = true ->
  busy (state (conn w)) = false ->
  canceled (state (conn w)) = false ->
  isOpen (readyState (conn w)) = true ->
  Mythographer.parse_json_response JSON_parse stripNullsOf
    Mythographer.createMythographer text = Success object ->
  succeeded (validate object) = true ->
  let id := S (lastJobId (state (conn w))) in
  let r := run JSON_parse stripNullsOf validate
             [Receives (requestOf k p) now;
              Settles id (Operation (Returned (Success text)))] w in
  wire (snd r)
  = [EvStatus received (js "Prompt received.") None;
     EvStatus (workStage (isModify k)) (startMessage (isModify k)) None;
     EvStatus validating (validatingMessage 1) None;
     resultEvent (isModify k) object;
     EvDone true]
  /\ eventsOf id (snd r) = wire (snd r)
  /\ callsOf id (snd r)
     = [generationCall k (promptOf p); CallValidate object]
  /\ busy (state (conn (fst r))) = false
  /\ jobName (state (conn (fst r))) = idle
  /\ lookup id (pending (fst r)) = None.
Proof.
  intros Hp Hk Hb Hc Ho Hparse Hv id r. subst r.
  rewrite run_cons.
  rewrite (@accepting_step JSON_parse stripNullsOf validate w k p now
             Hp Hk Hb Hc Ho).
  cbv zeta. fold id. cbn [fst snd].
  rewrite run_cons.
  rewrite (@generation_success_valid _ id (isModify k)
             (Operation (Returned (Success text))) object).
  - cbn [fst snd run app wire eventsOf callsOf conn pending state withState
         busy jobName setJobName withBusy].
    rewrite !Nat.eqb_refl, lookup_drop, Nat.eqb_refl.
    repeat split; reflexivity.
  - cbn [pending lookup]. now rewrite Nat.eqb_refl.
  - unfold guardedCall, withTimeout, Mythographer.afterCompletion,
      translator. now rewrite Hparse.
  - exact Hv.
  - apply stale_false_iff. split; reflexivity.
  - exact Ho.
Qed.

End Jobs.

(* ================================================================== *)
(** ** Further properties: the validate/repair loop on any connection *)
(* ================================================================== *)

Section EngineMore.

Variable JSON_parse : jsstring -> Parse.
Variable stripNullsOf : json -> json.
Variable validate : json -> Result json.

(** One iteration of the loop, on any connection: open or closed,
    authoritative or stale, and whatever becomes of it while the loop is
    suspended.  Each [send] looks at the socket as it then is. *)
Lemma attempts_cons (attempt : nat) (rest : list nat) (jobId : nat)
    (current : json) (is_modify : bool) (env : nat -> Suspension)
    (c : Conn) :
  attempts JSON_parse stripNullsOf validate (attempt :: rest) jobId current
           is_modify env c
  = let checked :=
      Checked jobId (canceled (state c)) (lastJobId (state c)) in
    if stale (state c) jobId then (Error staleMessage, c, [checked])
    else
      let sent (socket : Conn) e :=
        if isOpen (readyState socket) then [Sent (Job jobId) e] else [] in
      let head :=
        checked
        :: sent c (EvStatus validating (validatingMessage attempt) None)
        ++ [Called jobId (CallValidate current)] in
      match validate current with
      | Success _ =>
          (Success current, withState (setJobName validating) c, head)
      | Error message =>
          if attempt =? maxAttempts then
            (Error exitedMessage, withState (setJobName validating) c,
             head ++ sent c (EvResultPartial current
                               (exhaustedMessage message) (Some is_modify)))
          else
            let c1 :=
              whileRepairing (env attempt)
                             (withState (setJobName repair) c) in
            let asked :=
              head ++ sent c (EvStatus repair
                                (repairingMessage attempt message) None)
                   ++ [Called jobId (CallRepair current message)] in
            match guardedCall JSON_parse stripNullsOf
                    (repairSettles (env attempt)) with
            | Returned (Success data) =>
                let next :=
                  attempts JSON_parse stripNullsOf validate rest jobId data
                           is_modify env
                           (whileSleeping (env attempt) c1) in
                (fst (fst next), snd (fst next), asked ++ snd next)
            | Returned (Error reason) =>
                (Error exitedMessage, c1,
                 asked ++ sent c1 (EvResultPartial current
                                     (repairFailedMessage attempt reason)
                                     (Some is_modify)))
            | Threw reason =>
                (Error exitedMessage, c1,
                 asked
                 ++ sent c1 (EvError (repairThrewMessage attempt reason)))
            end
      end.
Proof.
  cbv zeta. simpl attempts. unfold bind at 1.
  unfold loopBody, bind, isStale.
  destruct (stale (state c) jobId); [reflexivity|].
  unfold sendStatus, json_is_schema_valid, bind, note, update, ret, send.
  destruct c as [[b cn jn last hb] rs].
  destruct (validate current) as [d|message];
    [destruct rs; reflexivity|].
  destruct (attempt =? maxAttempts); [destruct rs; reflexivity|].
  unfold afterRepair, meanwhile.
  destruct (guardedCall JSON_parse stripNullsOf
              (repairSettles (env attempt))) as [[data|reason]|reason];
    unfold bind, ret, send, update;
    destruct rs; simpl;
    cbv [withState setJobName state readyState jobName busy canceled
         lastJobId heartbeat];
    match goal with
    | |- context [attempts ?a ?b ?v ?t ?j ?d ?m ?e ?k] =>
        destruct (attempts a b v t j d m e k) as [[r c2] l2]
    | |- context [isOpen (match ?k with Build_Conn _ r => r end)] =>
        destruct (isOpen (match k with Build_Conn _ r => r end))
    | |- context [isOpen ?r] => destruct (isOpen r)
    end; reflexivity.
Qed.

Lemma callsOf_app (j : nat) (a b : list Entry) :
  callsOf j (a ++ b) = callsOf j a ++ callsOf j b.
Proof.
  induction a as [|[from payload|id cs ls|id call] a IH]; simpl; auto.
  destruct (id =? j); simpl; now rewrite IH.
Qed.

Ltac open_cases :=
  repeat match goal with
         | |- context [if isOpen ?r then _ else _] => destruct (isOpen r)
         end.

Ltac read_log :=
  repeat (progress
            (rewrite ?callsOf_app, ?eventsOf_app, ?wire_app, ?filter_app,
               ?length_app, ?app_nil_r;
             cbn [callsOf eventsOf wire app filter isRepairCall isDone
                  isResult isTerminal isResultPartial isError orb fst snd
                  List.length readyState withState];
             rewrite ?Nat.eqb_refl)).

(** X18.  Whatever the connection, the candidate and the way the repair
    calls fare, one run of the loop validates at most three candidates and
    asks for at most two repairs, and it asks for a repair only of a
    candidate the validator has just rejected, handing over the
    validator's own diagnostic. *)
Theorem engine_calls_bounded (c : Conn) (jobId : nat) (candidate : json)
    (is_modify : bool) (env : nat -> Suspension) :
  let calls :=
    callsOf jobId
      (snd (validateAndRepair JSON_parse stripNullsOf validate jobId
              candidate is_modify env c)) in
  List.length (filter isRepairCall calls) <= 2
  /\ List.length calls <= List.length (filter isRepairCall calls) + 3
  /\ forall current diagnostic,
       In (CallRepair current diagnostic) calls ->
       validate current = Error diagnostic.
Proof.
  unfold validateAndRepair.
  assert (G : forall n a current c0,
             a + n = S maxAttempts ->
             let calls :=
               callsOf jobId
                 (snd (attempts JSON_parse stripNullsOf validate (seq a n)
                         jobId current is_modify env c0)) in
             List.length (filter isRepairCall calls) <= pred n
             /\ List.length calls
                <= List.length (filter isRepairCall calls) + n
             /\ forall cur diagnostic,
                  In (CallRepair cur diagnostic) calls ->
                  validate cur = Error diagnostic).
  { induction n as [|n IH]; intros a current c0 E.
    - simpl. repeat split; auto. intros ? ? [].
    - cbn [seq]. rewrite attempts_cons. cbv zeta.
      destruct (stale (state c0) jobId).
      { simpl. repeat split; auto with arith. intros ? ? []. }
      destruct (validate current) as [d|message] eqn:V.
      { open_cases; read_log;
          (repeat split; [lia|lia|]); intros ? ? [H|[]]; discriminate H. }
      destruct (Nat.eqb_spec a maxAttempts) as [Ea|Ea].
      { open_cases; read_log;
          (repeat split; [lia|lia|]); intros ? ? [H|[]]; discriminate H. }
      assert (En : S a + n = S maxAttempts) by lia.
      assert (Hn : 1 <= n) by lia.
      destruct (guardedCall JSON_parse stripNullsOf
                  (repairSettles (env a))) as [[data|reason]|reason].
      + specialize (IH (S a) data
                       (whileSleeping (env a)
                          (whileRepairing (env a)
                             (withState (setJobName repair) c0))) En).
        cbv zeta in IH. destruct IH as (I1 & I2 & I3).
        open_cases; read_log;
          (split; [lia|]; split; [lia|]);
          intros cur dg [H|[H|H]];
          try discriminate H;
          try (injection H as <- <-; exact V);
          exact (I3 _ _ H).
      + open_cases; read_log;
          (split; [lia|]; split; [lia|]);
          intros cur dg [H|[H|[]]];
          try discriminate H; injection H as <- <-; exact V.
      + open_cases; read_log;
          (split; [lia|]; split; [lia|]);
          intros cur dg [H|[H|[]]];
          try discriminate H; injection H as <- <-; exact V. }
  exact (G maxAttempts 1 candidate c eq_refl).
Qed.

(** X19.  The loop never sends [result] or [done], which are left to its
    caller, and writes for no job but its own; it does not itself reopen
    or close the socket: when nothing else changes [readyState] while the
    loop is suspended, [readyState] is afterwards what it was. *)
Theorem engine_leaves_result_to_caller (c : Conn) (jobId : nat)
    (candidate : json) (is_modify : bool) (env : nat -> Suspension) :
  let r := validateAndRepair JSON_parse stripNullsOf validate jobId
             candidate is_modify env c in
  filter isResult (wire (snd r)) = []
  /\ filter isDone (wire (snd r)) = []
  /\ wire (snd r) = eventsOf jobId (snd r)
  /\ ((forall n k,
          readyState (whileRepairing (env n) k) = readyState k
          /\ readyState (whileSleeping (env n) k) = readyState k) ->
      readyState (snd (fst r)) = readyState c).
Proof.
  unfold validateAndRepair. generalize (seq 1 maxAttempts) as todo.
  intros todo. revert candidate c.
  induction todo as [|a rest IH]; intros current c0.
  - simpl. auto.
  - rewrite attempts_cons. cbv zeta.
    destruct (stale (state c0) jobId); [simpl; auto|].
    destruct (validate current) as [d|message].
    { open_cases; read_log; auto. }
    destruct (a =? maxAttempts).
    { open_cases; read_log; auto. }
    destruct (guardedCall JSON_parse stripNullsOf
                (repairSettles (env a))) as [[data|reason]|reason].
    + specialize (IH data
                     (whileSleeping (env a)
                        (whileRepairing (env a)
                           (withState (setJobName repair) c0)))).
      cbv zeta in IH. destruct IH as (I1 & I2 & I3 & I4).
      assert (K : (forall n k,
                      readyState (whileRepairing (env n) k) = readyState k
                      /\ readyState (whileSleeping (env n) k)
                         = readyState k) ->
                  readyState
                    (snd (fst (attempts JSON_parse stripNullsOf validate
                                 rest jobId data is_modify env
                                 (whileSleeping (env a)
                                    (whileRepairing (env a)
                                       (withState (setJobName repair)
                                                  c0))))))
                  = readyState c0).
      { intros Q. rewrite (I4 Q).
        rewrite (proj2 (Q a _)), (proj1 (Q a _)). reflexivity. }
      open_cases; read_log; rewrite I1, I2, I3; auto.
    + assert (K : (forall n k,
                      readyState (whileRepairing (env n) k) = readyState k
                      /\ readyState (whileSleeping (env n) k)
                         = readyState k) ->
                  readyState (whileRepairing (env a)
                                (withState (setJobName repair) c0))
                  = readyState c0)
        by (intros Q; now rewrite (proj1 (Q a _))).
      open_cases; read_log; auto.
    + assert (K : (forall n k,
                      readyState (whileRepairing (env n) k) = readyState k
                      /\ readyState (whileSleeping (env n) k)
                         = readyState k) ->
                  readyState (whileRepairing (env a)
                                (withState (setJobName repair) c0))
                  = readyState c0)
        by (intros Q; now rewrite (proj1 (Q a _))).
      open_cases; read_log; auto.
Qed.

(** X20.  The loop itself writes only the stage name.  When nothing else
    runs while it is suspended, the connection it returns differs from
    the one it was given at most in [jobName]. *)
Theorem engine_writes_stage_only (c : Conn) (jobId : nat)
    (candidate : json) (is_modify : bool) (env : nat -> Suspension) :
  (forall n k, whileRepairing (env n) k = k /\ whileSleeping (env n) k = k) ->
  let c' := snd (fst (validateAndRepair JSON_parse stripNullsOf validate
                        jobId candidate is_modify env c)) in
  c' = withState (setJobName (jobName (state c'))) c.
Proof.
  intros Q. unfold validateAndRepair. generalize (seq 1 maxAttempts) as todo.
  intros todo. revert candidate c.
  induction todo as [|a rest IH]; intros current c0.
  - destruct c0 as [[b cn jn last hb] rs]. reflexivity.
  - rewrite attempts_cons. cbv zeta.
    destruct (stale (state c0) jobId);
      [destruct c0 as [[b cn jn last hb] rs]; reflexivity|].
    destruct (validate current) as [d|message];
      [destruct c0 as [[b cn jn last hb] rs]; reflexivity|].
    destruct (a =? maxAttempts);
      [destruct c0 as [[b cn jn last hb] rs]; reflexivity|].
    rewrite (proj1 (Q a _)).
    destruct (guardedCall JSON_parse stripNullsOf
                (repairSettles (env a))) as [[data|reason]|reason];
      try (destruct c0 as [[b cn jn last hb] rs]; reflexivity).
    rewrite (proj2 (Q a _)). cbn [fst snd].
    rewrite (IH data (withState (setJobName repair) c0)) at 1.
    destruct c0 as [[b cn jn last hb] rs]. reflexivity.
Qed.

(** X21.  On a socket that stays open, the loop tells the client of
    every failure but staleness, and of each once.  When it returns a
    success, or the stale failure, it has sent no [result_partial] and no
    [error]; when it returns its other failure, the last event it sent is
    a [result_partial] or an [error], and the only one. *)
Theorem engine_failure_announced (c : Conn) (jobId : nat)
    (candidate : json) (is_modify : bool) (env : nat -> Suspension) :
  isOpen (readyState c) = true ->
  staysOpen env ->
  let r := validateAndRepair JSON_parse stripNullsOf validate jobId
             candidate is_modify env c in
  let events := eventsOf jobId (snd r) in
  match fst (fst r) with
  | Success _ => filter isTerminal events = []
  | Error message =>
      (message = staleMessage /\ filter isTerminal events = [])
      \/ (message = exitedMessage
          /\ exists before last,
               events = before ++ [last]
               /\ isTerminal last = true
               /\ filter isTerminal before = [])
  end.
Proof.
  intros Ho Hopen. unfold validateAndRepair.
  assert (G : forall n a current c0,
             a + S n = S maxAttempts ->
             isOpen (readyState c0) = true ->
             let r := attempts JSON_parse stripNullsOf validate
                        (seq a (S n)) jobId current is_modify env c0 in
             let events := eventsOf jobId (snd r) in
             match fst (fst r) with
             | Success _ => filter isTerminal events = []
             | Error message =>
                 (message = staleMessage /\ filter isTerminal events = [])
                 \/ (message = exitedMessage
                     /\ exists before last,
                          events = before ++ [last]
                          /\ isTerminal last = true
                          /\ filter isTerminal before = [])
             end).
  { induction n as [|n IH]; intros a current c0 E O0;
      rewrite <- cons_seq; rewrite attempts_cons; cbv beta zeta;
      rewrite O0;
      (destruct (stale (state c0) jobId); [left; split; reflexivity|]);
      (destruct (validate current) as [d|message]; [read_log; reflexivity|]);
      destruct (Nat.eqb_spec a maxAttempts) as [Ea|Ea]; try lia;
      try (read_log; right; split; [reflexivity|];
           eexists [_], _; repeat split; reflexivity).
    assert (En : S a + S n = S maxAttempts) by lia.
    assert (O1 : isOpen (readyState
                           (whileRepairing (env a)
                              (withState (setJobName repair) c0))) = true)
      by (apply (Hopen a); exact O0).
    assert (O2 : isOpen (readyState
                           (whileSleeping (env a)
                              (whileRepairing (env a)
                                 (withState (setJobName repair) c0))))
                 = true)
      by (apply (Hopen a); exact O1).
    rewrite O1.
    destruct (guardedCall JSON_parse stripNullsOf
                (repairSettles (env a))) as [[data|reason]|reason].
    - specialize (IH (S a) data
                     (whileSleeping (env a)
                        (whileRepairing (env a)
                           (withState (setJobName repair) c0))) En O2).
      cbv zeta in IH. cbn [fst snd].
      destruct (fst (fst (attempts JSON_parse stripNullsOf validate
                            (seq (S a) (S n)) jobId data is_modify env
                            (whileSleeping (env a)
                               (whileRepairing (env a)
                                  (withState (setJobName repair) c0))))))
        as [ok|m].
      + read_log. exact IH.
      + destruct IH as [[-> I]|(-> & before & last & I1 & I2 & I3)].
        * left. split; [reflexivity|]. read_log. exact I.
        * right. split; [reflexivity|].
          exists (EvStatus validating (validatingMessage a) None
                  :: EvStatus repair (repairingMessage a message) None
                  :: before), last.
          read_log. rewrite I1. repeat split; assumption.
    - read_log. right. split; [reflexivity|].
      eexists [_; _], _. repeat split; reflexivity.
    - read_log. right. split; [reflexivity|].
      eexists [_; _], _. repeat split; reflexivity. }
  exact (G 2 1 candidate c eq_refl Ho).
Qed.

(** X22.  A repaired candidate the validator accepts is returned.  On a
    socket that stays open, for a job that is authoritative and stays so
    while the loop is suspended: when the validator rejects the candidate
    and the repair call returns an object the validator accepts, the loop
    returns that object after one repair call and two validations, having
    sent the [validating] status of attempts 1 and 2 and one [repair]
    status between them. *)
Theorem repaired_candidate_accepted (c : Conn) (jobId : nat)
    (candidate repaired : json) (diagnostic : jsstring) (is_modify : bool)
    (env : nat -> Suspension) :
  isOpen (readyState c) = true ->
  staysOpen env ->
  stale (state c) jobId = false ->
  (forall k,
      stale (state (whileSleeping (env 1) (whileRepairing (env 1) k))) jobId
      = stale (state k) jobId) ->
  validate candidate = Error diagnostic ->
  guardedCall JSON_parse stripNullsOf (repairSettles (env 1))
  = Returned (Success repaired) ->
  succeeded (validate repaired) = true ->
  let r := validateAndRepair JSON_parse stripNullsOf validate jobId
             candidate is_modify env c in
  fst (fst r) = Success repaired
  /\ callsOf jobId (snd r)
     = [CallValidate candidate; CallRepair candidate diagnostic;
        CallValidate repaired]
  /\ wire (snd r)
     = [EvStatus validating (validatingMessage 1) None;
        EvStatus repair (repairingMessage 1 diagnostic) None;
        EvStatus validating (validatingMessage 2) None].
Proof.
  intros Ho Hopen Hs Hq Hv Hr Hv2 r. subst r. unfold validateAndRepair.
  change (seq 1 maxAttempts) with [1; 2; 3].
  rewrite attempts_cons. cbv beta zeta. rewrite Hs, Ho, Hv, Hr.
  change (1 =? maxAttempts) with false. cbv iota.
  rewrite attempts_cons. cbv beta zeta.
  assert (O2 : isOpen (readyState
                         (whileSleeping (env 1)
                            (whileRepairing (env 1)
                               (withState (setJobName repair) c)))) = true).
  { apply (Hopen 1). apply (Hopen 1). exact Ho. }
  rewrite Hq, O2.
  assert (S2 : stale (state (withState (setJobName repair) c)) jobId = false)
    by exact Hs.
  rewrite S2.
  destruct (validate repaired) as [d|m]; [|discriminate Hv2].
  read_log. repeat split; reflexivity.
Qed.

(** X23.  A repair that fails ends the loop, with no check of staleness
    in between.  For a job that was authoritative on an open socket when
    the attempt began, and whatever has become of the connection while
    the repair call was pending (a cancel, a newer job, a closed socket):
    when the call returns a failure the loop sends a [result_partial]
    with the rejected candidate and the text "Repair n failed: ...", when
    it throws or runs into its deadline an [error] with
    "Repair n threw: ..."; the event is written if the socket is open
    when the call settles, and nothing is written otherwise.  Either way
    the loop returns its failure, leaves the connection as it found it
    and validates nothing more. *)
Theorem failed_repair_ends_loop (c : Conn) (jobId attempt : nat)
    (rest : list nat) (candidate : json) (diagnostic reason : jsstring)
    (is_modify : bool) (env : nat -> Suspension) :
  isOpen (readyState c) = true ->
  stale (state c) jobId = false ->
  validate candidate = Error diagnostic ->
  attempt <> maxAttempts ->
  let r := attempts JSON_parse stripNullsOf validate (attempt :: rest)
             jobId candidate is_modify env c in
  let resumed :=
    whileRepairing (env attempt) (withState (setJobName repair) c) in
  let told (e : ServerEvent) :=
    fst (fst r) = Error exitedMessage
    /\ snd (fst r) = resumed
    /\ callsOf jobId (snd r)
       = [CallValidate candidate; CallRepair candidate diagnostic]
    /\ wire (snd r)
       = [EvStatus validating (validatingMessage attempt) None;
          EvStatus repair (repairingMessage attempt diagnostic) None]
         ++ (if isOpen (readyState resumed) then [e] else []) in
  (guardedCall JSON_parse stripNullsOf (repairSettles (env attempt))
   = Returned (Error reason) ->
   told (EvResultPartial candidate (repairFailedMessage attempt reason)
                         (Some is_modify)))
  /\ (guardedCall JSON_parse stripNullsOf (repairSettles (env attempt))
      = Threw reason ->
      told (EvError (repairThrewMessage attempt reason)))
  /\ guardedCall JSON_parse stripNullsOf Deadline
     = Threw (js "Operation timed out").
Proof.
  intros Ho Hs Hv Ha r resumed told. subst told r resumed.
  rewrite attempts_cons. cbv beta zeta. rewrite Hs, Ho, Hv.
  destruct (Nat.eqb_spec attempt maxAttempts) as [E|_]; [contradiction|].
  split; [|split; [|reflexivity]]; intros ->;
    destruct (isOpen (readyState
                        (whileRepairing (env attempt)
                           (withState (setJobName repair) c))));
    read_log; repeat split; reflexivity.
Qed.

End EngineMore.

(* ================================================================== *)
(** ** Further properties: reading the object out of a response *)
(* ================================================================== *)

Section ParseMore.

Variable JSON_parse : jsstring -> Parse.
Variable stripNullsOf : json -> json.

(** X24.  What surrounds the object does not count.  The text before the
    first ['{'] and the text after the last ['}'] have no influence on the
    result: a response gives what the object alone would give, whatever
    the translator's flag. *)
Theorem prose_around_object_ignored (t : Mythographer.Mythographer)
    (text pre mid post : jsstring) :
  braced text pre mid post ->
  Mythographer.parse_json_response JSON_parse stripNullsOf t text
  = Mythographer.parse_json_response JSON_parse stripNullsOf t
      (Mythographer.openBrace :: mid ++ [Mythographer.closeBrace]).
Proof.
  intros B.
  assert (B' : braced (Mythographer.openBrace :: mid
                         ++ [Mythographer.closeBrace]) [] mid []).
  { split; [reflexivity|]. split; intros []. }
  unfold Mythographer.parse_json_response. cbv zeta.
  destruct (braced_indices B) as (I1 & I2 & S1).
  destruct (braced_indices B') as (I1' & I2' & S1').
  rewrite S1, S1', I1, I2, I1', I2'.
  replace ((Z.of_nat (List.length pre) >=? 0)%Z
           && (Z.of_nat (List.length pre + 1 + List.length mid)
               >? Z.of_nat (List.length pre))%Z) with true.
  - replace ((Z.of_nat (List.length (@nil N)) >=? 0)%Z
             && (Z.of_nat (List.length (@nil N) + 1 + List.length mid)
                 >? Z.of_nat (List.length (@nil N)))%Z) with true.
    + reflexivity.
    + symmetry. apply andb_true_intro. split.
      * apply Z.geb_le. lia.
      * apply Z.gtb_lt. simpl List.length. lia.
  - symmetry. apply andb_true_intro. split.
    + apply Z.geb_le. lia.
    + apply Z.gtb_lt. lia.
Qed.

(** X25.  The three failures of reading a response and their messages.
    A text without a ['{'] followed by a later ['}'] is answered with
    "Response is not JSON:", a line feed and the whole text, and
    [JSON.parse] plays no part in it; a [SyntaxError] of [JSON.parse]
    gives its own message; any other exception gives
    "JSON parse error". *)
Theorem unreadable_response_messages (t : Mythographer.Mythographer)
    (text : jsstring) :
  ((forall pre mid post, ~ braced text pre mid post) ->
   Mythographer.parse_json_response JSON_parse stripNullsOf t text
   = Error (js "Response is not JSON:" ++ [10%N] ++ text))
  /\ (forall pre mid post message,
         braced text pre mid post ->
         JSON_parse (Mythographer.openBrace :: mid
                       ++ [Mythographer.closeBrace])
         = SyntaxError message ->
         Mythographer.parse_json_response JSON_parse stripNullsOf t text
         = Error message)
  /\ (forall pre mid post,
         braced text pre mid post ->
         JSON_parse (Mythographer.openBrace :: mid
                       ++ [Mythographer.closeBrace])
         = OtherError ->
         Mythographer.parse_json_response JSON_parse stripNullsOf t text
         = Error (js "JSON parse error")).
Proof.
  assert (T : forall pre mid post,
             braced text pre mid post ->
             ((indexOf Mythographer.openBrace text >=? 0)%Z
              && (lastIndexOf Mythographer.closeBrace text
                  >? indexOf Mythographer.openBrace text)%Z) = true).
  { intros pre mid post B. destruct (braced_indices B) as (I1 & I2 & _).
    rewrite I1, I2. apply andb_true_intro. split.
    - apply Z.geb_le. lia.
    - apply Z.gtb_lt. lia. }
  split; [|split].
  - intros N. unfold Mythographer.parse_json_response. cbv zeta.
    destruct ((indexOf Mythographer.openBrace text >=? 0)%Z
              && (lastIndexOf Mythographer.closeBrace text
                  >? indexOf Mythographer.openBrace text)%Z) eqn:C;
      [|reflexivity].
    apply andb_prop in C. destruct C as [C1 C2].
    apply Z.geb_le in C1. apply Z.gtb_lt in C2.
    destruct (indices_braced text C1 C2) as (pre & mid & post & B).
    destruct (N pre mid post B).
  - intros pre mid post message B P.
    unfold Mythographer.parse_json_response. cbv zeta.
    rewrite (T pre mid post B).
    destruct (braced_indices B) as (_ & _ & ->). now rewrite P.
  - intros pre mid post B P.
    unfold Mythographer.parse_json_response. cbv zeta.
    rewrite (T pre mid post B).
    destruct (braced_indices B) as (_ & _ & ->). now rewrite P.
Qed.

End ParseMore.

(* ================================================================== *)
(** ** Further properties: stripNulls *)
(* ================================================================== *)

Section StripMore.

Import StripNulls.

Lemma value_induction (P : value -> Prop) :
  P VNull ->
  (forall b, P (VBool b)) ->
  (forall literal, P (VNumber literal)) ->
  (forall s, P (VString s)) ->
  (forall slots,
      Forall (fun slot => match slot with Some x => P x | None => True end)
             slots ->
      P (VArray slots)) ->
  (forall members,
      Forall (fun m : jsstring * value => P (snd m)) members ->
      P (VObject members)) ->
  forall v, P v.
Proof.
  intros HN HB HNum HS HA HO.
  fix IH 1. intros [| b | literal | s | slots | members].
  - exact HN.
  - apply HB.
  - apply HNum.
  - apply HS.
  - apply HA. induction slots as [|[x|] rest IHs]; constructor;
      solve [apply IH | exact I | exact IHs].
  - apply HO. induction members as [|[k x] rest IHm]; constructor;
      solve [apply IH | exact IHm].
Qed.

Lemma ofJson_dense (j : json) : dense (ofJson j) = true.
Proof.
  revert j. fix IH 1. intros [| b | literal | s | items | members];
    try reflexivity; simpl.
  - induction items as [|x rest IHi]; simpl; [reflexivity|].
    now rewrite IH, IHi.
  - induction members as [|[k x] rest IHm]; simpl; [reflexivity|].
    now rewrite IH, IHm.
Qed.

Lemma filtered_null_free (slots : list (option value)) :
  Forall (fun slot => match slot with
                      | Some x => x <> VNull -> nullFree (stripNulls x) = true
                                                /\ nullFree (kept stripNulls x)
                                                   = true
                      | None => True
                      end) slots ->
  forallb (fun slot => match slot with
                       | Some x => nullFree x
                       | None => true
                       end) (filtered stripNulls slots) = true
  /\ forallb (fun slot => match slot with
                          | Some x => nullFree x
                          | None => true
                          end) (indices stripNulls slots) = true.
Proof.
  induction 1 as [|[x|] rest Hx _ [IH1 IH2]]; [split; reflexivity| |exact (conj IH1 IH2)].
  destruct x; simpl; try (rewrite IH1, IH2; split; reflexivity);
    (destruct Hx as [H1 H2]; [discriminate|]); simpl in H1, H2;
    rewrite ?H1, ?H2, IH1, IH2; split; reflexivity.
Qed.

Lemma strip_facts (v : value) :
  v <> VNull ->
  nullFree (stripNulls v) = true /\ nullFree (kept stripNulls v) = true.
Proof.
  induction v as [| b | literal | s | slots IH | members IH]
    using value_induction; intros Hv; try (split; reflexivity);
    [contradiction| |].
  - destruct (filtered_null_free IH) as [F1 F2].
    split; [exact F2|]. unfold kept.
    destruct (existsb slotIsNull slots); [exact F1|exact F2].
  - assert (G : forallb (fun m : jsstring * value => nullFree (snd m))
                  (ownProperties stripNulls members) = true).
    { clear Hv. induction IH as [|[k x] rest Hx _ IHr]; [reflexivity|].
      simpl in Hx.
      destruct x; simpl; try (rewrite IHr; reflexivity);
        (destruct Hx as [H1 H2]; [discriminate|]); simpl in H2;
        rewrite H2; exact IHr. }
    split; exact G.
Qed.

Lemma strip_fixes (v : value) :
  nullFree v = true -> stripNulls v = v /\ kept stripNulls v = v.
Proof.
  induction v as [| b | literal | s | slots IH | members IH]
    using value_induction; intros Hv; try (split; reflexivity).
  - assert (G : indices stripNulls slots = slots
                /\ existsb slotIsNull slots = false).
    { simpl in Hv. induction IH as [|[x|] rest Hx _ IHr].
      - split; reflexivity.
      - simpl in Hv. apply andb_prop in Hv. destruct Hv as [Hx' Hr].
        destruct (IHr Hr) as [E1 E2]. destruct (Hx Hx') as [_ K].
        destruct x; try discriminate Hx'; simpl; rewrite ?E1, ?E2;
          try (split; reflexivity);
          simpl in K; rewrite K; split; reflexivity.
      - simpl in Hv. destruct (IHr Hv) as [E1 E2]. simpl.
        rewrite E1, E2. split; reflexivity. }
    destruct G as [G1 G2]. simpl. rewrite G2, G1. split; reflexivity.
  - assert (G : ownProperties stripNulls members = members).
    { simpl in Hv. induction IH as [|[k x] rest Hx _ IHr]; [reflexivity|].
      simpl in Hv. apply andb_prop in Hv. destruct Hv as [Hx' Hr].
      simpl in Hx. destruct (Hx Hx') as [_ K].
      destruct x; try discriminate Hx'; simpl; rewrite (IHr Hr);
        try reflexivity; simpl in K; rewrite K; reflexivity. }
    simpl. rewrite G. split; reflexivity.
Qed.

Lemma indices_length (f : value -> value) (slots : list (option value)) :
  List.length (indices f slots) = List.length slots.
Proof.
  induction slots as [|[x|] rest IH]; simpl; [reflexivity| |now rewrite IH].
  destruct x; simpl; now rewrite IH.
Qed.

Lemma indices_hole (f : value -> value) (slots : list (option value)) :
  existsb slotIsNull slots = true -> In None (indices f slots).
Proof.
  induction slots as [|[x|] rest IH]; simpl; [discriminate| |auto].
  destruct x; simpl; auto.
Qed.

Lemma indices_hole_at (f : value -> value) (slots : list (option value))
    (i : nat) :
  nth_error slots i = Some (Some VNull) ->
  nth_error (indices f slots) i = Some None.
Proof.
  revert i. induction slots as [|slot rest IH]; intros [|i]; simpl;
    try discriminate.
  - intros E. injection E as ->. reflexivity.
  - intros E. destruct slot as [[]|]; simpl; now apply IH.
Qed.

Lemma filtered_shape (f : value -> value) (slots : list (option value)) :
  (forall x, f x = VNull -> x = VNull) ->
  ~ In None (filtered f slots)
  /\ ~ In (Some VNull) (filtered f slots)
  /\ List.length (filtered f slots) = List.length (filter copied slots).
Proof.
  intros Hf.
  induction slots as [|[x|] rest (I1 & I2 & I3)]; simpl;
    [repeat split; auto| |repeat split; auto].
  destruct x; simpl; try (repeat split; auto; fail);
    (split; [intros [H|H]; [discriminate|contradiction]|]);
    (split; [intros [H|H]; [|contradiction]|now rewrite I3]);
    injection H as H; apply Hf in H; discriminate.
Qed.

Lemma filtered_in (f : value -> value) (slots : list (option value))
    (x : value) :
  x <> VNull -> In (Some x) slots -> In (Some (f x)) (filtered f slots).
Proof.
  intros Hx. induction slots as [|[y|] rest IH]; simpl; [auto| |].
  - intros [H|H].
    + injection H as ->. destruct x; try contradiction; now left.
    + destruct y; simpl; auto.
  - intros [H|H]; [discriminate|auto].
Qed.

Lemma ownProperties_in (f : value -> value)
    (members : list (jsstring * value)) (k : jsstring) (v : value) :
  v <> VNull -> In (k, v) members ->
  In (k, kept f v) (ownProperties f members).
Proof.
  intros Hv. induction members as [|[k' y] rest IH]; simpl; [auto|].
  intros [H|H].
  - injection H as -> ->. destruct v; try contradiction; now left.
  - destruct y; simpl; auto.
Qed.

Lemma stripNulls_null (v : value) : stripNulls v = VNull -> v = VNull.
Proof. destruct v; simpl; auto; discriminate. Qed.

(** X26.  Called on an object or an array, [stripNulls] leaves no null at
    any depth: every null is deleted, filtered out, or turned into a
    hole. *)
Theorem strip_leaves_no_null (v : value) :
  v <> VNull -> nullFree (stripNulls v) = true.
Proof. intros Hv. exact (proj1 (strip_facts Hv)). Qed.

(** X27.  A value without nulls is left exactly as it is, holes
    included. *)
Theorem null_free_unchanged (v : value) :
  nullFree v = true -> stripNulls v = v.
Proof. intros Hv. exact (proj1 (strip_fixes v Hv)). Qed.

(** X28.  [stripNulls] is idempotent: a second call changes nothing. *)
Theorem strip_idempotent (v : value) :
  stripNulls (stripNulls v) = stripNulls v.
Proof.
  destruct v; try reflexivity;
    apply strip_fixes; apply strip_facts; discriminate.
Qed.

(** X29.  An array with a null that is the value of a property is
    replaced by a compact copy: the property then holds an array with no
    hole and no null, with as many elements as the old array had that
    were neither. *)
Theorem array_property_compacted (members : list (jsstring * value))
    (k : jsstring) (slots : list (option value)) :
  In (k, VArray slots) members ->
  existsb slotIsNull slots = true ->
  exists members' slots',
    stripNulls (VObject members) = VObject members'
    /\ In (k, VArray slots') members'
    /\ ~ In None slots'
    /\ ~ In (Some VNull) slots'
    /\ List.length slots' = List.length (filter copied slots).
Proof.
  intros Hin Hnull.
  exists (ownProperties stripNulls members), (filtered stripNulls slots).
  split; [reflexivity|]. split.
  - assert (H := @ownProperties_in stripNulls members k (VArray slots)
                   ltac:(discriminate) Hin).
    simpl in H. now rewrite Hnull in H.
  - exact (filtered_shape stripNulls slots stripNulls_null).
Qed.

(** X30.  An array with a null that is itself an element of such an
    array is not compacted: in the copy of the outer array it keeps its
    length, and it has a hole wherever it had a null. *)
Theorem nested_array_keeps_holes (members : list (jsstring * value))
    (k : jsstring) (outer inner : list (option value)) :
  In (k, VArray outer) members ->
  existsb slotIsNull outer = true ->
  In (Some (VArray inner)) outer ->
  existsb slotIsNull inner = true ->
  exists members' outer' inner',
    stripNulls (VObject members) = VObject members'
    /\ In (k, VArray outer') members'
    /\ In (Some (VArray inner')) outer'
    /\ List.length inner' = List.length inner
    /\ In None inner'
    /\ forall i,
         nth_error inner i = Some (Some VNull) ->
         nth_error inner' i = Some None.
Proof.
  intros Hin Hnull Hinner Hnull'.
  exists (ownProperties stripNulls members), (filtered stripNulls outer),
    (indices stripNulls inner).
  split; [reflexivity|]. split.
  - assert (H := @ownProperties_in stripNulls members k (VArray outer)
                   ltac:(discriminate) Hin).
    simpl in H. now rewrite Hnull in H.
  - split.
    + exact (@filtered_in stripNulls outer (VArray inner)
               ltac:(discriminate) Hinner).
    + split; [apply indices_length|].
      split; [now apply indices_hole|apply indices_hole_at].
Qed.

End StripMore.

(* ================================================================== *)
(** ** The further properties at concrete inputs *)
(* ================================================================== *)

Lemma modify_without_original_witness :
  step Fixture.parse Fixture.keep Fixture.accept
       (Receives (Modify (Some (js "add a lighthouse"))
                         (Some (JNumber (js "0")))) 0) connection
  = (connection, [Sent Session (EvError (js "Missing 'originalJson'."));
                  Sent Session (EvDone false)]).
Proof.
  apply (@modify_without_original Fixture.parse Fixture.keep Fixture.accept
           connection (Some (js "add a lighthouse"))
           (Some (JNumber (js "0"))) 0);
    [vm_compute; discriminate|vm_compute; reflexivity|reflexivity
    |reflexivity].
Defined.

Lemma job_accepted_witness :
  snd (step Fixture.parse Fixture.keep Fixture.accept
            (Receives (Modify (Some (js " add a lighthouse "))
                              (Some (JObject []))) 0)
            connection)
  = [Checked 1 false 1;
     Sent (Job 1) (EvStatus received (js "Prompt received.") None);
     Sent (Job 1)
          (EvStatus modifying (js "Starting modification to schema...")
                    None);
     Called 1 (CallModify (JObject []) (js "add a lighthouse"))].
Proof.
  refine (f_equal snd
            (@job_accepted Fixture.parse Fixture.keep Fixture.accept
               connection (Modification (JObject []))
               (Some (js " add a lighthouse ")) 0 _ _ _ _ _));
    [vm_compute; discriminate|reflexivity..].
Defined.

Lemma job_on_canceled_connection_witness :
  snd (step Fixture.parse Fixture.keep Fixture.accept
            (Receives (Prompt (Some (js "a second island"))) 9)
            canceledBefore)
  = [Checked 2 true 2; Sent (Job 2) (EvDone false)].
Proof.
  refine (f_equal snd
            (@job_on_canceled_connection Fixture.parse Fixture.keep
               Fixture.accept canceledBefore Translation
               (Some (js "a second island")) 9 _ _ _ _ _));
    [vm_compute; discriminate|reflexivity..].
Defined.

Lemma canceled_connection_serves_no_job_witness :
  snd (step Fixture.parse Fixture.keep Fixture.accept
            (Receives (Modify (Some (js "add a lighthouse"))
                              (Some (JObject []))) 9)
            (fst (run Fixture.parse Fixture.keep Fixture.accept
                      [Beats; Receives Ping 3] canceledBefore)))
  = [Checked 2 true 2; Sent (Job 2) (EvDone false)].
Proof.
  refine (@canceled_connection_serves_no_job Fixture.parse Fixture.keep
            Fixture.accept canceledBefore [Beats; Receives Ping 3]
            (Modification (JObject [])) (Some (js "add a lighthouse")) 9
            _ _ _ _ _);
    [reflexivity|vm_compute; discriminate|reflexivity..].
Defined.

Lemma finished_job_was_told_witness :
  1 <= dones 1 (snd (run Fixture.parse Fixture.keep Fixture.accept
                         servedRun connection)) <= 2.
Proof.
  refine (@finished_job_was_told Fixture.parse Fixture.keep Fixture.accept
            servedRun 1 _ _ _).
  - intros [H|[H|[]]]; discriminate H.
  - lia.
  - reflexivity.
Defined.

Lemma result_is_validated_and_final_witness :
  succeeded (Fixture.accept (JObject [])) = true
  /\ [EvDone true] = [EvDone true].
Proof.
  refine (@result_is_validated_and_final Fixture.parse Fixture.keep
            Fixture.accept servedRun 1
            [EvStatus received (js "Prompt received.") None;
             EvStatus translating (js "Starting translation to schema...")
                      None;
             EvStatus validating (validatingMessage 1) None]
            [EvDone true] (JObject []) None _).
  reflexivity.
Defined.

Lemma generation_failure_reported_witness :
  snd (step Fixture.parse Fixture.keep Fixture.accept
            (Settles 1 (Operation (Returned (Error (js "model down")))))
            Fixture.translatingWorld)
  = [Checked 1 false 1;
     Sent (Job 1) (EvError (js "model down"));
     Sent (Job 1) (EvDone false);
     Sent (Job 1) (EvDone true)].
Proof.
  refine (f_equal snd
            (@generation_failure_reported Fixture.parse Fixture.keep
               Fixture.accept Fixture.translatingWorld 1 false
               (Operation (Returned (Error (js "model down"))))
               (js "model down") _ _ _ _)); reflexivity.
Defined.

Lemma generation_throw_reported_witness :
  snd (step Fixture.parse Fixture.keep Fixture.accept (Settles 1 Deadline)
            Fixture.translatingWorld)
  = [Sent (Job 1)
          (EvError (failurePrefix false ++ js "Operation timed out"));
     Sent (Job 1) (EvDone false);
     Sent (Job 1) (EvDone true)].
Proof.
  refine (f_equal snd
            (proj1
               (@generation_throw_reported Fixture.parse Fixture.keep
                  Fixture.accept Fixture.translatingWorld 1 false Deadline
                  (js "Operation timed out") _ _ _))); reflexivity.
Defined.

Lemma job_succeeds_at_once_witness :
  wire (snd (run Fixture.parse Fixture.keep Fixture.accept servedRun
                 connection))
  = [EvStatus received (js "Prompt received.") None;
     EvStatus translating (js "Starting translation to schema...") None;
     EvStatus validating (validatingMessage 1) None;
     EvResult (JObject []) None;
     EvDone true].
Proof.
  refine (proj1
            (@job_succeeds_at_once Fixture.parse Fixture.keep Fixture.accept
               connection Translation (Some (js "a foggy coastal island")) 0
               (js "{}") (JObject []) _ _ _ _ _ _ _));
    [vm_compute; discriminate|reflexivity..].
Defined.

Lemma engine_writes_stage_only_witness :
  let c' :=
    snd (fst (validateAndRepair Fixture.parse Fixture.keep Fixture.reject 1
                (JObject []) false
                (fun _ => Fixture.quiet (Returned (Success (js "{}"))))
                Fixture.serving)) in
  c' = withState (setJobName (jobName (state c'))) Fixture.serving.
Proof.
  refine (@engine_writes_stage_only Fixture.parse Fixture.keep
            Fixture.reject Fixture.serving 1 (JObject []) false
            (fun _ => Fixture.quiet (Returned (Success (js "{}")))) _).
  intros n s. split; reflexivity.
Defined.

Lemma engine_failure_announced_witness :
  let r := validateAndRepair Fixture.parse Fixture.keep Fixture.reject 1
             (JObject []) false
             (fun _ => Fixture.quiet (Returned (Error (js "model down"))))
             Fixture.serving in
  let events := eventsOf 1 (snd r) in
  match fst (fst r) with
  | Success _ => filter isTerminal events = []
  | Error message =>
      (message = staleMessage /\ filter isTerminal events = [])
      \/ (message = exitedMessage
          /\ exists before last,
               events = before ++ [last]
               /\ isTerminal last = true
               /\ filter isTerminal before = [])
  end.
Proof.
  refine (@engine_failure_announced Fixture.parse Fixture.keep
            Fixture.reject Fixture.serving 1 (JObject []) false
            (fun _ => Fixture.quiet (Returned (Error (js "model down"))))
            _ _).
  - reflexivity.
  - intros n k Ho. split; exact Ho.
Defined.

Lemma repaired_candidate_accepted_witness :
  fst (fst (validateAndRepair Fixture.parse Fixture.keep acceptEmpty 1
              (JObject [(js "goal", JNull)]) false
              (fun _ => Fixture.quiet (Returned (Success (js "{}"))))
              Fixture.serving))
  = Success (JObject []).
Proof.
  refine (proj1
            (@repaired_candidate_accepted Fixture.parse Fixture.keep
               acceptEmpty Fixture.serving 1 (JObject [(js "goal", JNull)])
               (JObject []) (js "missing goal") false
               (fun _ => Fixture.quiet (Returned (Success (js "{}"))))
               _ _ _ _ _ _ _)); try reflexivity.
  intros n k Ho. split; exact Ho.
Defined.

(** The client cancels while the repair call is pending, and the call
    then fails: the [result_partial] is sent all the same. *)
Lemma failed_repair_ends_loop_witness :
  wire (snd (attempts Fixture.parse Fixture.keep Fixture.reject [1; 2; 3] 1
               (JObject []) false
               (fun _ =>
                  {| whileRepairing := withState (setCanceled true);
                     repairSettles :=
                       Operation (Returned (Error (js "model down")));
                     whileSleeping := fun k => k |})
               Fixture.serving))
  = [EvStatus validating (validatingMessage 1) None;
     EvStatus repair (repairingMessage 1 (js "missing goal")) None;
     EvResultPartial (JObject [])
                     (repairFailedMessage 1 (js "model down")) (Some false)].
Proof.
  refine (proj2 (proj2 (proj2
            (proj1
               (@failed_repair_ends_loop Fixture.parse Fixture.keep
                  Fixture.reject Fixture.serving 1 1 [2; 3] (JObject [])
                  (js "missing goal") (js "model down") false
                  (fun _ =>
                     {| whileRepairing := withState (setCanceled true);
                        repairSettles :=
                          Operation (Returned (Error (js "model down")));
                        whileSleeping := fun k => k |})
                  _ _ _ _)
               eq_refl))));
    [reflexivity|reflexivity|reflexivity|discriminate].
Defined.

Lemma prose_around_object_ignored_witness :
  Mythographer.parse_json_response Fixture.parse Fixture.keep
    Mythographer.createMythographer (js "Here it is: {} (done)")
  = Mythographer.parse_json_response Fixture.parse Fixture.keep
      Mythographer.createMythographer
      (Mythographer.openBrace :: [] ++ [Mythographer.closeBrace]).
Proof.
  refine (@prose_around_object_ignored Fixture.parse Fixture.keep
            Mythographer.createMythographer (js "Here it is: {} (done)")
            (js "Here it is: ") [] (js " (done)") _).
  split; [reflexivity|].
  split; vm_compute; intuition discriminate.
Defined.

Lemma strip_leaves_no_null_witness :
  StripNulls.nullFree
    (StripNulls.stripNulls
       (StripNulls.VObject
          [(js "goal", StripNulls.VNull);
           (js "tags", StripNulls.VArray
                         [Some StripNulls.VNull;
                          Some (StripNulls.VString (js "fog"))])]))
  = true.
Proof.
  refine (@strip_leaves_no_null _ _). discriminate.
Defined.

Lemma null_free_unchanged_witness :
  StripNulls.stripNulls
    (StripNulls.VObject
       [(js "tags", StripNulls.VArray
                      [None; Some (StripNulls.VString (js "fog"))])])
  = StripNulls.VObject
      [(js "tags", StripNulls.VArray
                     [None; Some (StripNulls.VString (js "fog"))])].
Proof.
  refine (@null_free_unchanged _ _). reflexivity.
Defined.

Lemma array_property_compacted_witness :
  exists members' slots',
    StripNulls.stripNulls
      (StripNulls.VObject
         [(js "tags", StripNulls.VArray
                        [Some StripNulls.VNull;
                         Some (StripNulls.VString (js "fog"))])])
    = StripNulls.VObject members'
    /\ In (js "tags", StripNulls.VArray slots') members'
    /\ ~ In None slots'
    /\ ~ In (Some StripNulls.VNull) slots'
    /\ List.length slots'
       = List.length
           (filter StripNulls.copied
              [Some StripNulls.VNull;
               Some (StripNulls.VString (js "fog"))]).
Proof.
  refine (@array_property_compacted _ _ _ _ _);
    [left; reflexivity|reflexivity].
Defined.

Lemma nested_array_keeps_holes_witness :
  exists members' outer' inner',
    StripNulls.stripNulls
      (StripNulls.VObject
         [(js "rows",
           StripNulls.VArray
             [Some StripNulls.VNull;
              Some (StripNulls.VArray
                      [Some StripNulls.VNull;
                       Some (StripNulls.VBool true)])])])
    = StripNulls.VObject members'
    /\ In (js "rows", StripNulls.VArray outer') members'
    /\ In (Some (StripNulls.VArray inner')) outer'
    /\ List.length inner' = 2
    /\ In None inner'
    /\ forall i,
         nth_error [Some StripNulls.VNull; Some (StripNulls.VBool true)] i
         = Some (Some StripNulls.VNull) ->
         nth_error inner' i = Some None.
Proof.
  refine (@nested_array_keeps_holes _ (js "rows") _
            [Some StripNulls.VNull; Some (StripNulls.VBool true)] _ _ _ _);
    [left; reflexivity|reflexivity|right; left; reflexivity|reflexivity].
Defined.
